(** * JARVIS voice assistant: speech engine and command core

    A shallow embedding of [src/speech_engine_updated.py] (class
    [SpeechEngine]) and [src/jarvis_core.py] (class [JarvisCore]), and the
    properties of the wake-word detector, the command queue, the event bus,
    the dispatch pipeline and the component lifecycle.

    Conventions.
    - Python [str] values are [string]s holding the UTF-8 encoding of the
      text. [len] and [str.strip] go by code point; [str.lower] folds the
      letters A to Z and leaves every other character as it is.
    - A method is a computation in the monad [Eff]: it threads a state and
      ends by returning a value, by raising, or by waiting for ever. The
      type [exn] stands for instances of Python's [Exception] class, which
      is what every [except Exception] clause of the source catches.
    - One call of a method is modelled at a time; the interleaving of the
      capture thread, the processing thread and the event loop is not.
    - Collaborators outside the two classes (recogniser, callbacks, NLP,
      memory, ...) act on an abstract external world and return or raise:
      variables of a section for the speech engine, the fields of the class
      [Collaborators] for the core. *)

From Stdlib Require Import ZArith List String Ascii Floats Lia Bool.
From stdpp Require Import gmap strings list.

Open Scope string_scope.
Set Warnings "-inexact-float".

(** ** Python string operations used by the source *)

Module PyStr.

(** [str.lower] on the letters A to Z; a byte of a multi-byte character is
    left as it is, so cased letters outside ASCII are not folded. *)
Definition lower_char (c : ascii) : ascii :=
  let n := nat_of_ascii c in
  if (65 <=? n)%nat && (n <=? 90)%nat then ascii_of_nat (n + 32) else c.

Fixpoint lower (s : string) : string :=
  match s with
  | EmptyString => EmptyString
  | String c s' => String (lower_char c) (lower s')
  end.

(** [sub in s]. *)
Fixpoint contains (sub s : string) : bool :=
  if String.prefix sub s then true
  else match s with
       | EmptyString => false
       | String _ s' => contains sub s'
       end.

Fixpoint drop (n : nat) (s : string) : string :=
  match n, s with
  | O, _ => s
  | S _, EmptyString => EmptyString
  | S n', String _ s' => drop n' s'
  end.

(** The first occurrence of [sep] in [s]: the text before it and the text
    after it. *)
Fixpoint partition (sep s : string) : option (string * string) :=
  if String.prefix sep s then Some (EmptyString, drop (String.length sep) s)
  else match s with
       | EmptyString => None
       | String c s' =>
           match partition sep s' with
           | Some (b, a) => Some (String c b, a)
           | None => None
           end
       end.

(** [s.split(sep, 1)] for a non-empty [sep]: at most one split. *)
Definition split1 (sep s : string) : list string :=
  match partition sep s with
  | Some (b, a) => [b; a]
  | None => [s]
  end.

(** [l[-1]] on a list of strings that [split] returned (never empty). *)
Definition last_item (l : list string) : string := List.last l EmptyString.

(** *** Characters

    Texts are held as their UTF-8 encoding, one [ascii] per byte; a
    character (code point) is a byte with the continuation bytes that
    follow it. [len] and [str.strip] go by character. *)

(** A continuation byte, [10xxxxxx]. *)
Definition is_cont (c : ascii) : bool :=
  let n := nat_of_ascii c in (128 <=? n)%nat && (n <? 192)%nat.

Definition starts_cont (s : string) : bool :=
  match s with
  | String c _ => is_cont c
  | EmptyString => false
  end.

(** The characters of a string in order, each as the bytes that encode
    it. *)
Fixpoint chars (s : string) : list string :=
  match s with
  | EmptyString => []
  | String c s' =>
      match chars s' with
      | k :: ks =>
          if starts_cont s' then String c k :: ks
          else String c EmptyString :: k :: ks
      | [] => [String c EmptyString]
      end
  end.

(** The code point that the bytes [k] encode, when they are the UTF-8
    encoding of one: no overlong form, no surrogate, at most U+10FFFF. *)
Definition codepoint (k : string) : option N :=
  let b (c : ascii) : N := N_of_ascii c in
  let low (c : ascii) : N := (b c - 128)%N in
  match k with
  | String a EmptyString => if (b a <? 128)%N then Some (b a) else None
  | String a (String c1 EmptyString) =>
      if (194 <=? b a)%N && (b a <? 224)%N && is_cont c1
      then Some ((b a - 192) * 64 + low c1)%N
      else None
  | String a (String c1 (String c2 EmptyString)) =>
      let n := ((b a - 224) * 4096 + low c1 * 64 + low c2)%N in
      if (224 <=? b a)%N && (b a <? 240)%N && is_cont c1 && is_cont c2
         && (2048 <=? n)%N && negb ((55296 <=? n)%N && (n <? 57344)%N)
      then Some n
      else None
  | String a (String c1 (String c2 (String c3 EmptyString))) =>
      let n := ((b a - 240) * 262144 + low c1 * 4096 + low c2 * 64 + low c3)%N in
      if (240 <=? b a)%N && (b a <? 245)%N && is_cont c1 && is_cont c2 && is_cont c3
         && (65536 <=? n)%N && (n <? 1114112)%N
      then Some n
      else None
  | _ => None
  end.

(** [c.isspace()] by code point: U+0009 to U+000D, U+001C to U+0020,
    U+0085, U+00A0, U+1680, U+2000 to U+200A, U+2028, U+2029, U+202F,
    U+205F and U+3000. *)
Definition isspace (n : N) : bool :=
  ((9 <=? n)%N && (n <=? 13)%N) || ((28 <=? n)%N && (n <=? 32)%N)
  || (n =? 133)%N || (n =? 160)%N || (n =? 5760)%N
  || ((8192 <=? n)%N && (n <=? 8202)%N)
  || (n =? 8232)%N || (n =? 8233)%N || (n =? 8239)%N || (n =? 8287)%N
  || (n =? 12288)%N.

(** Whether the character [k] is whitespace. *)
Definition is_space (k : string) : bool :=
  match codepoint k with
  | Some n => isspace n
  | None => false
  end.

Definition is_empty (s : string) : bool :=
  match s with EmptyString => true | _ => false end.

(** Dropping the whitespace characters at the front, and at the back. *)
Fixpoint lstrip_chars (l : list string) : list string :=
  match l with
  | [] => []
  | k :: l' => if is_space k then lstrip_chars l' else l
  end.

Definition rstrip_chars (l : list string) : list string :=
  rev (lstrip_chars (rev l)).

Definition join (l : list string) : string :=
  fold_right String.append EmptyString l.

(** [s.strip()]. *)
Definition strip (s : string) : string :=
  join (rstrip_chars (lstrip_chars (chars s))).

(** [len(s)], the number of characters: the encoding of each has exactly
    one byte that is not a continuation byte. *)
Fixpoint len (s : string) : nat :=
  match s with
  | EmptyString => O
  | String c s' => if is_cont c then len s' else S (len s')
  end.

End PyStr.

(** ** Exceptions, outcomes and the effect monad *)

(** Instances of [Exception] that the source names, and any other one. *)
Inductive exn : Type :=
| UnknownValueError
| RequestError (msg : string)
| QueueEmpty
| AttributeError (msg : string)
| RuntimeError (msg : string)
| OtherError (msg : string).

(** [str(e)], as an f-string formats the exception. *)
Definition exn_str (e : exn) : string :=
  match e with
  | UnknownValueError => ""
  | QueueEmpty => ""
  | RequestError m | AttributeError m | RuntimeError m | OtherError m => m
  end.

(** How a call ends: it returns a value, raises, or never returns (a
    blocking [put] on a full queue, an [await] that never completes). *)
Inductive result (A : Type) : Type :=
| Ok (a : A)
| Raise (e : exn)
| Blocks.
Arguments Ok {A} a.
Arguments Raise {A} e.
Arguments Blocks {A}.

(** How an awaited collaborator ends: calls into other components are taken
    to complete, with a value or with an exception. *)
Inductive outcome (A : Type) : Type :=
| Returns (a : A)
| Raises (e : exn).
Arguments Returns {A} a.
Arguments Raises {A} e.

Definition of_outcome {A} (o : outcome A) : result A :=
  match o with
  | Returns a => Ok a
  | Raises e => Raise e
  end.

Definition Eff (St A : Type) : Type := St -> result A * St.

Module Eff.
Section Ops.
Context {St : Type}.

Definition ret {A} (a : A) : Eff St A := fun s => (Ok a, s).

Definition bind {A B} (m : Eff St A) (k : A -> Eff St B) : Eff St B :=
  fun s =>
    match m s with
    | (Ok a, s') => k a s'
    | (Raise e, s') => (Raise e, s')
    | (Blocks, s') => (Blocks, s')
    end.

Definition raise {A} (e : exn) : Eff St A := fun s => (Raise e, s).
Definition block {A} : Eff St A := fun s => (Blocks, s).
Definition gets {A} (f : St -> A) : Eff St A := fun s => (Ok (f s), s).
Definition modify (f : St -> St) : Eff St unit := fun s => (Ok tt, f s).

(** [try: m  except Exception as e: h e]. *)
Definition try_except {A} (m : Eff St A) (h : exn -> Eff St A) : Eff St A :=
  fun s =>
    match m s with
    | (Raise e, s') => h e s'
    | r => r
    end.

(** [for x in l: body x]. *)
Fixpoint for_each {A} (l : list A) (body : A -> Eff St unit) : Eff St unit :=
  match l with
  | [] => ret tt
  | x :: l' => bind (body x) (fun _ => for_each l' body)
  end.
End Ops.
End Eff.

Declare Scope eff_scope.
Delimit Scope eff_scope with eff.
Notation "x <- m ;; k" := (Eff.bind m (fun x => k))
  (at level 100, m at next level, k at level 200, right associativity) : eff_scope.
Notation "m ;; k" := (Eff.bind m (fun _ => k))
  (at level 100, k at level 200, right associativity) : eff_scope.
Open Scope eff_scope.

(** Log records of a [logging.Logger]. *)
Inductive level : Type := DEBUG | INFO | WARNING | ERROR.
Definition LogRecord : Type := level * string.

(** The dictionaries passed to callbacks and event handlers. *)
Abbreviation Payload := (gmap string string).

(** ** [queue.Queue] *)

Module Queue.
Record t (A : Type) : Type := mk { maxsize : Z; items : list A }.
Arguments mk {A} maxsize items.
Arguments maxsize {A} _.
Arguments items {A} _.

(** [queue.Queue(maxsize=0)]: "If maxsize is <= 0, the queue size is
    infinite." *)
Definition new {A} (maxsize : Z) : t A := mk maxsize [].

Definition qsize {A} (q : t A) : nat := length (items q).
Definition empty {A} (q : t A) : bool := (qsize q =? 0)%nat.
Definition full {A} (q : t A) : bool :=
  (0 <? maxsize q)%Z && (maxsize q <=? Z.of_nat (qsize q))%Z.

(** [q.put(x)], blocking: [None] when the queue is full and the caller
    would wait for a free slot. *)
Definition put {A} (x : A) (q : t A) : option (t A) :=
  if full q then None else Some (mk (maxsize q) (items q ++ [x])).

(** [q.get_nowait()]: [None] stands for [queue.Empty]. *)
Definition get_nowait {A} (q : t A) : option (A * t A) :=
  match items q with
  | [] => None
  | x :: rest => Some (x, mk (maxsize q) rest)
  end.
End Queue.


(** ** [SpeechEngine] (src/speech_engine_updated.py) *)

Module SpeechEngine.
Section Engine.

(** Captured audio, as [recognizer.listen] returns it. *)
Variable Audio : Type.
(** The callables stored in [on_wake_word], [on_command], ... *)
Variable Callback : Type.
(** Whatever the callbacks act on. *)
Variable World : Type.

(** [self.recognizer.recognize_google(audio, language=lang)]: the text, or
    [sr.UnknownValueError], [sr.RequestError], or another exception. *)
Variable recognize_google : Audio -> string -> outcome string.
(** Running the coroutine a callback returns, as [await cb(payload)] does. *)
Variable run_callback : Callback -> Payload -> World -> outcome unit * World.
(** [SETTINGS.get("voice", {})] of config/settings.py. *)
Variable SETTINGS_voice : gmap string string.

(** The attributes of [self] that the modelled methods read or write. *)
Record t : Type := mk {
  is_listening : bool;
  wake_word_detected : bool;
  voice_config : gmap string string;
  audio_queue : Queue.t Audio;
  command_queue : Queue.t string;
  wake_words : list string;
  on_wake_word : option Callback;
  on_command : option Callback;
  on_listening_start : option Callback;
  on_listening_stop : option Callback
}.

(** The engine together with what surrounds it: the records its logger
    received, whether the calling thread has a running asyncio event loop,
    the tasks handed to [asyncio.create_task], the callbacks that were
    awaited (in order), and the external world. *)
Record State : Type := mkState {
  self : t;
  logger : list LogRecord;
  loop_running : bool;
  tasks : list (Callback * Payload);
  awaited : list (Callback * Payload);
  world : World
}.

(** [SpeechEngine.__init__]. *)
Definition __init__ : t :=
  {| is_listening := false;
     wake_word_detected := false;
     voice_config := SETTINGS_voice;
     audio_queue := Queue.new 0;
     command_queue := Queue.new 0;
     wake_words := ["jarvis"; "hey jarvis"; "ok jarvis"];
     on_wake_word := None;
     on_command := None;
     on_listening_start := None;
     on_listening_stop := None |}.

Definition with_self (f : t -> t) (s : State) : State :=
  {| self := f (self s); logger := logger s; loop_running := loop_running s;
     tasks := tasks s; awaited := awaited s; world := world s |}.

Definition set_is_listening (b : bool) (e : t) : t :=
  {| is_listening := b; wake_word_detected := wake_word_detected e;
     voice_config := voice_config e; audio_queue := audio_queue e;
     command_queue := command_queue e; wake_words := wake_words e;
     on_wake_word := on_wake_word e; on_command := on_command e;
     on_listening_start := on_listening_start e;
     on_listening_stop := on_listening_stop e |}.

Definition set_wake_word_detected (b : bool) (e : t) : t :=
  {| is_listening := is_listening e; wake_word_detected := b;
     voice_config := voice_config e; audio_queue := audio_queue e;
     command_queue := command_queue e; wake_words := wake_words e;
     on_wake_word := on_wake_word e; on_command := on_command e;
     on_listening_start := on_listening_start e;
     on_listening_stop := on_listening_stop e |}.

Definition set_audio_queue (q : Queue.t Audio) (e : t) : t :=
  {| is_listening := is_listening e; wake_word_detected := wake_word_detected e;
     voice_config := voice_config e; audio_queue := q;
     command_queue := command_queue e; wake_words := wake_words e;
     on_wake_word := on_wake_word e; on_command := on_command e;
     on_listening_start := on_listening_start e;
     on_listening_stop := on_listening_stop e |}.

Definition set_command_queue (q : Queue.t string) (e : t) : t :=
  {| is_listening := is_listening e; wake_word_detected := wake_word_detected e;
     voice_config := voice_config e; audio_queue := audio_queue e;
     command_queue := q; wake_words := wake_words e;
     on_wake_word := on_wake_word e; on_command := on_command e;
     on_listening_start := on_listening_start e;
     on_listening_stop := on_listening_stop e |}.

(** [self.logger.<lvl>(msg)]. *)
Definition log (lvl : level) (msg : string) : Eff State unit :=
  Eff.modify (fun s =>
    {| self := self s; logger := logger s ++ [(lvl, msg)];
       loop_running := loop_running s; tasks := tasks s;
       awaited := awaited s; world := world s |}).

(** [asyncio.create_task(cb(payload))]: schedules the coroutine on the
    running loop of the calling thread, and raises [RuntimeError] when that
    thread has none. *)
Definition create_task (cb : Callback) (payload : Payload) : Eff State unit :=
  fun s =>
    if loop_running s then
      (Ok tt, {| self := self s; logger := logger s;
                 loop_running := loop_running s;
                 tasks := tasks s ++ [(cb, payload)];
                 awaited := awaited s; world := world s |})
    else (Raise (RuntimeError "no running event loop"), s).

(** [await cb(payload)]. *)
Definition await (cb : Callback) (payload : Payload) : Eff State unit :=
  fun s =>
    let '(r, w) := run_callback cb payload (world s) in
    (of_outcome r,
     {| self := self s; logger := logger s; loop_running := loop_running s;
        tasks := tasks s; awaited := awaited s ++ [(cb, payload)];
        world := w |}).

(** [SpeechEngine._contains_wake_word]. *)
Definition _contains_wake_word (e : t) (text : string) : bool :=
  existsb (fun wake_word => PyStr.contains wake_word text) (wake_words e).

(** The [for] loop of [_extract_command_from_wake_phrase]; [return None]
    follows the loop. *)
Fixpoint extract_loop (ws : list string) (text : string) : option string :=
  match ws with
  | [] => None
  | wake_word :: rest =>
      if PyStr.contains wake_word text then
        let command :=
          PyStr.strip (PyStr.last_item (PyStr.split1 wake_word text)) in
        if (2 <? PyStr.len command)%nat then Some command
        else extract_loop rest text
      else extract_loop rest text
  end.

(** [SpeechEngine._extract_command_from_wake_phrase]. *)
Definition _extract_command_from_wake_phrase (e : t) (text : string) : option string :=
  extract_loop (wake_words e) text.

(** [SpeechEngine._handle_command]. *)
Definition _handle_command (command : string) : Eff State unit :=
  log INFO ("🎤 Command received: " ++ command) ;;
  q <- Eff.gets (fun s => command_queue (self s)) ;;
  match Queue.put command q with
  | Some q' => Eff.modify (with_self (set_command_queue q'))
  | None => Eff.block
  end ;;
  cb <- Eff.gets (fun s => on_command (self s)) ;;
  match cb with
  | Some cb => create_task cb {[ "command" := command ]}
  | None => Eff.ret tt
  end.

(** [SpeechEngine._process_audio]. *)
Definition _process_audio (audio : Audio) : Eff State unit :=
  Eff.try_except
    (e <- Eff.gets self ;;
     text <- (fun s =>
       (of_outcome
          (recognize_google audio (default "en-US" (voice_config e !! "language"))),
        s)) ;;
     let text := PyStr.lower text in
     log DEBUG ("Recognized: " ++ text) ;;
     if _contains_wake_word e text then
       log INFO ("🎯 Wake word detected: " ++ text) ;;
       Eff.modify (with_self (set_wake_word_detected true)) ;;
       match on_wake_word e with
       | Some cb => create_task cb {[ "text" := text ]}
       | None => Eff.ret tt
       end ;;
       match _extract_command_from_wake_phrase e text with
       | Some command =>
           if PyStr.is_empty command then Eff.ret tt else _handle_command command
       | None => Eff.ret tt
       end
     else
       armed <- Eff.gets (fun s => wake_word_detected (self s)) ;;
       if armed then
         _handle_command text ;;
         Eff.modify (with_self (set_wake_word_detected false))
       else Eff.ret tt)
    (fun e =>
       match e with
       | UnknownValueError => Eff.ret tt
       | RequestError _ =>
           log ERROR ("Speech recognition service error: " ++ exn_str e)
       | _ => log ERROR ("Audio processing error: " ++ exn_str e)
       end).

(** [self.audio_queue.get(timeout=1)] when no producer adds an item during
    the wait: the head of the queue, or [queue.Empty]. *)
Definition audio_queue_get : Eff State Audio :=
  q <- Eff.gets (fun s => audio_queue (self s)) ;;
  match Queue.get_nowait q with
  | Some (audio, q') => Eff.modify (with_self (set_audio_queue q')) ;; Eff.ret audio
  | None => Eff.raise QueueEmpty
  end.

(** One pass through the body of [while True] in
    [SpeechEngine._audio_processing_loop]. The call [task_done()] after
    [_process_audio] only counts down the queue's unfinished tasks, which
    nothing here reads. *)
Definition _audio_processing_loop_body : Eff State unit :=
  Eff.try_except
    (audio <- audio_queue_get ;;
     _process_audio audio)
    (fun e =>
       match e with
       | QueueEmpty => Eff.ret tt
       | _ => log ERROR ("Audio processing error: " ++ exn_str e)
       end).

(** [n] passes of that loop, as long as each one returns. *)
Fixpoint _audio_processing_loop (n : nat) : Eff State unit :=
  match n with
  | O => Eff.ret tt
  | S n' => _audio_processing_loop_body ;; _audio_processing_loop n'
  end.

(** [SpeechEngine.listen_for_commands]. *)
Definition listen_for_commands : Eff State unit :=
  e <- Eff.gets self ;;
  if negb (is_listening e) then
    Eff.modify (with_self (set_is_listening true)) ;;
    log INFO "👂 Started listening for commands" ;;
    match on_listening_start e with
    | Some cb => await cb ∅
    | None => Eff.ret tt
    end
  else Eff.ret tt.

(** [SpeechEngine.stop_listening]. *)
Definition stop_listening : Eff State unit :=
  e <- Eff.gets self ;;
  if is_listening e then
    Eff.modify (with_self (set_is_listening false)) ;;
    Eff.modify (with_self (set_wake_word_detected false)) ;;
    log INFO "🔇 Stopped listening" ;;
    match on_listening_stop e with
    | Some cb => await cb ∅
    | None => Eff.ret tt
    end
  else Eff.ret tt.

(** The [while] loop of [get_pending_commands], run for at most [fuel]
    tests of its condition; [None] when the fuel runs out first. *)
Fixpoint get_pending_loop (fuel : nat) (commands : list string)
  : Eff State (option (list string)) :=
  match fuel with
  | O => Eff.ret None
  | S fuel' =>
      q <- Eff.gets (fun s => command_queue (self s)) ;;
      if negb (Queue.empty q) then
        match Queue.get_nowait q with
        | Some (c, q') =>
            Eff.modify (with_self (set_command_queue q')) ;;
            get_pending_loop fuel' (commands ++ [c])
        | None => Eff.ret (Some commands)
        end
      else Eff.ret (Some commands)
  end.

(** [SpeechEngine.get_pending_commands]. *)
Definition get_pending_commands (fuel : nat) : Eff State (option (list string)) :=
  get_pending_loop fuel [].

End Engine.

Arguments mk {Audio Callback}.
Arguments is_listening {Audio Callback} _.
Arguments wake_word_detected {Audio Callback} _.
Arguments voice_config {Audio Callback} _.
Arguments audio_queue {Audio Callback} _.
Arguments command_queue {Audio Callback} _.
Arguments wake_words {Audio Callback} _.
Arguments on_wake_word {Audio Callback} _.
Arguments on_command {Audio Callback} _.
Arguments on_listening_start {Audio Callback} _.
Arguments on_listening_stop {Audio Callback} _.
Arguments mkState {Audio Callback World}.
Arguments self {Audio Callback World} _.
Arguments logger {Audio Callback World} _.
Arguments loop_running {Audio Callback World} _.
Arguments tasks {Audio Callback World} _.
Arguments awaited {Audio Callback World} _.
Arguments world {Audio Callback World} _.
Arguments with_self {Audio Callback World}.
Arguments set_is_listening {Audio Callback}.
Arguments set_wake_word_detected {Audio Callback}.
Arguments set_audio_queue {Audio Callback}.
Arguments set_command_queue {Audio Callback}.
Arguments log {Audio Callback World}.
Arguments create_task {Audio Callback World}.
Arguments await {Audio Callback World}.
Arguments _contains_wake_word {Audio Callback}.
Arguments _extract_command_from_wake_phrase {Audio Callback}.
Arguments _handle_command {Audio Callback World}.
Arguments _process_audio {Audio Callback World}.
Arguments audio_queue_get {Audio Callback World}.
Arguments _audio_processing_loop_body {Audio Callback World}.
Arguments _audio_processing_loop {Audio Callback World}.
Arguments listen_for_commands {Audio Callback World}.
Arguments stop_listening {Audio Callback World}.
Arguments get_pending_loop {Audio Callback World}.
Arguments get_pending_commands {Audio Callback World}.

End SpeechEngine.



(** ** [SpeechEngine]: capture, voice configuration and shutdown *)

Module SpeechEngineIO.
Import SpeechEngine.

(** How [with self.microphone as source: self.recognizer.listen(source,
    timeout=1, phrase_time_limit=5)] ends: with audio, with
    [sr.WaitTimeoutError] when no speech starts within the second, or with
    another exception (the microphone, the device). *)
Inductive capture (Audio : Type) : Type :=
| Captured (audio : Audio)
| WaitTimeoutError
| CaptureError (e : exn).
Arguments Captured {Audio} audio.
Arguments WaitTimeoutError {Audio}.
Arguments CaptureError {Audio} e.

Section IO.
Variables Audio Callback World : Type.
Variable run_callback : Callback -> Payload -> World -> outcome unit * World.
(** Listening on the microphone once. *)
Variable listen : World -> capture Audio * World.
(** [self.tts_engine.setProperty(name, value)]; it raises as well when
    [self.tts_engine] is [None]. *)
Variable tts_setProperty : string -> string -> World -> outcome unit * World.
(** [self.tts_engine.stop], or [None] when [self.tts_engine] is [None]. *)
Variable tts_stop : option (World -> outcome unit * World).

Definition with_world (w : World) (s : State Audio Callback World)
  : State Audio Callback World :=
  {| self := self s; logger := logger s; loop_running := loop_running s;
     tasks := tasks s; awaited := awaited s; world := w |}.

Definition set_voice_config_attr (c : gmap string string)
    (e : SpeechEngine.t Audio Callback) : SpeechEngine.t Audio Callback :=
  {| is_listening := is_listening e; wake_word_detected := wake_word_detected e;
     voice_config := c; audio_queue := audio_queue e;
     command_queue := command_queue e; wake_words := wake_words e;
     on_wake_word := on_wake_word e; on_command := on_command e;
     on_listening_start := on_listening_start e;
     on_listening_stop := on_listening_stop e |}.

(** A call of the TTS engine. *)
Definition tts {A} (f : World -> outcome A * World)
  : Eff (State Audio Callback World) A :=
  fun s => let '(r, w) := f (world s) in (of_outcome r, with_world w s).

(** The body of [while self.is_listening] in
    [SpeechEngine._audio_capture_loop]: captured audio goes to the audio
    queue, a timeout is passed over, any other exception is logged (and
    followed by [time.sleep(0.1)]). *)
Definition _audio_capture_loop_body : Eff (State Audio Callback World) unit :=
  fun s =>
    let '(c, w) := listen (world s) in
    match c with
    | Captured audio =>
        (q <- Eff.gets (fun s => audio_queue (self s)) ;;
         match Queue.put audio q with
         | Some q' => Eff.modify (with_self (set_audio_queue q'))
         | None => Eff.block
         end) (with_world w s)
    | WaitTimeoutError => (Ok tt, with_world w s)
    | CaptureError e =>
        log ERROR ("Audio capture error: " ++ exn_str e) (with_world w s)
    end.

(** [SpeechEngine._audio_capture_loop], run for at most [fuel] tests of
    [self.is_listening]: [Some tt] when the loop was left, [None] when the
    fuel ran out first. *)
Fixpoint _audio_capture_loop (fuel : nat)
  : Eff (State Audio Callback World) (option unit) :=
  match fuel with
  | O => Eff.ret None
  | S fuel' =>
      listening <- Eff.gets (fun s => is_listening (self s)) ;;
      if listening then _audio_capture_loop_body ;; _audio_capture_loop fuel'
      else Eff.ret (Some tt)
  end.

(** [SpeechEngine.set_voice_config]. *)
Definition set_voice_config (config : gmap string string)
  : Eff (State Audio Callback World) unit :=
  Eff.try_except
    (Eff.modify (with_self (fun e =>
       set_voice_config_attr (config ∪ voice_config e) e)) ;;
     match config !! "rate" with
     | Some v => tts (tts_setProperty "rate" v)
     | None => Eff.ret tt
     end ;;
     match config !! "volume" with
     | Some v => tts (tts_setProperty "volume" v)
     | None => Eff.ret tt
     end ;;
     match config !! "voice_id" with
     | Some v => tts (tts_setProperty "voice" v)
     | None => Eff.ret tt
     end ;;
     log INFO "Voice configuration updated")
    (fun e => log ERROR ("Voice config update error: " ++ exn_str e)).

(** [SpeechEngine.shutdown]. The two [join(timeout=2)] calls wait for the
    threads and change nothing here; the bare [except: pass] around
    [self.tts_engine.stop()] swallows what it raises. *)
Definition shutdown : Eff (State Audio Callback World) unit :=
  log INFO "🔄 Shutting down Speech Engine..." ;;
  stop_listening run_callback ;;
  match tts_stop with
  | Some stop => Eff.try_except (tts stop) (fun _ => Eff.ret tt)
  | None => Eff.ret tt
  end ;;
  log INFO "✅ Speech Engine shutdown complete".

End IO.

Arguments with_world {Audio Callback World}.
Arguments set_voice_config_attr {Audio Callback}.
Arguments tts {Audio Callback World A}.
Arguments _audio_capture_loop_body {Audio Callback World}.
Arguments _audio_capture_loop {Audio Callback World}.
Arguments set_voice_config {Audio Callback World}.
Arguments shutdown {Audio Callback World}.

End SpeechEngineIO.


(** ** [JarvisCore] (src/jarvis_core.py) *)

Module JarvisCore.

(** The six components the core owns, by the attribute holding each. *)
Inductive Component : Type :=
| memory_manager
| nlp_processor
| speech_engine
| automation_engine
| plugin_manager
| web_interface.

Definition Component_eqb (a b : Component) : bool :=
  match a, b with
  | memory_manager, memory_manager | nlp_processor, nlp_processor
  | speech_engine, speech_engine | automation_engine, automation_engine
  | plugin_manager, plugin_manager | web_interface, web_interface => true
  | _, _ => false
  end.

Definition Component_name (c : Component) : string :=
  match c with
  | memory_manager => "memory_manager"
  | nlp_processor => "nlp_processor"
  | speech_engine => "speech_engine"
  | automation_engine => "automation_engine"
  | plugin_manager => "plugin_manager"
  | web_interface => "web_interface"
  end.

(** Dictionaries with string keys, as the NLP entities and the results of
    the automation engine. *)
Abbreviation Dict := (gmap string string).

Section Core.

(** Values of [datetime.now()]. *)
Variable Time : Type.
(** What [get_recent_interactions], [get_user_preferences] and
    [get_active_apps] return. *)
Variable History Prefs Apps : Type.
(** Callables registered on the event bus or supplied to the instance from
    outside the class body. *)
Variable External : Type.
(** Whatever the collaborators act on. *)
Variable World : Type.

(** [JarvisResponse]; [__post_init__] fills a missing timestamp, see
    [JarvisResponse_new]. *)
Record JarvisResponse : Type := mkResponse {
  text : string;
  action : option string;
  data : option Dict;
  confidence : float;
  timestamp : Time
}.

(** The dictionary [nlp_processor.analyze] returns, by the keys read. *)
Record NlpResult : Type := mkNlp {
  nlp_intent : option string;
  nlp_entities : option Dict;
  nlp_confidence : option float
}.

(** The dictionary [_get_system_status] returns. *)
Record SystemStatus : Type := mkStatus {
  cpu_usage : float;
  memory_usage : float;
  disk_usage : float;
  network_status : string
}.

(** The dictionary [_build_context] returns. *)
Record Context : Type := mkContext {
  current_time : Time;
  user_location : string;
  recent_history : History;
  system_status : SystemStatus;
  user_preferences : Prefs;
  active_applications : Apps
}.

(** The dictionary [_store_interaction] hands to the memory manager. *)
Record Interaction : Type := mkInteraction {
  i_timestamp : Time;
  i_command : string;
  i_response : string;
  i_source : string;
  i_confidence : float
}.

(** Handlers on the event bus: the bound methods that
    [_setup_event_handlers] registers and are defined in the class, and
    callables from outside. *)
Inductive Handler : Type :=
| _handle_voice_command
| _handle_wake_word
| _handle_web_command
| external (h : External).

(** Calls that leave the class, recorded in the order they are made. *)
Inductive Call : Type :=
| Construct (c : Component)
| Initialize (c : Component)
| Shutdown (c : Component)
| Analyze (command : string)
| GetRecentInteractions (n : nat)
| GetUserPreferences
| GetActiveApps
| ExecuteAutomation (action target : option string) (context : Context)
| ExecuteSystemCommand (action target : option string)
| TryPlugins (entities : Dict) (context : Context)
| StoreInteraction (i : Interaction)
| Speak (text : string)
| SendResponse (r : JarvisResponse)
| PlayAcknowledgmentSound
| Invoke (h : Handler) (payload : Payload)
| CallExtra (name : string).

(** *** Collaborators *)

(** What the class calls but does not define: the clock, the methods of the
    six components, the event handlers from outside, and the attributes of
    [self] that the class body reads without defining them. Awaited calls
    act on the external world and return or raise. *)
Class Collaborators : Type := {
  now : World -> Time * World;
  (** [t.strftime("%I:%M %p")]. *)
  strftime_I_M_p : Time -> string;
  (** [MemoryManager()], [NLPProcessor()], ..., [WebInterface(self)]. *)
  construct : Component -> World -> outcome unit * World;
  (** [c.initialize()], and [plugin_manager.load_plugins()]. *)
  initialize_component : Component -> World -> outcome unit * World;
  (** [c.shutdown()]. *)
  shutdown_component : Component -> World -> outcome unit * World;
  analyze : string -> World -> outcome NlpResult * World;
  get_recent_interactions : nat -> World -> outcome History * World;
  get_user_preferences : World -> outcome Prefs * World;
  get_active_apps : World -> outcome Apps * World;
  execute_automation :
    option string -> option string -> Context -> World -> outcome Dict * World;
  execute_system_command :
    option string -> option string -> World -> outcome Dict * World;
  try_plugins :
    Dict -> Context -> World -> outcome (option JarvisResponse) * World;
  store_interaction : Interaction -> World -> outcome unit * World;
  speak : string -> World -> outcome unit * World;
  send_response : JarvisResponse -> World -> outcome unit * World;
  play_acknowledgment_sound : World -> outcome unit * World;
  (** Awaiting an event handler from outside the class. *)
  run_external : External -> Payload -> World -> outcome unit * World;
  (** The command handlers [_handle_entertainment_command],
      [_handle_productivity_command], [_handle_personal_command] and the
      event handlers [_handle_system_alert], [_handle_automation] are read
      from [self] but the class body of src/jarvis_core.py does not define
      them. [None]: the instance has no such attribute and the lookup raises
      [AttributeError], as on a plain [JarvisCore()]; [Some]: a subclass or
      the instance supplies it. *)
  extra_command_handler :
    string ->
    option (Dict -> Context -> float -> World -> outcome JarvisResponse * World);
  extra_event_handler : string -> option External
}.

Context {collab : Collaborators}.

(** The attributes of [self] that the modelled methods read or write: for
    each component whether the attribute holds an object (or [None]), the
    handler registry, and [is_active]. *)
Record t : Type := mk {
  component : Component -> bool;
  event_handlers : gmap string (list Handler);
  is_active : bool
}.

(** [JarvisCore.__init__]. *)
Definition __init__ : t :=
  {| component := fun _ => false; event_handlers := ∅; is_active := false |}.

Record State : Type := mkState {
  self : t;
  logger : list LogRecord;
  calls : list Call;
  world : World
}.

Definition with_self (f : t -> t) (s : State) : State :=
  {| self := f (self s); logger := logger s; calls := calls s; world := world s |}.

Definition set_component (c : Component) (e : t) : t :=
  {| component := fun c' => if Component_eqb c c' then true else component e c';
     event_handlers := event_handlers e; is_active := is_active e |}.

Definition set_event_handlers (r : gmap string (list Handler)) (e : t) : t :=
  {| component := component e; event_handlers := r; is_active := is_active e |}.

Definition set_is_active (b : bool) (e : t) : t :=
  {| component := component e; event_handlers := event_handlers e; is_active := b |}.

(** [self.logger.<lvl>(msg)]. *)
Definition log (lvl : level) (msg : string) : Eff State unit :=
  Eff.modify (fun s =>
    {| self := self s; logger := logger s ++ [(lvl, msg)];
       calls := calls s; world := world s |}).

(** A call [c] to a collaborator [f]. *)
Definition call {A} (c : Call) (f : World -> outcome A * World) : Eff State A :=
  fun s =>
    let '(r, w) := f (world s) in
    (of_outcome r,
     {| self := self s; logger := logger s; calls := calls s ++ [c]; world := w |}).

(** [await self.<comp>.<method>(...)]: on [None] the attribute lookup of the
    method raises. *)
Definition on_component {A} (comp : Component) (method : string)
    (c : Call) (f : World -> outcome A * World) : Eff State A :=
  present <- Eff.gets (fun s => component (self s) comp) ;;
  if present then call c f
  else Eff.raise
         (AttributeError ("'NoneType' object has no attribute '" ++ method ++ "'")).

(** [datetime.now()]. *)
Definition datetime_now : Eff State Time :=
  fun s =>
    let '(t, w) := now (world s) in
    (Ok t, {| self := self s; logger := logger s; calls := calls s; world := w |}).

(** [JarvisResponse(text=..., action=..., data=..., confidence=...)] with
    no timestamp: [__post_init__] sets it to [datetime.now()]. *)
Definition JarvisResponse_new (text : string) (action : option string)
    (data : option Dict) (confidence : float) : Eff State JarvisResponse :=
  t <- datetime_now ;;
  Eff.ret (mkResponse text action data confidence t).

(** *** The dispatch pipeline *)

(** Formatting a possibly-[None] string in an f-string. *)
Definition fmt (o : option string) : string := default "None" o.

(** [x or y] on strings: [y] when [x] is [None] or empty. *)
Definition py_or (x : option string) (y : string) : string :=
  match x with
  | Some s => if PyStr.is_empty s then y else s
  | None => y
  end.

(** [x == lit] for the result [x] of a [dict.get]. *)
Definition is_str (x : option string) (lit : string) : bool :=
  match x with
  | Some s => String.eqb s lit
  | None => false
  end.

(** [JarvisCore._get_user_location]. *)
Definition _get_user_location : Eff State string := Eff.ret "Unknown".

(** [JarvisCore._get_system_status]. *)
Definition _get_system_status : Eff State SystemStatus :=
  Eff.ret {| cpu_usage := 0.0; memory_usage := 0.0; disk_usage := 0.0;
             network_status := "connected" |}.

(** [JarvisCore._build_context]. *)
Definition _build_context (command : string) (intent : option string)
    (entities : Dict) : Eff State Context :=
  current_time <- datetime_now ;;
  user_location <- _get_user_location ;;
  recent_history <-
    on_component memory_manager "get_recent_interactions"
      (GetRecentInteractions 5) (get_recent_interactions 5) ;;
  system_status <- _get_system_status ;;
  user_preferences <-
    on_component memory_manager "get_user_preferences"
      GetUserPreferences get_user_preferences ;;
  active_applications <-
    on_component automation_engine "get_active_apps" GetActiveApps get_active_apps ;;
  Eff.ret (mkContext current_time user_location recent_history system_status
             user_preferences active_applications).

(** The signature of the command handlers. *)
Definition CommandHandler : Type :=
  Dict -> Context -> float -> Eff State JarvisResponse.

(** [JarvisCore._handle_automation_command]. *)
Definition _handle_automation_command : CommandHandler :=
  fun entities context confidence =>
    let action := entities !! "action" in
    let target := entities !! "target" in
    result <-
      on_component automation_engine "execute_automation"
        (ExecuteAutomation action target context)
        (execute_automation action target context) ;;
    JarvisResponse_new
      (default "Automation executed successfully" (result !! "message"))
      (Some "automation") (Some result) confidence.

(** [JarvisCore._get_weather_info]. *)
Definition _get_weather_info (location : string) : Eff State Dict :=
  Eff.ret {[ "text" :=
    "Weather information for " ++ location ++ " is not available right now." ]}.

(** [JarvisCore._get_news_info]. *)
Definition _get_news_info (topic : option string) : Eff State Dict :=
  Eff.ret {[ "text" :=
    "Latest news about " ++ fmt topic ++ " is not available right now." ]}.

(** [JarvisCore._get_time_info]. *)
Definition _get_time_info (timezone : option string) : Eff State Dict :=
  t <- datetime_now ;;
  let current_time := strftime_I_M_p t in
  Eff.ret {[ "text" := "The current time is " ++ current_time ]}.

(** [JarvisCore._get_general_info]. *)
Definition _get_general_info (query : option string) : Eff State Dict :=
  Eff.ret {[ "text" :=
    "I don't have specific information about " ++ fmt query ++ " right now." ]}.

(** [JarvisCore._handle_information_command]. *)
Definition _handle_information_command : CommandHandler :=
  fun entities context confidence =>
    let query_type := entities !! "query_type" in
    let subject := entities !! "subject" in
    info <-
      (if is_str query_type "weather" then
         _get_weather_info (py_or subject (user_location context))
       else if is_str query_type "news" then _get_news_info subject
       else if is_str query_type "time" then _get_time_info subject
       else _get_general_info subject) ;;
    JarvisResponse_new (default "Here's what I found" (info !! "text"))
      (Some "information") (Some info) confidence.

(** [JarvisCore._handle_system_command]. *)
Definition _handle_system_command : CommandHandler :=
  fun entities context confidence =>
    let action := entities !! "action" in
    let target := entities !! "target" in
    result <-
      on_component automation_engine "execute_system_command"
        (ExecuteSystemCommand action target)
        (execute_system_command action target) ;;
    JarvisResponse_new (default "System command executed" (result !! "message"))
      (Some "system_control") (Some result) confidence.

(** [JarvisCore._handle_unknown_command]. A [JarvisResponse] is always
    truthy, so [if plugin_response] tests for [None]. *)
Definition _handle_unknown_command : CommandHandler :=
  fun entities context confidence =>
    plugin_response <-
      on_component plugin_manager "try_plugins"
        (TryPlugins entities context) (try_plugins entities context) ;;
    match plugin_response with
    | Some r => Eff.ret r
    | None =>
        JarvisResponse_new
          "I'm not sure how to help with that. Could you rephrase your request?"
          None None 0.1
    end.

(** [self.<name>] for a command handler the class body does not define. *)
Definition getattr_command (name : string) : Eff State CommandHandler :=
  match extra_command_handler name with
  | Some h =>
      Eff.ret (fun entities context confidence =>
                 call (CallExtra name) (h entities context confidence))
  | None =>
      Eff.raise
        (AttributeError ("'JarvisCore' object has no attribute '" ++ name ++ "'"))
  end.

(** [JarvisCore._route_command]. Building the [command_handlers] dictionary
    evaluates the six attribute lookups first. *)
Definition _route_command (intent : option string) (entities : Dict)
    (context : Context) (confidence : float) : Eff State JarvisResponse :=
  _handle_entertainment_command <- getattr_command "_handle_entertainment_command" ;;
  _handle_productivity_command <- getattr_command "_handle_productivity_command" ;;
  _handle_personal_command <- getattr_command "_handle_personal_command" ;;
  let command_handlers : gmap string CommandHandler :=
    <[ "automation" := _handle_automation_command ]>
    (<[ "information" := _handle_information_command ]>
    (<[ "system_control" := _handle_system_command ]>
    (<[ "entertainment" := _handle_entertainment_command ]>
    (<[ "productivity" := _handle_productivity_command ]>
    (<[ "personal" := _handle_personal_command ]> ∅))))) in
  let handler :=
    default _handle_unknown_command (intent ≫= (command_handlers !!.)) in
  handler entities context confidence.

(** [JarvisCore._store_interaction]. *)
Definition _store_interaction (command : string) (response : JarvisResponse)
    (source : string) : Eff State unit :=
  t <- datetime_now ;;
  let interaction :=
    {| i_timestamp := t; i_command := command; i_response := text response;
       i_source := source; i_confidence := confidence response |} in
  on_component memory_manager "store_interaction"
    (StoreInteraction interaction) (store_interaction interaction).

(** [JarvisCore._deliver_response]. *)
Definition _deliver_response (response : JarvisResponse) (source : string)
  : Eff State unit :=
  if String.eqb source "voice" then
    on_component speech_engine "speak" (Speak (text response)) (speak (text response))
  else if String.eqb source "web" then
    on_component web_interface "send_response"
      (SendResponse response) (send_response response)
  else Eff.ret tt.

(** The response built in the [except] clause of [process_command]. *)
Definition error_text : string :=
  "I encountered an error processing that command. Please try again.".

(** Steps 1 to 3 of [process_command]: the statements of its [try] block up
    to the assignment of [response]. *)
Definition steps_1_to_3 (command : string) (source : string)
  : Eff State JarvisResponse :=
  log INFO ("🎯 Processing command: '" ++ command ++ "' from " ++ source) ;;
  nlp_result <-
    on_component nlp_processor "analyze" (Analyze command) (analyze command) ;;
  let intent := nlp_intent nlp_result in
  let entities := default ∅ (nlp_entities nlp_result) in
  let confidence := default 0.0%float (nlp_confidence nlp_result) in
  context <- _build_context command intent entities ;;
  _route_command intent entities context confidence.

(** The [try] block of [process_command]: steps 1 to 3, then step 4
    (memory storage), step 5 (response delivery) and [return response]. *)
Definition process_command_try (command : string) (source : string)
  : Eff State JarvisResponse :=
  response <- steps_1_to_3 command source ;;
  _store_interaction command response source ;;
  _deliver_response response source ;;
  Eff.ret response.

(** The [except Exception as e] clause of [process_command]. *)
Definition process_command_except (e : exn) : Eff State JarvisResponse :=
  log ERROR ("Command processing error: " ++ exn_str e) ;;
  JarvisResponse_new error_text None None 0.0.

(** [JarvisCore.process_command]. *)
Definition process_command (command : string) (source : string)
  : Eff State JarvisResponse :=
  Eff.try_except (process_command_try command source) process_command_except.

(** *** The event bus *)

(** [JarvisCore.register_event_handler]. *)
Definition register_event_handler (event_type : string) (handler : Handler)
  : Eff State unit :=
  Eff.modify (with_self (fun e =>
    let handlers :=
      if decide (is_Some (event_handlers e !! event_type)) then event_handlers e
      else <[ event_type := [] ]> (event_handlers e) in
    set_event_handlers
      (<[ event_type := (default [] (handlers !! event_type) ++ [handler])%list ]>
         handlers)
      e)).

(** Awaiting [handler(data)]: the bodies of [_handle_voice_command],
    [_handle_wake_word] and [_handle_web_command], or a callable from
    outside, which acts on the external world only (it registers no handler
    and emits no event itself). Each invocation is recorded first. *)
Definition invoke (handler : Handler) (data : Payload) : Eff State unit :=
  Eff.modify (fun s =>
    {| self := self s; logger := logger s;
       calls := calls s ++ [Invoke handler data]; world := world s |}) ;;
  match handler with
  | _handle_voice_command =>
      let command := default "" (data !! "command") in
      if PyStr.is_empty command then Eff.ret tt
      else process_command command "voice" ;; Eff.ret tt
  | _handle_wake_word =>
      log INFO "👂 Wake word detected" ;;
      on_component speech_engine "play_acknowledgment_sound"
        PlayAcknowledgmentSound play_acknowledgment_sound
  | _handle_web_command =>
      let command := default "" (data !! "command") in
      if PyStr.is_empty command then Eff.ret tt
      else process_command command "web" ;; Eff.ret tt
  | external h =>
      fun s =>
        let '(r, w) := run_external h data (world s) in
        (of_outcome r,
         {| self := self s; logger := logger s; calls := calls s; world := w |})
  end.

(** [JarvisCore.emit_event]; [data or {}] is the empty dictionary for
    [None]. *)
Definition emit_event (event_type : string) (data : option Payload)
  : Eff State unit :=
  registry <- Eff.gets (fun s => event_handlers (self s)) ;;
  match registry !! event_type with
  | Some handlers =>
      Eff.for_each handlers (fun handler =>
        Eff.try_except
          (invoke handler (default ∅ data))
          (fun e => log ERROR ("Event handler error: " ++ exn_str e)))
  | None => Eff.ret tt
  end.

(** [self.<name>] for an event handler the class body does not define. *)
Definition getattr_event (name : string) : Eff State Handler :=
  match extra_event_handler name with
  | Some h => Eff.ret (external h)
  | None =>
      Eff.raise
        (AttributeError ("'JarvisCore' object has no attribute '" ++ name ++ "'"))
  end.

(** [JarvisCore._setup_event_handlers]. *)
Definition _setup_event_handlers : Eff State unit :=
  register_event_handler "voice_command" _handle_voice_command ;;
  register_event_handler "wake_word_detected" _handle_wake_word ;;
  _handle_system_alert <- getattr_event "_handle_system_alert" ;;
  register_event_handler "system_alert" _handle_system_alert ;;
  _handle_automation <- getattr_event "_handle_automation" ;;
  register_event_handler "automation_trigger" _handle_automation ;;
  register_event_handler "web_command" _handle_web_command.

(** *** Lifecycle *)

(** [self.<c> = C()] followed by [await self.<c>.initialize()] (or
    [load_plugins()] for the plugin manager). *)
Definition start_component (c : Component) : Eff State unit :=
  call (Construct c) (construct c) ;;
  Eff.modify (with_self (set_component c)) ;;
  call (Initialize c) (initialize_component c).

(** [JarvisCore.initialize]. *)
Definition initialize : Eff State unit :=
  Eff.try_except
    (log INFO "🔧 Initializing JARVIS components..." ;;
     start_component memory_manager ;;
     start_component nlp_processor ;;
     start_component speech_engine ;;
     start_component automation_engine ;;
     start_component plugin_manager ;;
     start_component web_interface ;;
     _setup_event_handlers ;;
     Eff.modify (with_self (set_is_active true)) ;;
     log INFO "✅ All JARVIS components initialized")
    (fun e =>
       log ERROR ("❌ Component initialization failed: " ++ exn_str e) ;;
       Eff.raise e).

(** [if self.<c>: await self.<c>.shutdown()]. *)
Definition stop_component (c : Component) : Eff State unit :=
  present <- Eff.gets (fun s => component (self s) c) ;;
  if present then call (Shutdown c) (shutdown_component c) else Eff.ret tt.

(** [JarvisCore.shutdown]. *)
Definition shutdown : Eff State unit :=
  log INFO "🔄 Shutting down JARVIS components..." ;;
  Eff.modify (with_self (set_is_active false)) ;;
  stop_component web_interface ;;
  stop_component automation_engine ;;
  stop_component speech_engine ;;
  stop_component nlp_processor ;;
  stop_component memory_manager ;;
  log INFO "✅ JARVIS shutdown complete".

End Core.

Arguments with_self {Time History Prefs Apps External World}.
Arguments set_component {External}.
Arguments set_event_handlers {External}.
Arguments set_is_active {External}.
Arguments log {Time History Prefs Apps External World}.
Arguments call {Time History Prefs Apps External World A}.
Arguments on_component {Time History Prefs Apps External World A}.
Arguments datetime_now {Time History Prefs Apps External World collab}.
Arguments JarvisResponse_new {Time History Prefs Apps External World collab}.
Arguments _get_user_location {Time History Prefs Apps External World}.
Arguments _get_system_status {Time History Prefs Apps External World}.
Arguments _build_context {Time History Prefs Apps External World collab}.
Arguments _handle_automation_command {Time History Prefs Apps External World collab}.
Arguments _get_weather_info {Time History Prefs Apps External World}.
Arguments _get_news_info {Time History Prefs Apps External World}.
Arguments _get_time_info {Time History Prefs Apps External World collab}.
Arguments _get_general_info {Time History Prefs Apps External World}.
Arguments _handle_information_command {Time History Prefs Apps External World collab}.
Arguments _handle_system_command {Time History Prefs Apps External World collab}.
Arguments _handle_unknown_command {Time History Prefs Apps External World collab}.
Arguments getattr_command {Time History Prefs Apps External World collab}.
Arguments _route_command {Time History Prefs Apps External World collab}.
Arguments _store_interaction {Time History Prefs Apps External World collab}.
Arguments _deliver_response {Time History Prefs Apps External World collab}.
Arguments steps_1_to_3 {Time History Prefs Apps External World collab}.
Arguments process_command_try {Time History Prefs Apps External World collab}.
Arguments process_command_except {Time History Prefs Apps External World collab}.
Arguments process_command {Time History Prefs Apps External World collab}.
Arguments register_event_handler {Time History Prefs Apps External World}.
Arguments invoke {Time History Prefs Apps External World collab}.
Arguments emit_event {Time History Prefs Apps External World collab}.
Arguments getattr_event {Time History Prefs Apps External World collab}.
Arguments _setup_event_handlers {Time History Prefs Apps External World collab}.
Arguments start_component {Time History Prefs Apps External World collab}.
Arguments initialize {Time History Prefs Apps External World collab}.
Arguments stop_component {Time History Prefs Apps External World collab}.
Arguments shutdown {Time History Prefs Apps External World collab}.
Arguments mkResponse {Time}.
Arguments text {Time}.
Arguments action {Time}.
Arguments data {Time}.
Arguments confidence {Time}.
Arguments timestamp {Time}.
Arguments mkContext {Time History Prefs Apps}.
Arguments current_time {Time History Prefs Apps}.
Arguments user_location {Time History Prefs Apps}.
Arguments recent_history {Time History Prefs Apps}.
Arguments system_status {Time History Prefs Apps}.
Arguments user_preferences {Time History Prefs Apps}.
Arguments active_applications {Time History Prefs Apps}.
Arguments mkInteraction {Time}.
Arguments i_timestamp {Time}.
Arguments i_command {Time}.
Arguments i_response {Time}.
Arguments i_source {Time}.
Arguments i_confidence {Time}.
Arguments now {Time History Prefs Apps External World Collaborators}.
Arguments strftime_I_M_p {Time History Prefs Apps External World Collaborators}.
Arguments construct {Time History Prefs Apps External World Collaborators}.
Arguments initialize_component {Time History Prefs Apps External World Collaborators}.
Arguments shutdown_component {Time History Prefs Apps External World Collaborators}.
Arguments analyze {Time History Prefs Apps External World Collaborators}.
Arguments get_recent_interactions {Time History Prefs Apps External World Collaborators}.
Arguments get_user_preferences {Time History Prefs Apps External World Collaborators}.
Arguments get_active_apps {Time History Prefs Apps External World Collaborators}.
Arguments execute_automation {Time History Prefs Apps External World Collaborators}.
Arguments execute_system_command {Time History Prefs Apps External World Collaborators}.
Arguments try_plugins {Time History Prefs Apps External World Collaborators}.
Arguments store_interaction {Time History Prefs Apps External World Collaborators}.
Arguments speak {Time History Prefs Apps External World Collaborators}.
Arguments send_response {Time History Prefs Apps External World Collaborators}.
Arguments play_acknowledgment_sound {Time History Prefs Apps External World Collaborators}.
Arguments run_external {Time History Prefs Apps External World Collaborators}.
Arguments extra_command_handler {Time History Prefs Apps External World Collaborators}.
Arguments extra_event_handler {Time History Prefs Apps External World Collaborators}.
Arguments mk {External}.
Arguments component {External}.
Arguments event_handlers {External}.
Arguments is_active {External}.
Arguments mkState {Time History Prefs Apps External World}.
Arguments self {Time History Prefs Apps External World}.
Arguments logger {Time History Prefs Apps External World}.
Arguments calls {Time History Prefs Apps External World}.
Arguments world {Time History Prefs Apps External World}.
Arguments _handle_voice_command {External}.
Arguments _handle_wake_word {External}.
Arguments _handle_web_command {External}.
Arguments external {External}.
Arguments Construct {Time History Prefs Apps External}.
Arguments Initialize {Time History Prefs Apps External}.
Arguments Shutdown {Time History Prefs Apps External}.
Arguments Analyze {Time History Prefs Apps External}.
Arguments GetRecentInteractions {Time History Prefs Apps External}.
Arguments GetUserPreferences {Time History Prefs Apps External}.
Arguments GetActiveApps {Time History Prefs Apps External}.
Arguments ExecuteAutomation {Time History Prefs Apps External}.
Arguments ExecuteSystemCommand {Time History Prefs Apps External}.
Arguments TryPlugins {Time History Prefs Apps External}.
Arguments StoreInteraction {Time History Prefs Apps External}.
Arguments Speak {Time History Prefs Apps External}.
Arguments SendResponse {Time History Prefs Apps External}.
Arguments PlayAcknowledgmentSound {Time History Prefs Apps External}.
Arguments Invoke {Time History Prefs Apps External}.
Arguments CallExtra {Time History Prefs Apps External}.

End JarvisCore.



(** ** [JarvisCore.health_check] *)

Module JarvisCoreHealth.
Import JarvisCore.

Section HealthCheck.
Context {Time History Prefs Apps External World : Type}.

(** What the [health_check] of a component returns; the core reads it for
    its truth value and formats it into the warning. *)
Variable Health : Type.
Variable truth : Health -> bool.
Variable repr : Health -> string.
(** [await self.<c>.health_check()]. *)
Variable component_health_check : Component -> World -> outcome Health * World.

(** The dictionary [health_status], by its keys in insertion order. *)
Record HealthStatus : Type := mkHealth {
  h_jarvis_core : bool;
  h_speech_engine : Health;
  h_nlp_processor : Health;
  h_automation_engine : Health;
  h_memory_manager : Health;
  h_web_interface : Health
}.

(** [all(health_status.values())]. *)
Definition all_values (h : HealthStatus) : bool :=
  h_jarvis_core h && truth (h_speech_engine h) && truth (h_nlp_processor h)
  && truth (h_automation_engine h) && truth (h_memory_manager h)
  && truth (h_web_interface h).

(** [repr] of a [bool]. *)
Definition bool_repr (b : bool) : string := if b then "True" else "False".

(** The dictionary as an f-string formats it. *)
Definition HealthStatus_repr (h : HealthStatus) : string :=
  "{'jarvis_core': " ++ bool_repr (h_jarvis_core h)
  ++ ", 'speech_engine': " ++ repr (h_speech_engine h)
  ++ ", 'nlp_processor': " ++ repr (h_nlp_processor h)
  ++ ", 'automation_engine': " ++ repr (h_automation_engine h)
  ++ ", 'memory_manager': " ++ repr (h_memory_manager h)
  ++ ", 'web_interface': " ++ repr (h_web_interface h) ++ "}".

(** The call recorded for the health check of a component. *)
Definition HealthCheck (c : Component) : Call Time History Prefs Apps External :=
  CallExtra (Component_name c ++ ".health_check").

Definition component_health (c : Component)
  : Eff (State Time History Prefs Apps External World) Health :=
  on_component c "health_check" (HealthCheck c) (component_health_check c).

(** [JarvisCore.health_check]. *)
Definition health_check
  : Eff (State Time History Prefs Apps External World) HealthStatus :=
  jarvis_core <- Eff.gets (fun s => is_active (self s)) ;;
  speech <- component_health speech_engine ;;
  nlp <- component_health nlp_processor ;;
  automation <- component_health automation_engine ;;
  memory <- component_health memory_manager ;;
  web <- component_health web_interface ;;
  let health_status := mkHealth jarvis_core speech nlp automation memory web in
  let all_healthy := all_values health_status in
  (if negb all_healthy then
     log WARNING ("Health check issues detected: " ++ HealthStatus_repr health_status)
   else Eff.ret tt) ;;
  Eff.ret health_status.

End HealthCheck.

Arguments mkHealth {Health}.
Arguments h_jarvis_core {Health}.
Arguments h_speech_engine {Health}.
Arguments h_nlp_processor {Health}.
Arguments h_automation_engine {Health}.
Arguments h_memory_manager {Health}.
Arguments h_web_interface {Health}.
Arguments all_values {Health}.
Arguments HealthStatus_repr {Health}.
Arguments HealthCheck {Time History Prefs Apps External}.
Arguments component_health {Time History Prefs Apps External World Health}.
Arguments health_check {Time History Prefs Apps External World Health}.

End JarvisCoreHealth.



(** ** [JarvisApplication] (src/jarvis_main.py) *)

Module JarvisApplication.
Import JarvisCoreHealth.

(** The signals [_setup_signal_handlers] installs a handler for. *)
Inductive Signal : Type := SIGINT | SIGTERM.

Section Controller.
Context {Time History Prefs Apps External World : Type}.
Context {collab : JarvisCore.Collaborators Time History Prefs Apps External World}.
Variable Health : Type.
Variable truth : Health -> bool.
Variable repr : Health -> string.
Variable component_health_check :
  JarvisCore.Component -> World -> outcome Health * World.
(** [signal.signal(sig, signal_handler)]. *)
Variable signal_signal : Signal -> World -> outcome unit * World.

(** The attributes of the application: whether [jarvis_core] holds a core
    (or [None]), and [running]. *)
Record t : Type := mk {
  jarvis_core : bool;
  running : bool
}.

(** [JarvisApplication.__init__]. *)
Definition __init__ : t := {| jarvis_core := false; running := false |}.

(** The application, its own log, the state of the core it holds (which
    carries the external world), and the pauses taken so far, in seconds. *)
Record State : Type := mkState {
  self : t;
  logger : list LogRecord;
  core : JarvisCore.State Time History Prefs Apps External World;
  slept : list nat
}.

Definition with_core
    (c : JarvisCore.State Time History Prefs Apps External World) (s : State) : State :=
  {| self := self s; logger := logger s; core := c; slept := slept s |}.

(** [self.logger.<lvl>(msg)]. *)
Definition log (lvl : level) (msg : string) : Eff State unit :=
  Eff.modify (fun s =>
    {| self := self s; logger := logger s ++ [(lvl, msg)];
       core := core s; slept := slept s |}).

(** [self.jarvis_core = JarvisCore()]: a core with no component, no
    handler and [is_active] false. *)
Definition new_core : Eff State unit :=
  Eff.modify (fun s =>
    {| self := {| jarvis_core := true; running := running (self s) |};
       logger := logger s;
       core := JarvisCore.mkState (JarvisCore.__init__ External)
                 (JarvisCore.logger (core s)) (JarvisCore.calls (core s))
                 (JarvisCore.world (core s));
       slept := slept s |}).

(** [await self.jarvis_core.<method>(...)]: on [None] the attribute lookup
    of the method raises. *)
Definition on_core {A} (method : string)
    (m : Eff (JarvisCore.State Time History Prefs Apps External World) A)
  : Eff State A :=
  fun s =>
    if jarvis_core (self s) then
      let '(r, c) := m (core s) in (r, with_core c s)
    else
      (Raise (AttributeError
                ("'NoneType' object has no attribute '" ++ method ++ "'")), s).

(** A call that acts on the external world. *)
Definition on_world {A} (f : World -> outcome A * World) : Eff State A :=
  fun s =>
    let '(r, w) := f (JarvisCore.world (core s)) in
    (of_outcome r,
     with_core
       (JarvisCore.mkState (JarvisCore.self (core s)) (JarvisCore.logger (core s))
          (JarvisCore.calls (core s)) w) s).

(** [JarvisApplication._setup_signal_handlers]. *)
Definition _setup_signal_handlers : Eff State unit :=
  on_world (signal_signal SIGINT) ;;
  on_world (signal_signal SIGTERM).

(** [JarvisApplication.initialize]. *)
Definition initialize : Eff State bool :=
  Eff.try_except
    (log INFO "🚀 Initializing JARVIS..." ;;
     new_core ;;
     on_core "initialize" JarvisCore.initialize ;;
     _setup_signal_handlers ;;
     log INFO "✅ JARVIS initialized successfully" ;;
     Eff.ret true)
    (fun e =>
       log ERROR ("❌ Failed to initialize JARVIS: " ++ exn_str e) ;;
       Eff.ret false).

(** [await asyncio.sleep(n)]. *)
Definition sleep (n : nat) : Eff State unit :=
  Eff.modify (fun s =>
    {| self := self s; logger := logger s; core := core s;
       slept := slept s ++ [n] |}).

(** One pass of the loop of [_health_check_loop]. *)
Definition _health_check_loop_body : Eff State unit :=
  Eff.try_except
    (on_core "health_check"
       (health_check truth repr component_health_check) ;;
     sleep 30)
    (fun e => log WARNING ("⚠️ Health check failed: " ++ exn_str e)).

(** [JarvisApplication._health_check_loop], for at most [fuel] passes:
    [Some tt] when the loop ended because [running] is false, [None] when
    it is still going after [fuel] passes. *)
Fixpoint _health_check_loop (fuel : nat) : Eff State (option unit) :=
  match fuel with
  | O => Eff.ret None
  | S fuel' =>
      is_running <- Eff.gets (fun s => running (self s)) ;;
      if is_running then _health_check_loop_body ;; _health_check_loop fuel'
      else Eff.ret (Some tt)
  end.

End Controller.

Arguments State : clear implicits.
Arguments mkState {Time History Prefs Apps External World}.
Arguments self {Time History Prefs Apps External World}.
Arguments logger {Time History Prefs Apps External World}.
Arguments core {Time History Prefs Apps External World}.
Arguments slept {Time History Prefs Apps External World}.
Arguments with_core {Time History Prefs Apps External World}.
Arguments log {Time History Prefs Apps External World}.
Arguments new_core {Time History Prefs Apps External World}.
Arguments on_core {Time History Prefs Apps External World A}.
Arguments on_world {Time History Prefs Apps External World A}.
Arguments _setup_signal_handlers {Time History Prefs Apps External World}.
Arguments initialize {Time History Prefs Apps External World collab}.
Arguments sleep {Time History Prefs Apps External World}.
Arguments _health_check_loop_body {Time History Prefs Apps External World Health}.
Arguments _health_check_loop {Time History Prefs Apps External World Health}.

End JarvisApplication.


(** ** Vocabulary for the properties of the speech engine *)

Module DetectorSpec.
Import SpeechEngine.
Local Open Scope list_scope.

(** The wake phrases that [__init__] configures. *)
Definition phrases : list string := ["jarvis"; "hey jarvis"; "ok jarvis"].

(** A concrete engine to run the methods on: each piece of audio is
    identified with what the recogniser makes of it, callbacks are numbered
    and do nothing, and there is no external world. *)
Definition Heard : Type := outcome string.
Definition recognise (audio : Heard) (language : string) : outcome string := audio.
Definition silent (cb : nat) (payload : Payload) (w : unit) : outcome unit * unit :=
  (Returns tt, w).

(** The engine as [__init__] leaves it (Idle, both queues empty, no
    callbacks), on the processing thread, which has no event loop. *)
Definition fresh : State Heard nat unit :=
  mkState (__init__ Heard nat ∅) [] false [] [] tt.

(** The same engine after the wake phrase alone was heard: Armed. *)
Definition armed : State Heard nat unit :=
  mkState (set_wake_word_detected true (__init__ Heard nat ∅)) [] false [] [] tt.

(** The commands waiting in the command queue. *)
Definition pending {Audio Callback World} (s : State Audio Callback World) : list string :=
  Queue.items (command_queue (self s)).

(** Handling the commands of [cs] one after the other. *)
Fixpoint handle_all {Audio Callback World} (cs : list string)
    (s : State Audio Callback World)
  : State Audio Callback World :=
  match cs with
  | [] => s
  | c :: cs' => handle_all cs' (snd (_handle_command c s))
  end.

(** A listening engine with an [on_listening_stop] callback. *)
Definition listening : State Heard nat unit :=
  mkState
    (mk true false ∅ (Queue.new 0) (Queue.new 0)
        ["jarvis"; "hey jarvis"; "ok jarvis"] None None None (Some 7%nat))
    [] false [] [] tt.

End DetectorSpec.



(** ** Vocabulary for single utterances *)

Module UtteranceSpec.
Import SpeechEngine DetectorSpec.
Local Open Scope list_scope.

(** What an utterance must leave alone: the listening flag, the voice
    configuration, the audio queue, the wake phrases, the four callbacks and
    the bound of the command queue. *)
Definition settings {Audio Callback} (e : SpeechEngine.t Audio Callback) :=
  (is_listening e, voice_config e, audio_queue e, wake_words e,
   (on_wake_word e, on_command e, on_listening_start e, on_listening_stop e),
   Queue.maxsize (command_queue e)).

(** The language the next recognition asks for. *)
Definition language {Audio Callback} (e : SpeechEngine.t Audio Callback) : string :=
  default "en-US" (voice_config e !! "language").


(** An Idle engine with an [on_wake_word] callback, on a thread without an
    event loop. *)
Definition idle_with_on_wake_word : State Heard nat unit :=
  mkState
    (mk false false ∅ (Queue.new 0) (Queue.new 0)
        ["jarvis"; "hey jarvis"; "ok jarvis"] (Some 5%nat) None None None)
    [] false [] [] tt.

(** A fresh engine with three pieces of audio waiting: the wake phrase,
    noise, and a command. *)
Definition with_audio : State Heard nat unit :=
  mkState
    (mk false false ∅
        (Queue.mk 0 [Returns "Hey Jarvis"; Raises UnknownValueError;
                     Returns "Turn on the lights"])
        (Queue.new 0) ["jarvis"; "hey jarvis"; "ok jarvis"] None None None None)
    [] false [] [] tt.

(** An engine that does not listen yet, with an [on_listening_start]
    callback. *)
Definition with_on_listening_start : State Heard nat unit :=
  mkState
    (mk false false ∅ (Queue.new 0) (Queue.new 0)
        ["jarvis"; "hey jarvis"; "ok jarvis"] None None (Some 9%nat) None)
    [] false [] [] tt.

End UtteranceSpec.



(** ** Vocabulary for capture and voice configuration *)

Module SpeechEngineIOSpec.
Import SpeechEngine SpeechEngineIO DetectorSpec.
Local Open Scope list_scope.

Section Listens.
Context {Audio World : Type}.
Variable listen : World -> capture Audio * World.

(** What [n] calls of [listen] in a row give, and the world after them. *)
Fixpoint listens (n : nat) (w : World) : list (capture Audio) * World :=
  match n with
  | O => ([], w)
  | S n' =>
      let '(c, w1) := listen w in
      let '(cs, w2) := listens n' w1 in
      (c :: cs, w2)
  end.
End Listens.

(** The audio among the outcomes of listening, in order. *)
Fixpoint captured {Audio} (cs : list (capture Audio)) : list Audio :=
  match cs with
  | [] => []
  | Captured audio :: cs' => audio :: captured cs'
  | _ :: cs' => captured cs'
  end.

(** The log records for the outcomes of listening: one per failure that is
    not a timeout. *)
Fixpoint capture_log {Audio} (cs : list (capture Audio)) : list LogRecord :=
  match cs with
  | [] => []
  | CaptureError e :: cs' =>
      (ERROR, "Audio capture error: " ++ exn_str e)%string :: capture_log cs'
  | _ :: cs' => capture_log cs'
  end.

(** A microphone that reads its outcomes off a script, and stays silent
    when the script is over. *)
Definition scripted (w : list (capture Heard)) : capture Heard * list (capture Heard) :=
  match w with
  | [] => (WaitTimeoutError, [])
  | c :: w' => (c, w')
  end.

(** A listening engine in front of a microphone that times out, captures
    two utterances around a device error, and is silent afterwards. *)
Definition at_microphone : State Heard nat (list (capture Heard)) :=
  mkState
    (mk true false ∅ (Queue.new 0) (Queue.new 0)
        ["jarvis"; "hey jarvis"; "ok jarvis"] None None None None)
    [] false [] []
    [WaitTimeoutError; Captured (Returns "Hey Jarvis");
     CaptureError (OtherError "device busy"); Captured (Returns "lights on")].

(** A TTS engine that accepts every property but the rate. *)
Definition no_rate (name value : string) (w : unit) : outcome unit * unit :=
  if String.eqb name "rate" then (Raises (OtherError "invalid rate"), w)
  else (Returns tt, w).

(** Callbacks and TTS calls that raise. *)
Definition failing_callback (cb : nat) (payload : Payload) (w : unit)
  : outcome unit * unit := (Raises (OtherError "callback failed"), w).
Definition failing_stop (w : unit) : outcome unit * unit :=
  (Raises (OtherError "engine busy"), w).

End SpeechEngineIOSpec.


(** ** Vocabulary for the properties of the command core *)

Module CoreSpec.
Import JarvisCore.
Local Open Scope list_scope.

Section Vocabulary.
Context {Time History Prefs Apps External World : Type}.
Context {collab : Collaborators Time History Prefs Apps External World}.

(** The handler invocations in a trace of calls, in order. *)
Fixpoint invocations (cs : list (Call Time History Prefs Apps External))
  : list (Handler External * Payload) :=
  match cs with
  | [] => []
  | Invoke h p :: cs' => (h, p) :: invocations cs'
  | _ :: cs' => invocations cs'
  end.

Definition is_invoke (c : Call Time History Prefs Apps External) : bool :=
  match c with
  | Invoke _ _ => true
  | _ => false
  end.

(** A computation is quiet when it returns or raises (it never waits for
    ever), leaves the attributes of [self] as they are, and invokes no
    event handler. *)
Definition quiet {A} (m : Eff (State Time History Prefs Apps External World) A) : Prop :=
  forall s,
    fst (m s) <> Blocks /\
    self (snd (m s)) = self s /\
    invocations (calls (snd (m s))) = invocations (calls s).

(** A command handler is quiet when it is on all arguments. *)
Definition quiet_handler
    (h : CommandHandler Time History Prefs Apps External World) : Prop :=
  forall entities context confidence, quiet (h entities context confidence).

(** The handlers registered for an event type, in registration order. *)
Definition registered (s : State Time History Prefs Apps External World)
    (event_type : string) : list (Handler External) :=
  default [] (event_handlers (self s) !! event_type).

(** Awaiting the outside handlers [xs] one after the other with the payload
    [d]: how each ended, and the world after the last. Each handler acts on
    the world that the one before it left, whether that one returned or
    raised. *)
Fixpoint run_externals (xs : list External) (d : Payload) (w : World)
  : list (outcome unit) * World :=
  match xs with
  | [] => ([], w)
  | x :: xs' =>
      let '(r, w1) := run_external x d w in
      let '(rs, w2) := run_externals xs' d w1 in
      (r :: rs, w2)
  end.

(** One error record for each handler that raised, in order. *)
Fixpoint handler_errors (rs : list (outcome unit)) : list LogRecord :=
  match rs with
  | [] => []
  | Raises e :: rs' =>
      (ERROR, "Event handler error: " ++ exn_str e)%string :: handler_errors rs'
  | Returns _ :: rs' => handler_errors rs'
  end.

(** The order in which [initialize] starts the components, and the calls
    this makes when none fails. *)
Definition init_order : list Component :=
  [memory_manager; nlp_processor; speech_engine; automation_engine;
   plugin_manager; web_interface].

Definition start_calls (cs : list Component)
  : list (Call Time History Prefs Apps External) :=
  flat_map (fun c => [Construct c; Initialize c]) cs.

(** The order in which [shutdown] stops them. *)
Definition shutdown_order : list Component :=
  [web_interface; automation_engine; speech_engine; nlp_processor;
   memory_manager].

(** The components that a trace of calls shuts down, in order, the plugin
    manager left aside. *)
Fixpoint shut_down (cs : list (Call Time History Prefs Apps External))
  : list Component :=
  match cs with
  | [] => []
  | Shutdown c :: cs' =>
      if Component_eqb c plugin_manager then shut_down cs' else c :: shut_down cs'
  | _ :: cs' => shut_down cs'
  end.

Definition start_all (cs : list Component)
  : Eff (State Time History Prefs Apps External World) unit :=
  Eff.for_each cs start_component.

Definition stop_all (cs : list Component)
  : Eff (State Time History Prefs Apps External World) unit :=
  Eff.for_each cs stop_component.

End Vocabulary.

(** The intents that [_route_command] has a handler for. *)
Definition handler_intents : list string :=
  ["automation"; "information"; "system_control"; "entertainment";
   "productivity"; "personal"].

(** [intent] is [None] or a string outside [handler_intents]. *)
Definition unmapped (intent : option string) : Prop :=
  forall i, intent = Some i -> i ∉ handler_intents.

Definition fallback_text : string :=
  "I'm not sure how to help with that. Could you rephrase your request?".

(** Collaborators to run the core on. The world is a clock that
    [datetime.now()] reads and advances; the analysis finds the intent
    "xyz" in every command; no plugin answers; the outside handler number 2
    raises, the others return. [extras] says whether the instance supplies
    the attributes that the class body leaves undefined, [store_ok] whether
    the memory manager stores, and [shutdown_ok] which components shut down
    without raising. *)
Definition collaborators (extras store_ok : bool) (shutdown_ok : Component -> bool)
  : Collaborators nat unit unit unit nat nat :=
  {| now := fun w => (w, S w);
     strftime_I_M_p := fun _ => "09:30 AM";
     construct := fun _ w => (Returns tt, w);
     initialize_component := fun _ w => (Returns tt, w);
     shutdown_component := fun c w =>
       if shutdown_ok c then (Returns tt, w)
       else (Raises (OtherError (Component_name c ++ " shutdown failed")%string), w);
     analyze := fun _ w => (Returns (mkNlp (Some "xyz") None (Some 0.9%float)), w);
     get_recent_interactions := fun _ w => (Returns tt, w);
     get_user_preferences := fun w => (Returns tt, w);
     get_active_apps := fun w => (Returns tt, w);
     execute_automation := fun _ _ _ w => (Returns ∅, w);
     execute_system_command := fun _ _ w => (Returns ∅, w);
     try_plugins := fun _ _ w => (Returns None, w);
     store_interaction := fun _ w =>
       if store_ok then (Returns tt, w) else (Raises (OtherError "database is locked"), w);
     speak := fun _ w => (Returns tt, w);
     send_response := fun _ w => (Returns tt, w);
     play_acknowledgment_sound := fun w => (Returns tt, w);
     run_external := fun h _ w =>
       if (h =? 2)%nat then (Raises (OtherError "handler failed"), w)
       else (Returns tt, w);
     extra_command_handler := fun name =>
       if extras
       then Some (fun _ _ conf w => (Returns (mkResponse name None None conf w), w))
       else None;
     extra_event_handler := fun _ => if extras then Some 0%nat else None |}.

(** A plain [JarvisCore()]: the class body as it is in the source. *)
Definition plain := collaborators false true (fun _ => true).
(** An instance that supplies the undefined handlers. *)
Definition supplied := collaborators true true (fun _ => true).
(** The same with a memory manager that fails to store. *)
Definition failing_store := collaborators true false (fun _ => true).
(** The same with a web interface that fails to shut down. *)
Definition failing_web :=
  collaborators true true (fun c => negb (Component_eqb c web_interface)).

(** The collaborators of [supplied], with outside handlers that leave a
    trace: handler number [h] appends the digit [h] to the world, also the
    one that raises. *)
Definition tracing : Collaborators nat unit unit unit nat nat :=
  {| now := now (Collaborators := supplied);
     strftime_I_M_p := strftime_I_M_p (Collaborators := supplied);
     construct := construct (Collaborators := supplied);
     initialize_component := initialize_component (Collaborators := supplied);
     shutdown_component := shutdown_component (Collaborators := supplied);
     analyze := analyze (Collaborators := supplied);
     get_recent_interactions := get_recent_interactions (Collaborators := supplied);
     get_user_preferences := get_user_preferences (Collaborators := supplied);
     get_active_apps := get_active_apps (Collaborators := supplied);
     execute_automation := execute_automation (Collaborators := supplied);
     execute_system_command := execute_system_command (Collaborators := supplied);
     try_plugins := try_plugins (Collaborators := supplied);
     store_interaction := store_interaction (Collaborators := supplied);
     speak := speak (Collaborators := supplied);
     send_response := send_response (Collaborators := supplied);
     play_acknowledgment_sound := play_acknowledgment_sound (Collaborators := supplied);
     run_external := fun h _ w =>
       (if (h =? 2)%nat then Raises (OtherError "handler failed") else Returns tt,
        (10 * w + h)%nat);
     extra_command_handler := extra_command_handler (Collaborators := supplied);
     extra_event_handler := extra_event_handler (Collaborators := supplied) |}.

(** The core with its six components created, nothing logged or called. *)
Definition running : State nat unit unit unit nat nat :=
  mkState (mk (fun _ => true) ∅ true) [] [] 0%nat.

(** The same, with three outside handlers on "voice_command". *)
Definition three_handlers : State nat unit unit unit nat nat :=
  mkState
    (mk (fun _ => true)
        {[ "voice_command" := [external 1%nat; external 2%nat; external 3%nat] ]}
        true)
    [] [] 0%nat.

End CoreSpec.



(** ** Vocabulary for the traces of the dispatch pipeline *)

Module DispatchSpec.
Import JarvisCore CoreSpec.
Local Open Scope list_scope.

Section Traces.
Context {Time History Prefs Apps External World : Type}.
Context {collab : Collaborators Time History Prefs Apps External World}.

(** The calls of steps 4 and 5 of [process_command]: storing the
    interaction and delivering the response. *)
Definition late_call (c : Call Time History Prefs Apps External) : bool :=
  match c with
  | StoreInteraction _ | Speak _ | SendResponse _ => true
  | _ => false
  end.

(** A computation adds calls of kind [P] when all it does to the trace of
    calls is to append calls that satisfy [P]. *)
Definition adds (P : Call Time History Prefs Apps External -> Prop) {A}
    (m : Eff (State Time History Prefs Apps External World) A) : Prop :=
  forall s, exists l, calls (snd (m s)) = calls s ++ l /\ Forall P l.

(** A command handler does when it does on all arguments. *)
Definition adds_handler (P : Call Time History Prefs Apps External -> Prop)
    (h : CommandHandler Time History Prefs Apps External World) : Prop :=
  forall entities context confidence, adds P (h entities context confidence).

(** The delivery call that belongs to a source. *)
Definition delivered (r : JarvisResponse Time) (source : string)
  : list (Call Time History Prefs Apps External) :=
  if String.eqb source "voice" then [Speak (text r)]
  else if String.eqb source "web" then [SendResponse r]
  else [].

End Traces.

(** The intents whose handlers the class body defines. *)
Definition defined_intents : list string :=
  ["automation"; "information"; "system_control"].

(** The text a defined handler falls back to, and the key of the result it
    reads the text from. *)
Definition default_text (intent : string) : string :=
  if String.eqb intent "automation" then "Automation executed successfully"
  else if String.eqb intent "information" then "Here's what I found"
  else "System command executed".

Definition text_key (intent : string) : string :=
  if String.eqb intent "information" then "text" else "message".

(** The collaborators of [supplied], with an analysis that finds the given
    intent and entities and no confidence, and an automation engine that
    answers with a message. *)
Definition analysing (intent : option string) (entities : option Dict)
  : Collaborators nat unit unit unit nat nat :=
  {| now := now (Collaborators := supplied);
     strftime_I_M_p := strftime_I_M_p (Collaborators := supplied);
     construct := construct (Collaborators := supplied);
     initialize_component := initialize_component (Collaborators := supplied);
     shutdown_component := shutdown_component (Collaborators := supplied);
     analyze := fun _ w => (Returns (mkNlp intent entities None), w);
     get_recent_interactions := get_recent_interactions (Collaborators := supplied);
     get_user_preferences := get_user_preferences (Collaborators := supplied);
     get_active_apps := get_active_apps (Collaborators := supplied);
     execute_automation := fun _ _ _ w => (Returns {[ "message" := "Lights on" ]}, w);
     execute_system_command := execute_system_command (Collaborators := supplied);
     try_plugins := try_plugins (Collaborators := supplied);
     store_interaction := store_interaction (Collaborators := supplied);
     speak := speak (Collaborators := supplied);
     send_response := send_response (Collaborators := supplied);
     play_acknowledgment_sound := play_acknowledgment_sound (Collaborators := supplied);
     run_external := run_external (Collaborators := supplied);
     extra_command_handler := extra_command_handler (Collaborators := supplied);
     extra_event_handler := extra_event_handler (Collaborators := supplied) |}.

End DispatchSpec.



(** ** Vocabulary for the health check *)

Module HealthSpec.
Import JarvisCore.
Local Open Scope list_scope.

(** The components [health_check] asks, in the order it asks them. *)
Definition checked : list Component :=
  [speech_engine; nlp_processor; automation_engine; memory_manager; web_interface].

End HealthSpec.



(** ** Instances to run the lifecycle, the health check and the application on *)

Module LifecycleSpec.
Import JarvisCore CoreSpec.
Local Open Scope list_scope.

(** A core as [JarvisCore()] leaves it: no component, no handler. *)
Definition created : State nat unit unit unit nat nat :=
  mkState (JarvisCore.__init__ nat) [] [] 0%nat.

(** The collaborators of [supplied], with one component whose [initialize]
    raises. *)
Definition failing_start (broken : Component)
  : Collaborators nat unit unit unit nat nat :=
  {| now := now (Collaborators := supplied);
     strftime_I_M_p := strftime_I_M_p (Collaborators := supplied);
     construct := construct (Collaborators := supplied);
     initialize_component := fun c w =>
       if Component_eqb c broken
       then (Raises (OtherError (Component_name c ++ " is not available")%string), w)
       else (Returns tt, w);
     shutdown_component := shutdown_component (Collaborators := supplied);
     analyze := analyze (Collaborators := supplied);
     get_recent_interactions := get_recent_interactions (Collaborators := supplied);
     get_user_preferences := get_user_preferences (Collaborators := supplied);
     get_active_apps := get_active_apps (Collaborators := supplied);
     execute_automation := execute_automation (Collaborators := supplied);
     execute_system_command := execute_system_command (Collaborators := supplied);
     try_plugins := try_plugins (Collaborators := supplied);
     store_interaction := store_interaction (Collaborators := supplied);
     speak := speak (Collaborators := supplied);
     send_response := send_response (Collaborators := supplied);
     play_acknowledgment_sound := play_acknowledgment_sound (Collaborators := supplied);
     run_external := run_external (Collaborators := supplied);
     extra_command_handler := extra_command_handler (Collaborators := supplied);
     extra_event_handler := extra_event_handler (Collaborators := supplied) |}.

(** A core with the class's own wake-word handler registered and no speech
    engine. *)
Definition without_speech_engine : State nat unit unit unit nat nat :=
  mkState
    (mk (fun c => negb (Component_eqb c speech_engine))
        {[ "wake_word_detected" := [_handle_wake_word] ]} true)
    [] [] 0%nat.

(** Health checks that answer with a truth value: every component is
    healthy but the one given. *)
Definition all_but (sick : Component) (c : Component) (w : nat)
  : outcome bool * nat :=
  (Returns (negb (Component_eqb c sick)), w).

(** A signal module that installs every handler. *)
Definition installs (sig : JarvisApplication.Signal) (w : nat) : outcome unit * nat :=
  (Returns tt, w).

(** The application as [JarvisApplication()] leaves it, and the same while
    running. *)
Definition fresh_application : JarvisApplication.State nat unit unit unit nat nat :=
  JarvisApplication.mkState JarvisApplication.__init__ [] created [].

Definition running_application : JarvisApplication.State nat unit unit unit nat nat :=
  JarvisApplication.mkState (JarvisApplication.mk false true) [] created [].

End LifecycleSpec.


(** ** The string operations on the utterances of the specification *)

Example lower_demo : PyStr.lower "Hey JARVIS, Lights!" = "hey jarvis, lights!".
Proof. reflexivity. Qed.

Example split1_demo :
  PyStr.split1 "jarvis" "hey jarvis what time is it" = ["hey "; " what time is it"].
Proof. reflexivity. Qed.

Example strip_demo : PyStr.strip "  what time  is it  " = "what time  is it".
Proof. reflexivity. Qed.

(** Outside ASCII: two characters in four bytes, and a no-break space
    (U+00A0, the bytes 194 160) and an em space (U+2003, the bytes 226 128
    131) around a word. *)
Example len_demo : PyStr.len "éé" = 2%nat /\ String.length "éé" = 4%nat.
Proof. split; reflexivity. Qed.

Example chars_demo : PyStr.chars "né à" = ["n"; "é"; " "; "à"].
Proof. reflexivity. Qed.

Example strip_space_demo :
  PyStr.strip (String "194" (String "160" ("été" ++ String "226" (String "128" (String "131" " ")))))
  = "été".
Proof. reflexivity. Qed.


(** ** Facts about the string operations *)

Module PyStrFacts.
Import PyStr.

#[local] Arguments String.append !_ _ / : simpl nomatch.
#[local] Arguments String.length !_ / : simpl nomatch.

Lemma length_app (a b : string) :
  String.length (a ++ b) = (String.length a + String.length b)%nat.
Proof. induction a as [|c a IH]; simpl; [reflexivity | now f_equal]. Qed.

Lemma app_assoc (a b c : string) : (a ++ b) ++ c = a ++ b ++ c.
Proof. induction a as [|x a IH]; simpl; [reflexivity | now f_equal]. Qed.

Lemma prefix_cons (c d : ascii) (a s : string) :
  String.prefix (String c a) (String d s)
  = if ascii_dec c d then String.prefix a s else false.
Proof. reflexivity. Qed.

Lemma prefix_iff (a s : string) :
  String.prefix a s = true <-> exists q, s = a ++ q.
Proof.
  revert s; induction a as [|c a IH]; intros s.
  - split; [intros _; now exists s | now destruct s].
  - destruct s as [|d s].
    + split; [discriminate | intros [q Hq]; discriminate].
    + rewrite prefix_cons. destruct (ascii_dec c d) as [->|Hne].
      * rewrite IH. split; intros [q Hq]; exists q; simpl in *; congruence.
      * split; [discriminate | intros [q Hq]; simpl in Hq; congruence].
Qed.

Lemma drop_length_app (a q : string) : drop (String.length a) (a ++ q) = q.
Proof. induction a as [|c a IH]; simpl; [now destruct q | exact IH]. Qed.

Lemma contains_nil (sub : string) : contains sub "" = String.prefix sub "".
Proof. unfold contains. now destruct (String.prefix sub ""). Qed.

Lemma contains_cons (sub : string) (c : ascii) (s : string) :
  contains sub (String c s)
  = if String.prefix sub (String c s) then true else contains sub s.
Proof. reflexivity. Qed.

Lemma contains_iff (sub s : string) :
  contains sub s = true <-> exists p q, s = p ++ sub ++ q.
Proof.
  induction s as [|c s IH].
  - rewrite contains_nil, prefix_iff. split.
    + intros [q Hq]. now exists "", q.
    + intros (p & q & H). destruct p; [eauto | discriminate].
  - rewrite contains_cons.
    destruct (String.prefix sub (String c s)) eqn:Hp.
    + split; [intros _ | reflexivity].
      apply prefix_iff in Hp as [q Hq]. now exists "", q.
    + rewrite IH. split.
      * intros (p & q & ->). now exists (String c p), q.
      * intros (p & q & H). destruct p as [|d p]; simpl in H.
        -- assert (String.prefix sub (String c s) = true)
             by (apply prefix_iff; eauto).
           congruence.
        -- injection H as _ ->. eauto.
Qed.

(** Substrings compose: a phrase that contains [a] occurs only where [a]
    occurs. *)
Lemma contains_trans (a b s : string) :
  contains a b = true -> contains b s = true -> contains a s = true.
Proof.
  rewrite !contains_iff. intros (p & q & ->) (p' & q' & ->).
  exists (p' ++ p), (q ++ q'). now rewrite !app_assoc.
Qed.

Lemma partition_nil (sep : string) :
  partition sep "" =
  if String.prefix sep "" then Some ("", drop (String.length sep) "") else None.
Proof. reflexivity. Qed.

Lemma partition_cons (sep : string) (c : ascii) (s : string) :
  partition sep (String c s) =
  if String.prefix sep (String c s)
  then Some ("", drop (String.length sep) (String c s))
  else match partition sep s with
       | Some (b, a) => Some (String c b, a)
       | None => None
       end.
Proof. reflexivity. Qed.

Lemma partition_prefix (sep s : string) :
  String.prefix sep s = true ->
  s = "" ++ sep ++ drop (String.length sep) s.
Proof.
  intros Hp. apply prefix_iff in Hp as [q Hq].
  rewrite Hq at 2. now rewrite drop_length_app.
Qed.

(** [partition] finds an occurrence, and the leftmost one. *)
Lemma partition_Some (sep s b a : string) :
  partition sep s = Some (b, a) ->
  s = b ++ sep ++ a /\
  forall p q, s = p ++ sep ++ q -> (String.length b <= String.length p)%nat.
Proof.
  revert b a; induction s as [|c s IH]; intros b a.
  - rewrite partition_nil. destruct (String.prefix sep "") eqn:Hp; [|discriminate].
    intros [= <- <-]. split; [now apply partition_prefix | intros; simpl; lia].
  - rewrite partition_cons.
    destruct (String.prefix sep (String c s)) eqn:Hp.
    + intros [= <- <-].
      split; [now apply partition_prefix | intros; simpl; lia].
    + destruct (partition sep s) as [[b' a']|] eqn:Hs; [|discriminate].
      intros [= <- <-]. destruct (IH _ _ eq_refl) as [-> Hmin].
      split; [reflexivity|].
      intros p q H. destruct p as [|d p]; simpl in H.
      * assert (String.prefix sep (String c (b' ++ sep ++ a')) = true)
          by (apply prefix_iff; eauto).
        congruence.
      * injection H as _ H. simpl. specialize (Hmin _ _ H). lia.
Qed.

Lemma partition_None (sep s : string) :
  partition sep s = None -> contains sep s = false.
Proof.
  induction s as [|c s IH].
  - rewrite partition_nil, contains_nil. now destruct (String.prefix sep "").
  - rewrite partition_cons, contains_cons.
    destruct (String.prefix sep (String c s)); [discriminate|].
    destruct (partition sep s) as [[? ?]|]; [discriminate | auto].
Qed.

(** Two ways of cutting one string: the later cut leaves a suffix of what
    the earlier cut leaves. *)
Lemma app_eq_suffix (u a v q : string) :
  u ++ a = v ++ q -> (String.length u <= String.length v)%nat ->
  exists x, a = x ++ q.
Proof.
  revert v; induction u as [|c u IH]; intros v H Hlen; simpl in *.
  - now exists v.
  - destruct v as [|d v]; simpl in *; [lia|].
    injection H as _ H. apply (IH v H). lia.
Qed.

(** *** Characters *)

Lemma chars_nil (s : string) : chars s = [] -> s = "".
Proof.
  destruct s as [|c s]; [reflexivity|]. cbn [chars].
  destruct (chars s); [discriminate|]. destruct (starts_cont s); discriminate.
Qed.

(** A byte in front of a character boundary is a character of its own. *)
Lemma chars_cons_head (c : ascii) (s : string) :
  starts_cont s = false -> chars (String c s) = String c "" :: chars s.
Proof. intros H. cbn [chars]. rewrite H. now destruct (chars s). Qed.

(** The characters of a text cut at a character boundary are those of its
    two parts. *)
Lemma chars_app (x s : string) :
  starts_cont s = false -> chars (x ++ s) = (chars x ++ chars s)%list.
Proof.
  intros Hs. induction x as [|c x IH]; [reflexivity|].
  change (String c x ++ s) with (String c (x ++ s)). cbn [chars]. rewrite IH.
  destruct x as [|d x].
  - cbn. rewrite Hs. now destruct (chars s).
  - change (starts_cont (String d x ++ s)) with (is_cont d).
    change (starts_cont (String d x)) with (is_cont d).
    destruct (chars (String d x)) as [|k ks] eqn:E;
      [apply chars_nil in E; discriminate E|].
    cbn. now destruct (is_cont d).
Qed.

Lemma len_app (a b : string) : len (a ++ b) = (len a + len b)%nat.
Proof.
  induction a as [|c a IH]; [reflexivity|].
  change (String c a ++ b) with (String c (a ++ b)). cbn [len].
  rewrite IH. now destruct (is_cont c).
Qed.

Lemma join_app (l1 l2 : list string) : join (l1 ++ l2)%list = join l1 ++ join l2.
Proof.
  induction l1 as [|k l1 IH]; [reflexivity|].
  cbn [join fold_right app]. fold (join (l1 ++ l2)%list). fold (join l1).
  now rewrite IH, app_assoc.
Qed.

(** Stripping stops at a character that is not whitespace. *)
Lemma lstrip_chars_keeps (l1 l2 : list string) (m : string) :
  is_space m = false ->
  exists l1', lstrip_chars (l1 ++ m :: l2)%list = (l1' ++ m :: l2)%list.
Proof.
  intros Hm. induction l1 as [|k l1 IH].
  - exists []. cbn. now rewrite Hm.
  - cbn [app lstrip_chars]. destruct (is_space k); [exact IH|].
    now exists (k :: l1).
Qed.

Lemma rstrip_chars_keeps (l1 l2 : list string) (m : string) :
  is_space m = false ->
  exists l2', rstrip_chars (l1 ++ m :: l2)%list = (l1 ++ m :: l2')%list.
Proof.
  intros Hm. unfold rstrip_chars.
  rewrite rev_app_distr. cbn [rev]. rewrite <- List.app_assoc. cbn [app].
  destruct (lstrip_chars_keeps (rev l2) (rev l1) m Hm) as [l' ->].
  exists (rev l'). rewrite rev_app_distr. cbn [rev].
  now rewrite rev_involutive, <- List.app_assoc.
Qed.

(** A word between two boundaries survives [strip], so what is left has at
    least the characters of the word. *)
Lemma strip_keeps_jarvis (y q : string) :
  (2 < len (strip (y ++ "jarvis" ++ q)))%nat.
Proof.
  unfold strip.
  rewrite chars_app by reflexivity.
  change ("jarvis" ++ q) with
    (String "j" (String "a" (String "r" (String "v" (String "i" (String "s" q)))))).
  rewrite !chars_cons_head by reflexivity.
  set (rest := chars (String "s" q)).
  destruct (lstrip_chars_keeps (chars y) ("a" :: "r" :: "v" :: "i" :: rest) "j" eq_refl)
    as [l1 ->].
  change (l1 ++ "j" :: "a" :: "r" :: "v" :: "i" :: rest)%list
    with (l1 ++ ("j" :: "a" :: "r" :: "v" :: []) ++ "i" :: rest)%list.
  rewrite (List.app_assoc l1 ("j" :: "a" :: "r" :: "v" :: []) ("i" :: rest)).
  destruct (rstrip_chars_keeps (l1 ++ "j" :: "a" :: "r" :: "v" :: [])%list rest "i" eq_refl)
    as [l2 ->].
  rewrite !join_app, !len_app.
  change (join ("i" :: l2)) with ("i" ++ join l2). rewrite len_app.
  change (len (join ("j" :: "a" :: "r" :: "v" :: []))) with 4%nat.
  change (len "i") with 1%nat. lia.
Qed.

(** The word "jarvis" does not overlap itself: a second occurrence starts
    where the first starts, or behind its end. *)
Lemma jarvis_again (a x a' : string) :
  "jarvis" ++ a = x ++ "jarvis" ++ a' ->
  (x = "" /\ a = a') \/ exists y, a = y ++ "jarvis" ++ a'.
Proof.
  intros H.
  destruct x as [|c1 x]; [left; simpl in H; injection H as ->; auto|].
  right. simpl in H. injection H as _ H.
  do 5 (destruct x as [|? x]; simpl in H; [discriminate H | injection H as _ H]).
  now exists x.
Qed.

(** The text after the first occurrence of [sep], as
    [text.split(sep, 1)[-1]] computes it. *)
Lemma last_split1 (sep s b a : string) :
  partition sep s = Some (b, a) -> last_item (split1 sep s) = a.
Proof. intros H. unfold split1. now rewrite H. Qed.

End PyStrFacts.


(** ** The wake-word detector *)

Module WakeWord.
Import PyStr PyStrFacts SpeechEngine DetectorSpec.

Lemma contains_partition (sep s : string) :
  contains sep s = true -> exists b a, partition sep s = Some (b, a).
Proof.
  intros H. destruct (partition sep s) as [[b a]|] eqn:E; [eauto|].
  apply partition_None in E. congruence.
Qed.

(** Every configured phrase ends in "jarvis", so a later phrase of the list
    cuts the text where "jarvis" does, or behind an occurrence of "jarvis"
    that the first cut leaves in the residual. *)
Lemma later_phrase_residual (pre text b a b' a' : string) :
  partition "jarvis" text = Some (b, a) ->
  partition (pre ++ "jarvis") text = Some (b', a') ->
  a' = a \/ (2 < len (strip a))%nat.
Proof.
  intros H1 H2.
  apply partition_Some in H1 as [E1 Hmin], H2 as [E2 _].
  assert (E : b ++ ("jarvis" ++ a) = (b' ++ pre) ++ ("jarvis" ++ a')).
  { rewrite <- E1. rewrite E2 at 1. now rewrite !app_assoc. }
  assert (Hb : (String.length b <= String.length (b' ++ pre))%nat).
  { apply (Hmin (b' ++ pre) a'). rewrite E2 at 1. now rewrite !app_assoc. }
  destruct (app_eq_suffix _ _ _ _ E Hb) as [x Hx].
  destruct (jarvis_again _ _ _ Hx) as [[_ ->]|[y ->]]; [now left|].
  right. apply strip_keeps_jarvis.
Qed.

Lemma contains_jarvis (text : string) :
  existsb (fun w => contains w text) phrases = true ->
  contains "jarvis" text = true.
Proof.
  unfold phrases. cbn [existsb]. rewrite !orb_true_iff.
  intros [H|[H|[H|H]]]; [exact H | | | discriminate];
    (eapply contains_trans; [|exact H]); reflexivity.
Qed.

(** The loop of [_extract_command_from_wake_phrase] over the configured
    phrases is decided by its first pass. *)
Lemma extract_loop_phrases (text b a : string) :
  partition "jarvis" text = Some (b, a) ->
  extract_loop phrases text =
  if (2 <? len (strip a))%nat then Some (strip a) else None.
Proof.
  intros Hp.
  assert (HJ : contains "jarvis" text = true).
  { destruct (contains "jarvis" text) eqn:E; [reflexivity|].
    apply partition_Some in Hp as [-> _].
    assert (contains "jarvis" (b ++ "jarvis" ++ a) = true)
      by (apply contains_iff; eauto).
    congruence. }
  unfold phrases. cbn [extract_loop]. rewrite HJ.
  rewrite (last_split1 _ _ _ _ Hp).
  destruct (2 <? len (strip a))%nat eqn:Hlen; [reflexivity|].
  apply Nat.ltb_ge in Hlen.
  assert (Hlater : forall pre,
    (if contains (pre ++ "jarvis") text
     then
       let command := strip (last_item (split1 (pre ++ "jarvis") text)) in
       if (2 <? len command)%nat then Some command else None
     else None) = None).
  { intros pre. destruct (contains (pre ++ "jarvis") text) eqn:Hc; [|reflexivity].
    destruct (contains_partition _ _ Hc) as (b' & a' & Hp').
    cbn zeta. rewrite (last_split1 _ _ _ _ Hp').
    destruct (later_phrase_residual pre text b a b' a' Hp Hp') as [->|Hgt]; [|lia].
    apply Nat.ltb_ge in Hlen. now rewrite Hlen. }
  pose proof (Hlater "hey ") as H1. pose proof (Hlater "ok ") as H2.
  change ("hey " ++ "jarvis") with "hey jarvis" in H1.
  change ("ok " ++ "jarvis") with "ok jarvis" in H2.
  cbn zeta in *.
  destruct (contains "hey jarvis" text).
  - destruct (2 <? _)%nat; [discriminate H1|].
    destruct (contains "ok jarvis" text); [|reflexivity].
    destruct (2 <? _)%nat; [discriminate H2 | reflexivity].
  - destruct (contains "ok jarvis" text); [|reflexivity].
    destruct (2 <? _)%nat; [discriminate H2 | reflexivity].
Qed.

Section Extraction.
Variables Audio Callback : Type.

(** C10. For a text that contains a configured wake phrase, the first
    phrase of the list ["jarvis"; "hey jarvis"; "ok jarvis"] that matches is
    "jarvis", the text is cut at the first (leftmost) occurrence of
    "jarvis", and the extracted command is the stripped text after that
    occurrence when it has more than 2 characters, and [None] otherwise.
    The text is any string: [strip] and [len] go by character, as
    [str.strip] and the built-in [len] do, not by byte of the encoding. *)
Theorem extract_command_rule (e : SpeechEngine.t Audio Callback) (text : string) :
  wake_words e = ["jarvis"; "hey jarvis"; "ok jarvis"] ->
  _contains_wake_word e text = true ->
  List.find (fun w => contains w text) (wake_words e) = Some "jarvis" /\
  exists before after,
    text = before ++ "jarvis" ++ after /\
    (forall p q, text = p ++ "jarvis" ++ q ->
                 (String.length before <= String.length p)%nat) /\
    _extract_command_from_wake_phrase e text =
      if (2 <? len (strip after))%nat then Some (strip after) else None.
Proof.
  unfold _contains_wake_word, _extract_command_from_wake_phrase.
  intros -> Hw. apply contains_jarvis in Hw.
  split; [cbn [List.find]; now rewrite Hw|].
  destruct (contains_partition _ _ Hw) as (b & a & Hp).
  exists b, a. destruct (partition_Some _ _ _ _ Hp) as [E Hmin].
  repeat split; [exact E | exact Hmin | exact (extract_loop_phrases text b a Hp)].
Qed.

End Extraction.

Lemma extract_command_rule_witness :
  List.find (fun w => contains w "hey jarvis go")
    (wake_words (SpeechEngine.__init__ unit unit ∅)) = Some "jarvis" /\
  exists before after,
    "hey jarvis go" = before ++ "jarvis" ++ after /\
    (forall p q, "hey jarvis go" = p ++ "jarvis" ++ q ->
                 (String.length before <= String.length p)%nat) /\
    _extract_command_from_wake_phrase (SpeechEngine.__init__ unit unit ∅)
      "hey jarvis go" =
      if (2 <? len (strip after))%nat then Some (strip after) else None.
Proof.
  apply (extract_command_rule unit unit (SpeechEngine.__init__ unit unit ∅)
           "hey jarvis go"); reflexivity.
Defined.

(** The threshold counts characters, not bytes: two accented letters are
    dropped, three are a command. *)
Lemma extract_command_counts_characters :
  _extract_command_from_wake_phrase (SpeechEngine.__init__ unit unit ∅) "jarvis éé"
  = None /\
  _extract_command_from_wake_phrase (SpeechEngine.__init__ unit unit ∅) "jarvis été"
  = Some "été".
Proof. split; reflexivity. Qed.

End WakeWord.


(** ** The speech engine as a state machine *)

Module Detector.
Import SpeechEngine DetectorSpec.
Local Open Scope list_scope.

Section Machine.
Variables Audio Callback World : Type.
Variable recognize_google : Audio -> string -> outcome string.
Variable run_callback : Callback -> Payload -> World -> outcome unit * World.


(** With nothing in the audio queue, a pass of the processing loop times
    out on [get] and changes nothing. *)
Lemma loop_body_idle (s : State Audio Callback World) :
  Queue.items (audio_queue (self s)) = [] ->
  _audio_processing_loop_body recognize_google s = (Ok tt, s).
Proof.
  intros H.
  unfold _audio_processing_loop_body, audio_queue_get, Eff.try_except, Eff.bind,
    Eff.gets, Queue.get_nowait.
  now rewrite H.
Qed.

(** So does any number of passes. *)
Lemma loop_idle (n : nat) (s : State Audio Callback World) :
  Queue.items (audio_queue (self s)) = [] ->
  _audio_processing_loop recognize_google n s = (Ok tt, s).
Proof.
  intros H. induction n as [|n IH]; [reflexivity|].
  cbn [_audio_processing_loop]. unfold Eff.bind.
  now rewrite loop_body_idle.
Qed.

(** C5, as the source has it. The Armed state has no timeout: while no
    utterance arrives, any number of passes of the processing loop (each one
    a wait of a second on the audio queue) returns, an Armed detector is
    still Armed, and nothing is enqueued. *)
Theorem armed_without_timeout (n : nat) (s : State Audio Callback World) :
  Queue.items (audio_queue (self s)) = [] ->
  wake_word_detected (self s) = true ->
  fst (_audio_processing_loop recognize_google n s) = Ok tt /\
  wake_word_detected (self (snd (_audio_processing_loop recognize_google n s))) = true /\
  pending (snd (_audio_processing_loop recognize_google n s)) = pending s.
Proof.
  intros Hq Harmed. rewrite (loop_idle n s Hq). cbn [fst snd]. auto.
Qed.

(** [put] on a queue made by [queue.Queue()] always has room. *)
Lemma put_unbounded {A} (x : A) (q : Queue.t A) :
  Queue.maxsize q = 0%Z ->
  Queue.put x q = Some (Queue.mk 0 (Queue.items q ++ [x])).
Proof.
  intros H. unfold Queue.put, Queue.full. rewrite H. reflexivity.
Qed.

Lemma handle_command_queue (c : string) (s : State Audio Callback World) :
  Queue.maxsize (command_queue (self s)) = 0%Z ->
  fst (_handle_command c s) <> Blocks /\
  command_queue (self (snd (_handle_command c s)))
  = Queue.mk 0 (pending s ++ [c]).
Proof.
  intros H.
  unfold _handle_command, Eff.bind, Eff.gets, log, Eff.modify. cbn.
  rewrite (put_unbounded _ _ H). cbn.
  destruct (on_command (self s)); cbn; [|split; [discriminate | reflexivity]].
  unfold create_task. cbn.
  destruct (loop_running s); cbn; (split; [discriminate | reflexivity]).
Qed.

Lemma handle_all_queue (cs : list string) (s : State Audio Callback World) :
  Queue.maxsize (command_queue (self s)) = 0%Z ->
  command_queue (self (handle_all cs s)) = Queue.mk 0 (pending s ++ cs).
Proof.
  unfold pending.
  revert s; induction cs as [|c cs IH]; intros s H; cbn [handle_all].
  - rewrite app_nil_r. destruct (command_queue (self s)) as [m l].
    cbn in *. now subst.
  - destruct (handle_command_queue c s H) as [_ E]. unfold pending in E.
    rewrite IH; rewrite E; [|reflexivity].
    cbn. now rewrite <- app_assoc.
Qed.

(** The loop of [get_pending_commands] moves the queue's items, in order,
    behind the commands collected so far, given fuel for one test of the
    condition more than there are items. *)
Lemma get_pending_loop_drains (fuel : nat) (acc : list string) (s : State Audio Callback World) :
  (length (pending s) < fuel)%nat ->
  get_pending_loop fuel acc s
  = (Ok (Some (acc ++ pending s)),
     with_self
       (set_command_queue (Queue.mk (Queue.maxsize (command_queue (self s))) []))
       s).
Proof.
  revert acc s; induction fuel as [|fuel IH]; intros acc s Hlt; [lia|].
  cbn [get_pending_loop]. unfold Eff.bind, Eff.gets, Eff.modify.
  unfold pending in *. destruct s as [e lg lr ts aw w].
  destruct e as [il wd vc aq [m items] ww c1 c2 c3 c4]. cbn in *.
  destruct items as [|c items]; cbn.
  - now rewrite app_nil_r.
  - change (S (length items) < S fuel)%nat in Hlt.
    rewrite IH; cbn; [|lia]. now rewrite <- app_assoc.
Qed.


(** A command that the extraction returns is longer than 2 characters, so
    [if command:] holds for it. *)
Lemma extract_loop_nonempty (ws : list string) (text command : string) :
  extract_loop ws text = Some command -> PyStr.is_empty command = false.
Proof.
  induction ws as [|w ws IH]; cbn [extract_loop]; [discriminate|].
  destruct (PyStr.contains w text); [|exact IH].
  cbn zeta. destruct (2 <? _)%nat eqn:E; [|exact IH].
  intros [= <-]. apply Nat.ltb_lt in E.
  destruct (PyStr.strip _); [cbn in E; lia | reflexivity].
Qed.

(** An utterance with a wake phrase and a command behind it, heard by an
    engine without callbacks: the command is enqueued and
    [wake_word_detected] is left set, whatever it was before. *)
Lemma wake_and_command_step (audio : Audio) (heard command : string)
    (s : State Audio Callback World) :
  recognize_google audio (default "en-US" (voice_config (self s) !! "language"))
  = Returns heard ->
  _contains_wake_word (self s) (PyStr.lower heard) = true ->
  _extract_command_from_wake_phrase (self s) (PyStr.lower heard) = Some command ->
  on_wake_word (self s) = None ->
  on_command (self s) = None ->
  Queue.maxsize (command_queue (self s)) = 0%Z ->
  fst (_process_audio recognize_google audio s) = Ok tt /\
  wake_word_detected (self (snd (_process_audio recognize_google audio s))) = true /\
  pending (snd (_process_audio recognize_google audio s)) = pending s ++ [command].
Proof.
  intros Hrec Hwake Hcmd Hcb1 Hcb2 Hmax.
  pose proof (extract_loop_nonempty _ _ _ Hcmd) as Hne.
  unfold _process_audio, Eff.try_except, Eff.bind, Eff.gets. rewrite Hrec. cbn.
  rewrite Hwake. cbn. rewrite Hcb1. cbn. rewrite Hcmd, Hne.
  unfold _handle_command, Eff.bind, Eff.gets. cbn.
  rewrite (put_unbounded _ _ Hmax). cbn. rewrite Hcb2. cbn. auto.
Qed.

(** C6, as the source has it. The command queue is made by
    [queue.Queue()], without a bound: every command handled is appended
    (the [put] never waits and never drops), the queue never counts as full,
    and [get_pending_commands] returns the waiting commands in the order
    they were accepted and leaves the queue empty. *)
Theorem command_queue_unbounded_fifo (cs : list string)
    (s : State Audio Callback World) :
  Queue.maxsize (command_queue (self s)) = 0%Z ->
  pending (handle_all cs s) = pending s ++ cs /\
  Queue.full (command_queue (self (handle_all cs s))) = false /\
  (forall c, fst (_handle_command c (handle_all cs s)) <> Blocks) /\
  forall fuel, (length (pending s ++ cs) < fuel)%nat ->
    fst (get_pending_commands fuel (handle_all cs s)) = Ok (Some (pending s ++ cs)) /\
    pending (snd (get_pending_commands fuel (handle_all cs s))) = [].
Proof.
  intros H. pose proof (handle_all_queue cs s H) as E.
  assert (Hp : pending (handle_all cs s) = pending s ++ cs)
    by (unfold pending at 1; now rewrite E).
  split; [exact Hp|]. split; [now rewrite E|]. split.
  - intros c. apply handle_command_queue. now rewrite E.
  - intros fuel Hfuel. unfold get_pending_commands.
    rewrite get_pending_loop_drains by now rewrite Hp.
    rewrite Hp. split; reflexivity.
Qed.

(** C9. [stop_listening] leaves the engine not listening; a second call
    returns at once and changes nothing, so it awaits no callback; on an
    engine that is not listening the first call already does nothing; and on
    a listening engine with an [on_listening_stop] callback the two calls
    together await that callback exactly once. *)
Theorem stop_listening_idempotent (s : State Audio Callback World) :
  let s1 := snd (stop_listening run_callback s) in
  is_listening (self s1) = false /\
  stop_listening run_callback s1 = (Ok tt, s1) /\
  (is_listening (self s) = false -> stop_listening run_callback s = (Ok tt, s)) /\
  (forall cb, is_listening (self s) = true ->
     on_listening_stop (self s) = Some cb ->
     awaited (snd (stop_listening run_callback s1)) = awaited s ++ [(cb, ∅)]).
Proof.
  assert (Hidle : forall s' : State Audio Callback World,
             is_listening (self s') = false ->
             stop_listening run_callback s' = (Ok tt, s')).
  { intros s' H. unfold stop_listening, Eff.bind, Eff.gets. now rewrite H. }
  assert (H1 : is_listening (self (snd (stop_listening run_callback s))) = false).
  { unfold stop_listening, Eff.bind, Eff.gets.
    destruct (is_listening (self s)) eqn:E; [|exact E]. cbn.
    destruct (on_listening_stop (self s)); [|reflexivity].
    unfold await. cbn. now destruct (run_callback _ _ _) as [[?|?] ?]. }
  cbn zeta. split; [exact H1|]. split; [now apply Hidle|].
  split; [apply Hidle|].
  intros cb Hl Hcb. rewrite (Hidle _ H1). cbn [snd].
  unfold stop_listening, Eff.bind, Eff.gets. rewrite Hl. cbn. rewrite Hcb.
  unfold await. cbn. now destruct (run_callback _ _ _) as [[?|?] ?].
Qed.

End Machine.

(** C1. What the source does on the utterance of the claim. Processing
    "hey jarvis what time is it" on a fresh (Idle) engine returns, enqueues
    the one command "what time is it", and leaves [wake_word_detected] set:
    the detector is Armed afterwards, not Idle, and the next utterance
    without a wake phrase is enqueued as a second command. *)
Theorem single_shot_leaves_armed :
  let s1 := snd (_process_audio recognise (Returns "hey jarvis what time is it") fresh) in
  let s2 := snd (_process_audio recognise (Returns "never mind") s1) in
  fst (_process_audio recognise (Returns "hey jarvis what time is it") fresh) = Ok tt /\
  pending s1 = ["what time is it"] /\
  wake_word_detected (self s1) = true /\
  pending s2 = ["what time is it"; "never mind"] /\
  wake_word_detected (self s2) = false.
Proof. vm_compute. repeat split. Qed.

(** On that utterance the general step applies as well. *)
Lemma single_shot_by_step :
  wake_word_detected
    (self (snd (_process_audio recognise (Returns "hey jarvis what time is it") fresh)))
  = true.
Proof.
  apply (wake_and_command_step Heard nat unit recognise
           (Returns "hey jarvis what time is it")
           "hey jarvis what time is it" "what time is it" fresh);
    reflexivity.
Qed.

(** C5 as stated fails: there is no number of one-second waits after which
    an Armed detector that hears nothing is Idle again. *)
Lemma armed_never_reverts :
  ~ exists timeout : nat,
      wake_word_detected (self (snd (_audio_processing_loop recognise timeout armed)))
      = false.
Proof.
  intros [n H].
  rewrite (loop_idle Heard nat unit recognise n armed eq_refl) in H.
  discriminate H.
Qed.

Lemma armed_without_timeout_witness :
  Queue.items (audio_queue (self armed)) = [] /\
  wake_word_detected (self armed) = true /\
  wake_word_detected (self (snd (_audio_processing_loop recognise 60 armed))) = true /\
  pending (snd (_audio_processing_loop recognise 60 armed)) = [].
Proof.
  split; [reflexivity|]. split; [reflexivity|].
  apply (armed_without_timeout Heard nat unit recognise 60 armed); reflexivity.
Defined.

(** C6 as stated fails: the command queue of a fresh engine has no
    capacity at which a further command is turned away. *)
Lemma command_queue_never_rejects :
  ~ exists capacity : nat,
      forall (cs : list string) (c : string),
        length cs = capacity ->
        pending (handle_all (cs ++ [c]) fresh) = pending (handle_all cs fresh).
Proof.
  intros [n H]. specialize (H (repeat "go" n) "go" (repeat_length _ _)).
  unfold pending in H.
  rewrite !(handle_all_queue Heard nat unit _ fresh eq_refl) in H.
  apply (f_equal (@length string)) in H. cbn in H.
  rewrite !length_app in H. cbn in H. lia.
Qed.

Lemma command_queue_unbounded_fifo_witness :
  Queue.maxsize (command_queue (self fresh)) = 0%Z /\
  pending (handle_all ["lights on"; "play music"] fresh)
  = ["lights on"; "play music"] /\
  fst (get_pending_commands 3 (handle_all ["lights on"; "play music"] fresh))
  = Ok (Some ["lights on"; "play music"]).
Proof.
  pose proof (command_queue_unbounded_fifo Heard nat unit
                ["lights on"; "play music"] fresh eq_refl) as (H1 & _ & _ & H2).
  split; [reflexivity|]. split; [exact H1|].
  apply (H2 3). cbn. lia.
Defined.

Lemma stop_listening_idempotent_witness :
  is_listening (self listening) = true /\
  on_listening_stop (self listening) = Some 7%nat /\
  awaited (snd (stop_listening silent (snd (stop_listening silent listening))))
  = [(7%nat, ∅)].
Proof.
  split; [reflexivity|]. split; [reflexivity|].
  apply (stop_listening_idempotent Heard nat unit silent listening); reflexivity.
Defined.

End Detector.


(** ** The command core: what every step of the pipeline leaves alone *)

Module CoreFacts.
Import JarvisCore CoreSpec.
Local Open Scope list_scope.

Section Frame.
Context {Time History Prefs Apps External World : Type}.
Context {collab : Collaborators Time History Prefs Apps External World}.

Local Abbreviation quiet :=
  (quiet (Time := Time) (History := History) (Prefs := Prefs) (Apps := Apps)
     (External := External) (World := World)).

Lemma invocations_app (l1 l2 : list (Call Time History Prefs Apps External)) :
  invocations (l1 ++ l2) = invocations l1 ++ invocations l2.
Proof.
  induction l1 as [|c l1 IH]; [reflexivity|].
  destruct c; cbn; rewrite ?IH; reflexivity.
Qed.

Lemma invocations_snoc (l : list (Call Time History Prefs Apps External)) c :
  is_invoke c = false -> invocations (l ++ [c]) = invocations l.
Proof.
  intros H. rewrite invocations_app.
  destruct c; try discriminate H; cbn; now rewrite app_nil_r.
Qed.

Lemma quiet_ret {A} (a : A) : quiet (Eff.ret a).
Proof. intros s. cbn. repeat split. discriminate. Qed.

Lemma quiet_raise {A} (e : exn) : quiet (Eff.raise (A := A) e).
Proof. intros s. cbn. repeat split. discriminate. Qed.

Lemma quiet_gets {A} (f : State Time History Prefs Apps External World -> A) :
  quiet (Eff.gets f).
Proof. intros s. cbn. repeat split. discriminate. Qed.

Lemma quiet_bind {A B}
    (m : Eff (State Time History Prefs Apps External World) A)
    (k : A -> Eff (State Time History Prefs Apps External World) B) :
  quiet m -> (forall a, quiet (k a)) -> quiet (Eff.bind m k).
Proof.
  intros Hm Hk s. unfold Eff.bind.
  destruct (Hm s) as (Hb & Hs & Hi).
  destruct (m s) as [[a|e|] s1]; cbn in *; [|repeat split; [discriminate|..]; assumption|congruence].
  destruct (Hk a s1) as (Hb' & Hs' & Hi').
  repeat split; [assumption | congruence | congruence].
Qed.

Lemma quiet_try {A}
    (m : Eff (State Time History Prefs Apps External World) A)
    (h : exn -> Eff (State Time History Prefs Apps External World) A) :
  quiet m -> (forall e, quiet (h e)) -> quiet (Eff.try_except m h).
Proof.
  intros Hm Hh s. unfold Eff.try_except.
  destruct (Hm s) as (Hb & Hs & Hi).
  destruct (m s) as [[a|e|] s1]; cbn in *; [repeat split; [discriminate|..]; assumption| |congruence].
  destruct (Hh e s1) as (Hb' & Hs' & Hi').
  repeat split; [assumption | congruence | congruence].
Qed.

Lemma quiet_log (lvl : level) (msg : string) : quiet (log lvl msg).
Proof. intros s. cbn. repeat split. discriminate. Qed.

Lemma quiet_call {A} c (f : World -> outcome A * World) :
  is_invoke c = false -> quiet (call c f).
Proof.
  intros Hc s. unfold call. destruct (f (world s)) as [[a|e] w]; cbn;
    (repeat split; [discriminate | now apply invocations_snoc]).
Qed.

Lemma quiet_on_component {A} comp method c (f : World -> outcome A * World) :
  is_invoke c = false -> quiet (on_component comp method c f).
Proof.
  intros Hc. unfold on_component. apply quiet_bind; [apply quiet_gets|].
  intros [|]; [now apply quiet_call | apply quiet_raise].
Qed.

Lemma quiet_datetime_now : quiet datetime_now.
Proof.
  intros s. unfold datetime_now. destruct (now (world s)) as [t w]. cbn.
  repeat split. discriminate.
Qed.

Lemma quiet_JarvisResponse_new txt act dat conf :
  quiet (JarvisResponse_new txt act dat conf).
Proof.
  unfold JarvisResponse_new. apply quiet_bind; [apply quiet_datetime_now|].
  intros t. apply quiet_ret.
Qed.

End Frame.

Create HintDb quiet.
#[export] Hint Resolve quiet_ret quiet_raise quiet_gets quiet_log quiet_datetime_now
  quiet_JarvisResponse_new : quiet.

(** One step of a proof that a computation is quiet, following its shape. *)
Ltac quiet_step :=
  match goal with
  | |- quiet (Eff.bind _ _) => apply quiet_bind; [|intros ?]
  | |- quiet (Eff.try_except _ _) => apply quiet_try; [|intros ?]
  | |- quiet (on_component _ _ _ _) => apply quiet_on_component; reflexivity
  | |- quiet (call _ _) => apply quiet_call; reflexivity
  | |- quiet (if ?c then _ else _) => destruct c
  | |- quiet (match ?o with _ => _ end) => destruct o
  | |- quiet _ => solve [auto with quiet]
  end.

Ltac quiet_tac := repeat quiet_step.

Section Pipeline.
Context {Time History Prefs Apps External World : Type}.
Context {collab : Collaborators Time History Prefs Apps External World}.

Local Abbreviation quiet :=
  (quiet (Time := Time) (History := History) (Prefs := Prefs) (Apps := Apps)
     (External := External) (World := World)).

Lemma quiet_build_context command intent entities :
  quiet (_build_context command intent entities).
Proof. unfold _build_context, _get_user_location, _get_system_status. quiet_tac. Qed.

Lemma quiet_handle_automation entities context confidence :
  quiet (_handle_automation_command entities context confidence).
Proof. unfold _handle_automation_command. quiet_tac. Qed.

Lemma quiet_handle_information entities context confidence :
  quiet (_handle_information_command entities context confidence).
Proof.
  unfold _handle_information_command, _get_weather_info, _get_news_info,
    _get_time_info, _get_general_info.
  quiet_tac.
Qed.

Lemma quiet_handle_system entities context confidence :
  quiet (_handle_system_command entities context confidence).
Proof. unfold _handle_system_command. quiet_tac. Qed.

Lemma quiet_handle_unknown entities context confidence :
  quiet (_handle_unknown_command entities context confidence).
Proof. unfold _handle_unknown_command. quiet_tac. Qed.


(** A value-carrying form of [quiet_bind]: what the first computation
    returns may be assumed of the value the second one receives. *)
Lemma quiet_bind_returns {A B} (P : A -> Prop)
    (m : Eff (State Time History Prefs Apps External World) A)
    (k : A -> Eff (State Time History Prefs Apps External World) B) :
  quiet m -> (forall s a s', m s = (Ok a, s') -> P a) ->
  (forall a, P a -> quiet (k a)) -> quiet (Eff.bind m k).
Proof.
  intros Hm HP Hk s. unfold Eff.bind.
  destruct (Hm s) as (Hb & Hs & Hi). specialize (HP s).
  destruct (m s) as [[a|e|] s1]; cbn in *;
    [|repeat split; [discriminate|..]; assumption|congruence].
  destruct (Hk a (HP a s1 eq_refl) s1) as (Hb' & Hs' & Hi').
  repeat split; [assumption | congruence | congruence].
Qed.

Lemma quiet_getattr_command name : quiet (getattr_command name).
Proof. unfold getattr_command. quiet_tac. Qed.

Lemma getattr_command_returns name s h s' :
  getattr_command name s = (Ok h, s') -> quiet_handler h.
Proof.
  unfold getattr_command. destruct (extra_command_handler name); [|discriminate].
  intros [= <- _] entities context confidence. quiet_tac.
Qed.

(** The handler that [command_handlers.get(intent, default)] selects has
    every property that the default and all handlers of the dictionary
    have. *)
Lemma handler_choice {H : Type} (P : H -> Prop) (handlers : gmap string H)
    (unknown : H) (intent : option string) :
  P unknown -> map_Forall (fun _ h => P h) handlers ->
  P (default unknown (intent ≫= (handlers !!.))).
Proof.
  intros Hd Hm. destruct intent as [i|]; cbn; [|exact Hd].
  destruct (handlers !! i) as [h|] eqn:E; cbn; [|exact Hd].
  exact (Hm i h E).
Qed.

Lemma quiet_route_command intent entities context confidence :
  quiet (_route_command intent entities context confidence).
Proof.
  unfold _route_command.
  repeat (eapply quiet_bind_returns;
          [apply quiet_getattr_command | apply getattr_command_returns | intros ? ?]).
  cbn zeta.
  apply (handler_choice quiet_handler); [exact quiet_handle_unknown|].
  repeat (apply map_Forall_insert_2; [|]);
    [exact quiet_handle_automation | exact quiet_handle_information
    | exact quiet_handle_system | assumption | assumption | assumption
    | apply map_Forall_empty].
Qed.

Lemma quiet_steps_1_to_3 command source : quiet (steps_1_to_3 command source).
Proof.
  unfold steps_1_to_3. quiet_tac.
  - apply quiet_build_context.
  - apply quiet_route_command.
Qed.

Lemma quiet_store_interaction command response source :
  quiet (_store_interaction command response source).
Proof. unfold _store_interaction. quiet_tac. Qed.

Lemma quiet_deliver_response response source :
  quiet (_deliver_response response source).
Proof. unfold _deliver_response. quiet_tac. Qed.

Lemma quiet_process_command_try command source :
  quiet (process_command_try command source).
Proof.
  unfold process_command_try. quiet_tac.
  - apply quiet_steps_1_to_3.
  - apply quiet_store_interaction.
  - apply quiet_deliver_response.
Qed.

Lemma quiet_process_command_except e : quiet (process_command_except e).
Proof. unfold process_command_except. quiet_tac. Qed.

Lemma quiet_process_command command source : quiet (process_command command source).
Proof.
  unfold process_command. apply quiet_try;
    [apply quiet_process_command_try | apply quiet_process_command_except].
Qed.

(** What the [except] clause returns. *)
Lemma process_command_except_eq e (s : State Time History Prefs Apps External World) :
  process_command_except e s
  = (Ok (mkResponse error_text None None 0.0%float (fst (now (world s)))),
     mkState (self s)
       (logger s ++ [(ERROR, "Command processing error: " ++ exn_str e)%string])
       (calls s) (snd (now (world s)))).
Proof.
  unfold process_command_except, JarvisResponse_new, datetime_now, Eff.bind, log,
    Eff.modify, Eff.ret.
  cbn. now destruct (now (world s)).
Qed.

(** [process_command] returns, and what: the response of its [try] block,
    or the error response when that block raised. *)
Lemma process_command_returns (command source : string)
    (s : State Time History Prefs Apps External World) :
  exists r s',
    process_command command source s = (Ok r, s') /\
    (forall e, fst (process_command_try command source s) = Raise e ->
       text r = error_text /\ confidence r = 0.0%float /\
       last (logger s') = Some (ERROR, "Command processing error: " ++ exn_str e)%string).
Proof.
  unfold process_command, Eff.try_except.
  destruct (quiet_process_command_try command source s) as (Hb & _ & _).
  destruct (process_command_try command source s) as [[r|e|] s1];
    cbn [fst] in *; [| |congruence].
  - exists r, s1. split; [reflexivity|]. discriminate.
  - rewrite process_command_except_eq. eexists _, _. split; [reflexivity|].
    intros e' [= <-]. cbn. repeat split. apply last_snoc.
Qed.

(** C3. For every command, source and state, [process_command] returns a
    response: no exception leaves it. When the [try] block raises, the
    response is the one of the [except] clause, with the fixed error text
    and confidence 0.0, and the error was logged. *)
Theorem process_command_never_raises (command source : string)
    (s : State Time History Prefs Apps External World) :
  (forall e, fst (process_command command source s) <> Raise e) /\
  exists r s',
    process_command command source s = (Ok r, s') /\
    (forall e, fst (process_command_try command source s) = Raise e ->
       text r = error_text /\ confidence r = 0.0%float /\
       last (logger s') = Some (ERROR, "Command processing error: " ++ exn_str e)%string).
Proof.
  destruct (process_command_returns command source s) as (r & s' & Hr & Herr).
  split; [intros e; rewrite Hr; discriminate|].
  exists r, s'. auto.
Qed.


Lemma bind_Ok {A B}
    (m : Eff (State Time History Prefs Apps External World) A)
    (k : A -> Eff (State Time History Prefs Apps External World) B) s b s' :
  Eff.bind m k s = (Ok b, s') ->
  exists a s1, m s = (Ok a, s1) /\ k a s1 = (Ok b, s').
Proof.
  unfold Eff.bind. destruct (m s) as [[a|e|] s1]; [eauto | discriminate..].
Qed.

(** With an intent outside the handler set, [_route_command] does what
    [_handle_unknown_command] does, once the six attribute lookups pass. *)
Lemma route_unmapped intent entities context confidence s r s' :
  unmapped intent ->
  _route_command intent entities context confidence s = (Ok r, s') ->
  _handle_unknown_command entities context confidence s = (Ok r, s').
Proof.
  intros Hu. unfold _route_command.
  intros H. apply bind_Ok in H as (h1 & s1 & H1 & H).
  apply bind_Ok in H as (h2 & s2 & H2 & H).
  apply bind_Ok in H as (h3 & s3 & H3 & H).
  assert (Hs : s3 = s).
  { unfold getattr_command in H1, H2, H3.
    unfold Eff.raise in *.
    destruct (extra_command_handler "_handle_entertainment_command"); [|discriminate].
    destruct (extra_command_handler "_handle_productivity_command"); [|discriminate].
    destruct (extra_command_handler "_handle_personal_command"); [|discriminate].
    unfold Eff.ret in *. congruence. }
  subst s3. cbn zeta in H.
  destruct intent as [i|]; cbn in H; [|exact H].
  specialize (Hu i eq_refl). unfold handler_intents in Hu.
  rewrite !not_elem_of_cons in Hu. destruct Hu as (?&?&?&?&?&?&_).
  rewrite !lookup_insert_ne, lookup_empty in H by congruence.
  exact H.
Qed.

(** When no plugin answers, [_handle_unknown_command] can only return the
    fallback response. *)
Lemma handle_unknown_fallback entities context conf s r s' :
  (forall e c w, fst (try_plugins e c w) = Returns None) ->
  _handle_unknown_command entities context conf s = (Ok r, s') ->
  text r = fallback_text /\ confidence r = 0.1%float /\
  action r = None /\ data r = None.
Proof.
  intros Hp. unfold _handle_unknown_command, on_component, Eff.bind, Eff.gets.
  destruct (component (self s) plugin_manager); [|discriminate].
  unfold call. specialize (Hp entities context (world s)).
  destruct (try_plugins entities context (world s)) as [o w]. cbn in Hp. subst o.
  cbn. unfold JarvisResponse_new, datetime_now, Eff.bind. cbn.
  destruct (now w) as [t w']. cbn. intros [= <- _]. auto.
Qed.

(** The steps before routing return what the analysis returned, when they
    return. *)
Lemma steps_1_to_3_Ok command source s nlp w r s3 :
  analyze command (world s) = (Returns nlp, w) ->
  steps_1_to_3 command source s = (Ok r, s3) ->
  exists context s2,
    _route_command (nlp_intent nlp) (default ∅ (nlp_entities nlp)) context
      (default 0.0%float (nlp_confidence nlp)) s2 = (Ok r, s3).
Proof.
  intros Ha. unfold steps_1_to_3.
  intros H. apply bind_Ok in H as ([] & s1 & H1 & H).
  apply bind_Ok in H as (nlp' & s2 & H2 & H).
  apply bind_Ok in H as (context & s2' & H3 & H).
  assert (nlp' = nlp) as ->.
  { unfold log, Eff.modify in H1. injection H1 as <-.
    unfold on_component, Eff.bind, Eff.gets, call in H2. cbn in H2.
    destruct (component (self s) nlp_processor); [|discriminate].
    cbn in H2. rewrite Ha in H2. cbn in H2. congruence. }
  eauto.
Qed.

(** When the analysis of a command gives an intent outside the handler set
    and no plugin answers, [process_command] returns a response with
    confidence at most 0.1 and a non-empty text: the fallback response
    (confidence 0.1), which takes an instance that supplies the handlers the
    class leaves undefined, or the error response (confidence 0.0) when a
    step of the pipeline raised. *)
Theorem unmapped_intent_low_confidence (command source : string)
    (s : State Time History Prefs Apps External World) nlp w :
  analyze command (world s) = (Returns nlp, w) ->
  unmapped (nlp_intent nlp) ->
  (forall e c w', fst (try_plugins e c w') = Returns None) ->
  exists r s',
    process_command command source s = (Ok r, s') /\
    PrimFloat.leb (confidence r) 0.1 = true /\
    text r <> "" /\
    ((text r = fallback_text /\ confidence r = 0.1%float) \/
     (text r = error_text /\ confidence r = 0.0%float)).
Proof.
  intros Ha Hu Hp.
  destruct (process_command_returns command source s) as (r & s' & Hr & Herr).
  exists r, s'. split; [exact Hr|].
  assert (Hcases : (text r = fallback_text /\ confidence r = 0.1%float) \/
                   (text r = error_text /\ confidence r = 0.0%float)).
  { destruct (process_command_try command source s) as [[r0|e|] s0] eqn:E.
    - left. unfold process_command, Eff.try_except in Hr. rewrite E in Hr.
      injection Hr as -> ->.
      unfold process_command_try in E.
      apply bind_Ok in E as (r1 & s3 & H123 & E).
      apply bind_Ok in E as ([] & s4 & _ & E).
      apply bind_Ok in E as ([] & s5 & _ & E).
      injection E as -> _.
      destruct (steps_1_to_3_Ok _ _ _ _ _ _ _ Ha H123) as (context & s2 & Hroute).
      apply (route_unmapped _ _ _ _ _ _ _ Hu) in Hroute.
      destruct (handle_unknown_fallback _ _ _ _ _ _ Hp Hroute) as (? & ? & _).
      auto.
    - right. destruct (Herr e eq_refl) as (? & ? & _). auto.
    - destruct (quiet_process_command_try command source s) as (Hb & _).
      rewrite E in Hb. now contradiction Hb. }
  destruct Hcases as [[Ht Hc]|[Ht Hc]]; rewrite Ht, Hc;
    (split; [reflexivity|]); (split; [discriminate|]); auto.
Qed.

(** On an instance without [_handle_entertainment_command], which is every
    plain [JarvisCore()], routing raises [AttributeError] before any handler
    is chosen, so every command ends in the error response. *)
Lemma undefined_handler_always_errors (command source : string)
    (s : State Time History Prefs Apps External World) :
  extra_command_handler "_handle_entertainment_command" = None ->
  exists r s',
    process_command command source s = (Ok r, s') /\
    text r = error_text /\ confidence r = 0.0%float.
Proof.
  intros Hnone.
  destruct (process_command_returns command source s) as (r & s' & Hr & Herr).
  exists r, s'. split; [exact Hr|].
  destruct (process_command_try command source s) as [[r0|e|] s0] eqn:E.
  - exfalso. unfold process_command_try in E.
    apply bind_Ok in E as (r1 & s3 & H123 & _).
    unfold steps_1_to_3 in H123.
    apply bind_Ok in H123 as (? & ? & _ & H).
    apply bind_Ok in H as (? & ? & _ & H).
    apply bind_Ok in H as (? & ? & _ & H).
    unfold _route_command in H. apply bind_Ok in H as (? & ? & H & _).
    unfold getattr_command in H. rewrite Hnone in H. discriminate H.
  - destruct (Herr e eq_refl) as (? & ? & _). auto.
  - destruct (quiet_process_command_try command source s) as (Hb & _).
    rewrite E in Hb. now contradiction Hb.
Qed.

(** C8, on the class as it is written. [_route_command] builds its
    dictionary of handlers before it looks the intent up, and the class
    does not define [_handle_entertainment_command], one of the six
    attributes the dictionary reads. Routing then raises [AttributeError]
    for every intent and leaves the state as it was, so
    [_handle_unknown_command] is not reached and the plugins are not asked:
    every command, and so the command whose intent is outside the handler
    set and which no plugin answers, gets the error response (fixed text,
    confidence 0.0), which is not the fallback response. *)
Theorem unmapped_intent_gets_error_response (command source : string)
    (s : State Time History Prefs Apps External World) :
  extra_command_handler "_handle_entertainment_command" = None ->
  (forall intent entities context confidence
          (s0 : State Time History Prefs Apps External World),
     _route_command intent entities context confidence s0
     = (Raise (AttributeError
                 "'JarvisCore' object has no attribute '_handle_entertainment_command'"),
        s0)) /\
  exists r s',
    process_command command source s = (Ok r, s') /\
    text r = error_text /\ confidence r = 0.0%float /\
    text r <> fallback_text.
Proof.
  intros Hnone. split.
  - intros intent entities context confidence s0.
    unfold _route_command, getattr_command. rewrite Hnone. reflexivity.
  - destruct (undefined_handler_always_errors command source s Hnone)
      as (r & s' & Hr & Ht & Hc).
    exists r, s'. repeat match goal with |- _ /\ _ => split end; auto.
    rewrite Ht. discriminate.
Qed.

(** C2, as the source has it. Once steps 1 to 3 have produced a response,
    [process_command] returns that response only when storing (step 4) and
    delivering (step 5) both return; an exception raised by either is
    logged and not propagated, and the caller receives the error response
    (fixed text, confidence 0.0) in place of the computed one. *)
Theorem late_failure_gives_error_response (command source : string)
    (s s3 : State Time History Prefs Apps External World) r :
  steps_1_to_3 command source s = (Ok r, s3) ->
  (forall s4 s5,
     _store_interaction command r source s3 = (Ok tt, s4) ->
     _deliver_response r source s4 = (Ok tt, s5) ->
     process_command command source s = (Ok r, s5)) /\
  (forall e,
     fst (_store_interaction command r source s3) = Raise e \/
     (exists s4, _store_interaction command r source s3 = (Ok tt, s4) /\
                 fst (_deliver_response r source s4) = Raise e) ->
     exists r' s',
       process_command command source s = (Ok r', s') /\
       text r' = error_text /\ confidence r' = 0.0%float /\
       last (logger s') = Some (ERROR, "Command processing error: " ++ exn_str e)%string).
Proof.
  intros H123. split.
  - intros s4 s5 H4 H5.
    unfold process_command, Eff.try_except, process_command_try, Eff.bind.
    now rewrite H123, H4, H5.
  - intros e Hfail.
    assert (Htry : exists s', process_command_try command source s = (Raise e, s')).
    { unfold process_command_try, Eff.bind. rewrite H123.
      destruct Hfail as [H4|(s4 & H4 & H5)].
      - destruct (_store_interaction command r source s3) as [r4 s4].
        cbn in H4. subst r4. eauto.
      - rewrite H4. destruct (_deliver_response r source s4) as [r5 s5].
        cbn in H5. subst r5. eauto. }
    destruct Htry as [s1 Htry].
    unfold process_command, Eff.try_except. rewrite Htry.
    rewrite process_command_except_eq. eexists _, _. split; [reflexivity|].
    cbn. repeat split. apply last_snoc.
Qed.


(** *** The event bus *)

Lemma register_event_handler_spec event_type h
    (s : State Time History Prefs Apps External World) :
  fst (register_event_handler event_type h s) = Ok tt /\
  registered (snd (register_event_handler event_type h s)) event_type
  = registered s event_type ++ [h].
Proof.
  unfold register_event_handler, registered, Eff.modify. cbn.
  split; [reflexivity|].
  rewrite lookup_insert_eq. cbn.
  destruct (decide (is_Some (event_handlers (self s) !! event_type))) as [[l Hl]|Hn].
  - now rewrite Hl.
  - rewrite lookup_insert_eq. cbn.
    destruct (event_handlers (self s) !! event_type) eqn:E; [|reflexivity].
    exfalso. apply Hn. eauto.
Qed.

(** Awaiting a handler records exactly its own invocation, and returns or
    raises. *)
Lemma invoke_spec h d (s : State Time History Prefs Apps External World) :
  fst (invoke h d s) <> Blocks /\
  self (snd (invoke h d s)) = self s /\
  invocations (calls (snd (invoke h d s))) = invocations (calls s) ++ [(h, d)].
Proof.
  unfold invoke. unfold Eff.bind at 1. unfold Eff.modify at 1.
  set (s1 := mkState (self s) (logger s) (calls s ++ [Invoke h d]) (world s)).
  assert (H1 : invocations (calls s1) = invocations (calls s) ++ [(h, d)])
    by (unfold s1; cbn; now rewrite invocations_app).
  assert (Hq : forall m : Eff (State Time History Prefs Apps External World) unit,
             quiet m ->
             fst (m s1) <> Blocks /\ self (snd (m s1)) = self s /\
             invocations (calls (snd (m s1))) = invocations (calls s) ++ [(h, d)]).
  { intros m Hm. destruct (Hm s1) as (? & ? & ?).
    assert (self s1 = self s) by reflexivity. repeat split; congruence. }
  destruct h as [| | |x].
  - apply Hq. destruct (PyStr.is_empty _); quiet_tac. apply quiet_process_command.
  - apply Hq. quiet_tac.
  - apply Hq. destruct (PyStr.is_empty _); quiet_tac. apply quiet_process_command.
  - unfold s1 in *. cbn in *.
    destruct (run_external x d (world s)) as [[[]|e] w]; cbn;
      (repeat split; [discriminate | exact H1]).
Qed.

(** The guarded call in the loop of [emit_event] always returns. *)
Lemma guarded_invoke_spec h d (s : State Time History Prefs Apps External World) :
  let guarded :=
    Eff.try_except (invoke h d)
      (fun e => log ERROR ("Event handler error: " ++ exn_str e)%string) in
  fst (guarded s) = Ok tt /\
  self (snd (guarded s)) = self s /\
  invocations (calls (snd (guarded s))) = invocations (calls s) ++ [(h, d)].
Proof.
  cbn zeta. unfold Eff.try_except.
  destruct (invoke_spec h d s) as (Hb & Hs & Hi).
  destruct (invoke h d s) as [[[]|e|] s1]; cbn in *; [auto | auto | congruence].
Qed.

Lemma emit_loop_spec hs d (s : State Time History Prefs Apps External World) :
  let loop :=
    Eff.for_each hs (fun handler =>
      Eff.try_except (invoke handler d)
        (fun e => log ERROR ("Event handler error: " ++ exn_str e)%string)) in
  fst (loop s) = Ok tt /\
  self (snd (loop s)) = self s /\
  invocations (calls (snd (loop s)))
  = invocations (calls s) ++ map (fun h => (h, d)) hs.
Proof.
  cbn zeta. revert s; induction hs as [|h hs IH]; intros s.
  - cbn. now rewrite app_nil_r.
  - cbn [Eff.for_each map]. unfold Eff.bind.
    destruct (guarded_invoke_spec h d s) as (Hr & Hs & Hi). cbn zeta in *.
    destruct (Eff.try_except _ _ s) as [r s1]. cbn in Hr, Hs, Hi. subst r.
    destruct (IH s1) as (Hr' & Hs' & Hi').
    repeat split; [exact Hr' | congruence |].
    rewrite Hi', Hi. now rewrite <- app_assoc.
Qed.

(** The loop of [emit_event] over outside handlers: every handler is
    awaited, on the world the one before it left; what a handler raises is
    logged and the loop goes on. *)
Lemma emit_loop_externals xs d (s : State Time History Prefs Apps External World) :
  let loop :=
    Eff.for_each (map external xs) (fun handler =>
      Eff.try_except (invoke handler d)
        (fun e => log ERROR ("Event handler error: " ++ exn_str e)%string)) in
  snd (loop s)
  = mkState (self s)
      (logger s ++ handler_errors (fst (run_externals xs d (world s))))
      (calls s ++ map (fun x => Invoke (external x) d) xs)
      (snd (run_externals xs d (world s))).
Proof.
  cbn zeta. revert s; induction xs as [|x xs IH]; intros s.
  - destruct s. cbn. now rewrite !app_nil_r.
  - cbn [map Eff.for_each run_externals].
    unfold Eff.bind at 1, Eff.try_except at 1, invoke at 1, Eff.bind at 1,
      Eff.modify at 1.
    cbn [world self logger calls].
    destruct (run_external x d (world s)) as [[[]|e] w1]; cbn [of_outcome];
      [|unfold log at 1, Eff.modify at 1]; cbn iota beta; rewrite IH;
      cbn [world self logger calls];
      destruct (run_externals xs d w1) as [rs w2]; cbn [fst snd handler_errors];
      now rewrite <- !app_assoc.
Qed.

(** C4. [emit_event] returns, whatever the handlers do, having invoked
    each handler registered for the event type once per registration, in
    registration order, with the payload ([{}] for [None]); a handler that
    raises stops nothing, since the list of invocations does not depend on
    what the handlers do. On a type with no registration the state is
    unchanged. Registering a handler appends it, so registering it twice
    lists it, and invokes it, twice. Invoking is running: when the
    registered handlers are callables from outside the class, each one is
    awaited on the world the one before it left, whether that one returned
    or raised, each exception is logged as an error, and nothing else
    changes. *)
Theorem emit_event_invokes_all (event_type : string) (data : option Payload)
    (s : State Time History Prefs Apps External World) :
  fst (emit_event event_type data s) = Ok tt /\
  invocations (calls (snd (emit_event event_type data s)))
  = invocations (calls s)
    ++ map (fun h => (h, default ∅ data)) (registered s event_type) /\
  (event_handlers (self s) !! event_type = None ->
   emit_event event_type data s = (Ok tt, s)) /\
  (forall h,
     let s2 := snd (register_event_handler event_type h
                      (snd (register_event_handler event_type h s))) in
     registered s2 event_type = registered s event_type ++ [h; h] /\
     invocations (calls (snd (emit_event event_type data s2)))
     = invocations (calls s2)
       ++ map (fun h => (h, default ∅ data)) (registered s event_type)
       ++ [(h, default ∅ data); (h, default ∅ data)]) /\
  (forall xs,
     registered s event_type = map external xs ->
     let ran := run_externals xs (default ∅ data) (world s) in
     snd (emit_event event_type data s)
     = mkState (self s)
         (logger s ++ handler_errors (fst ran))
         (calls s ++ map (fun x => Invoke (external x) (default ∅ data)) xs)
         (snd ran)).
Proof.
  assert (Hemit : forall s0 : State Time History Prefs Apps External World,
    fst (emit_event event_type data s0) = Ok tt /\
    invocations (calls (snd (emit_event event_type data s0)))
    = invocations (calls s0)
      ++ map (fun h => (h, default ∅ data)) (registered s0 event_type)).
  { intros s0. unfold emit_event, registered, Eff.bind, Eff.gets.
    destruct (event_handlers (self s0) !! event_type) as [hs|]; cbn.
    - destruct (emit_loop_spec hs (default ∅ data) s0) as (? & _ & ?). auto.
    - now rewrite app_nil_r. }
  destruct (Hemit s) as [Hr Hi].
  split; [exact Hr|]. split; [exact Hi|]. split; [|split].
  - intros Hnone. unfold emit_event, Eff.bind, Eff.gets. now rewrite Hnone.
  - intros h. cbn zeta.
    assert (Hreg : registered
              (snd (register_event_handler event_type h
                      (snd (register_event_handler event_type h s)))) event_type
            = registered s event_type ++ [h; h]).
    { rewrite !(proj2 (register_event_handler_spec _ _ _)).
      now rewrite <- app_assoc. }
    split; [exact Hreg|].
    rewrite (proj2 (Hemit _)), Hreg, map_app. reflexivity.
  - intros xs Hxs. cbn zeta. unfold emit_event, Eff.bind, Eff.gets.
    unfold registered in Hxs.
    destruct (event_handlers (self s) !! event_type) as [hs|]; cbn in Hxs.
    + subst hs. apply emit_loop_externals.
    + destruct xs; [|discriminate Hxs]. destruct s. cbn.
      now rewrite !app_nil_r.
Qed.


(** *** Lifecycle *)

Lemma bind_ext {A B}
    (m : Eff (State Time History Prefs Apps External World) A)
    (k k' : A -> Eff (State Time History Prefs Apps External World) B) s :
  (forall a s1, k a s1 = k' a s1) -> Eff.bind m k s = Eff.bind m k' s.
Proof. intros H. unfold Eff.bind. destruct (m s) as [[a|e|] s1]; auto. Qed.

Lemma bind_assoc {A B C}
    (m : Eff (State Time History Prefs Apps External World) A)
    (k : A -> Eff (State Time History Prefs Apps External World) B)
    (h : B -> Eff (State Time History Prefs Apps External World) C) s :
  Eff.bind (Eff.bind m k) h s = Eff.bind m (fun a => Eff.bind (k a) h) s.
Proof. unfold Eff.bind. destruct (m s) as [[a|e|] s1]; reflexivity. Qed.

(** [shutdown] is its loop over [shutdown_order] between two log records. *)
Lemma shutdown_eq (s : State Time History Prefs Apps External World) :
  shutdown s =
  (log INFO "🔄 Shutting down JARVIS components..." ;;
   Eff.modify (with_self (set_is_active false)) ;;
   (stop_all shutdown_order ;; log INFO "✅ JARVIS shutdown complete")) s.
Proof.
  unfold shutdown, stop_all, shutdown_order. cbn [Eff.for_each].
  do 2 (apply bind_ext; intros ? ?).
  repeat (rewrite bind_assoc; apply bind_ext; intros ? ?).
  reflexivity.
Qed.

Lemma stop_all_cons c cs (s : State Time History Prefs Apps External World) :
  stop_all (c :: cs) s =
  match stop_component c s with
  | (Ok _, s1) => stop_all cs s1
  | (Raise e, s1) => (Raise e, s1)
  | (Blocks, s1) => (Blocks, s1)
  end.
Proof. reflexivity. Qed.

Lemma stop_component_absent c (s : State Time History Prefs Apps External World) :
  component (self s) c = false -> stop_component c s = (Ok tt, s).
Proof. intros H. unfold stop_component, Eff.bind, Eff.gets. now rewrite H. Qed.

Lemma stop_component_present c (s : State Time History Prefs Apps External World) :
  component (self s) c = true ->
  stop_component c s =
  (of_outcome (fst (shutdown_component c (world s))),
   mkState (self s) (logger s) (calls s ++ [Shutdown c])
     (snd (shutdown_component c (world s)))).
Proof.
  intros H. unfold stop_component, Eff.bind, Eff.gets, call. rewrite H.
  now destruct (shutdown_component c (world s)).
Qed.

Lemma stop_all_returns cs (s : State Time History Prefs Apps External World) :
  (forall c w, fst (shutdown_component c w) = Returns tt) ->
  fst (stop_all cs s) = Ok tt /\
  self (snd (stop_all cs s)) = self s /\
  calls (snd (stop_all cs s))
  = calls s ++ map Shutdown (List.filter (component (self s)) cs).
Proof.
  intros Hok. revert s; induction cs as [|c cs IH]; intros s.
  - cbn. now rewrite app_nil_r.
  - rewrite stop_all_cons. cbn [List.filter].
    destruct (component (self s) c) eqn:Hc.
    + rewrite (stop_component_present _ _ Hc), Hok. cbn [of_outcome].
      match goal with |- context [stop_all cs ?s1] =>
        destruct (IH s1) as (Hr & Hs & Hcalls) end.
      repeat split; [exact Hr | exact Hs |].
      rewrite Hcalls. cbn. now rewrite <- app_assoc.
    + rewrite (stop_component_absent _ _ Hc). apply IH.
Qed.

Lemma stop_all_raises pre c post e
    (s : State Time History Prefs Apps External World) :
  component (self s) c = true ->
  (forall c' w, c' ∈ pre -> fst (shutdown_component c' w) = Returns tt) ->
  (forall w, fst (shutdown_component c w) = Raises e) ->
  fst (stop_all (pre ++ c :: post) s) = Raise e /\
  calls (snd (stop_all (pre ++ c :: post) s))
  = calls s ++ map Shutdown (List.filter (component (self s)) pre ++ [c]).
Proof.
  intros Hc Hpre Hfail. revert s Hc; induction pre as [|p pre IH]; intros s Hc.
  - cbn [app List.filter]. rewrite stop_all_cons.
    rewrite (stop_component_present _ _ Hc), Hfail. cbn. auto.
  - cbn [app List.filter]. rewrite stop_all_cons.
    assert (Hpre' : forall c' w, c' ∈ pre -> fst (shutdown_component c' w) = Returns tt)
      by (intros; apply Hpre; now right).
    destruct (component (self s) p) eqn:Hp.
    + rewrite (stop_component_present _ _ Hp), (Hpre p) by left.
      cbn [of_outcome].
      match goal with |- context [stop_all _ ?s1] =>
        destruct (IH Hpre' s1 Hc) as (Hr & Hcalls) end.
      split; [exact Hr|]. rewrite Hcalls. cbn. now rewrite <- app_assoc.
    + rewrite (stop_component_absent _ _ Hp). now apply IH.
Qed.


Lemma start_all_cons c cs (s : State Time History Prefs Apps External World) :
  start_all (c :: cs) s =
  match start_component c s with
  | (Ok _, s1) => start_all cs s1
  | (Raise e, s1) => (Raise e, s1)
  | (Blocks, s1) => (Blocks, s1)
  end.
Proof. reflexivity. Qed.

(** Starting a component: the constructor, then [initialize]; the second
    only after the first returned. *)
Lemma start_component_eq c (s : State Time History Prefs Apps External World) :
  start_component c s =
  match construct c (world s) with
  | (Returns _, w1) =>
      (of_outcome (fst (initialize_component c w1)),
       mkState (set_component c (self s)) (logger s)
         (calls s ++ [Construct c; Initialize c])
         (snd (initialize_component c w1)))
  | (Raises e, w1) =>
      (Raise e, mkState (self s) (logger s) (calls s ++ [Construct c]) w1)
  end.
Proof.
  unfold start_component, Eff.bind, call, Eff.modify.
  destruct (construct c (world s)) as [[[]|e] w1]; cbn; [|reflexivity].
  destruct (initialize_component c w1) as [r w2]. cbn.
  now rewrite <- app_assoc.
Qed.

Lemma start_all_prefix cs (s : State Time History Prefs Apps External World) :
  exists n, calls (snd (start_all cs s)) = calls s ++ take n (start_calls cs).
Proof.
  revert s; induction cs as [|c cs IH]; intros s.
  - exists 0%nat. cbn. now rewrite app_nil_r.
  - rewrite start_all_cons, start_component_eq.
    destruct (construct c (world s)) as [[[]|e] w1].
    + destruct (initialize_component c w1) as [[[]|e] w2]; cbn [fst snd of_outcome].
      * match goal with |- context [start_all cs ?s1] =>
          destruct (IH s1) as [n Hn] end.
        exists (S (S n)). rewrite Hn. cbn. now rewrite <- app_assoc.
      * now exists 2%nat.
    + now exists 1%nat.
Qed.

Lemma start_all_returns cs (s : State Time History Prefs Apps External World) :
  (forall c w, fst (construct c w) = Returns tt) ->
  (forall c w, fst (initialize_component c w) = Returns tt) ->
  fst (start_all cs s) = Ok tt /\
  calls (snd (start_all cs s)) = calls s ++ start_calls cs.
Proof.
  intros Hc Hi. revert s; induction cs as [|c cs IH]; intros s.
  - cbn. now rewrite app_nil_r.
  - rewrite start_all_cons, start_component_eq.
    pose proof (Hc c (world s)) as Hc'.
    destruct (construct c (world s)) as [[[]|e] w1]; [|discriminate Hc'].
    rewrite Hi. cbn [of_outcome].
    match goal with |- context [start_all cs ?s1] =>
      destruct (IH s1) as (Hr & Hcalls) end.
    split; [exact Hr|]. rewrite Hcalls. cbn. now rewrite <- app_assoc.
Qed.

(** What follows the six components in [initialize] makes no call. *)
Lemma after_start_calls (s : State Time History Prefs Apps External World) :
  calls (snd ((_setup_event_handlers ;;
               Eff.modify (with_self (set_is_active true)) ;;
               log INFO "✅ All JARVIS components initialized") s))
  = calls s.
Proof.
  unfold _setup_event_handlers, getattr_event, register_event_handler,
    Eff.bind, Eff.modify, log.
  cbn.
  destruct (extra_event_handler "_handle_system_alert"); cbn; [|reflexivity].
  destruct (extra_event_handler "_handle_automation"); cbn; reflexivity.
Qed.

(** The calls of [initialize] are those of starting the six components in
    [init_order]. *)
Lemma initialize_calls (s : State Time History Prefs Apps External World) :
  calls (snd (initialize s))
  = calls (snd (start_all init_order
                  (snd (log INFO "🔧 Initializing JARVIS components..." s)))).
Proof.
  assert (E : initialize s =
    Eff.try_except
      (log INFO "🔧 Initializing JARVIS components..." ;;
       (start_all init_order ;;
        (_setup_event_handlers ;;
         Eff.modify (with_self (set_is_active true)) ;;
         log INFO "✅ All JARVIS components initialized")))
      (fun e =>
         log ERROR ("❌ Component initialization failed: " ++ exn_str e)%string ;;
         Eff.raise e) s).
  { unfold initialize, Eff.try_except.
    match goal with |- match ?a with _ => _ end = match ?b with _ => _ end =>
      assert (Hab : a = b); [|now rewrite Hab] end.
    unfold start_all, init_order. cbn [Eff.for_each].
    apply bind_ext; intros ? ?.
    repeat (rewrite bind_assoc; apply bind_ext; intros ? ?).
    reflexivity. }
  rewrite E. clear E.
  set (rest := (_setup_event_handlers ;;
                Eff.modify (with_self (set_is_active true)) ;;
                log INFO "✅ All JARVIS components initialized")).
  set (s1 := snd (log INFO "🔧 Initializing JARVIS components..." s)).
  assert (Hbody : calls (snd (Eff.bind (start_all init_order) (fun _ => rest) s1))
                  = calls (snd (start_all init_order s1))).
  { unfold Eff.bind.
    destruct (start_all init_order s1) as [[[]|e|] s2]; cbn [snd]; [|reflexivity..].
    apply after_start_calls. }
  unfold Eff.try_except. unfold Eff.bind at 1.
  change (log INFO "🔧 Initializing JARVIS components..." s) with (Ok tt, s1).
  cbn iota. rewrite <- Hbody.
  destruct (Eff.bind (start_all init_order) (fun _ => rest) s1) as [[[]|e|] s2];
    reflexivity.
Qed.

(** [initialize] is a loop over [init_order], then the registrations. *)
Lemma initialize_eq (s : State Time History Prefs Apps External World) :
  initialize s =
  Eff.try_except
    (log INFO "🔧 Initializing JARVIS components..." ;;
     (start_all init_order ;;
      (_setup_event_handlers ;;
       Eff.modify (with_self (set_is_active true)) ;;
       log INFO "✅ All JARVIS components initialized")))
    (fun e =>
       log ERROR ("❌ Component initialization failed: " ++ exn_str e)%string ;;
       Eff.raise e) s.
Proof.
  unfold initialize, Eff.try_except.
  match goal with |- match ?a with _ => _ end = match ?b with _ => _ end =>
    assert (Hab : a = b); [|now rewrite Hab] end.
  unfold start_all, init_order. cbn [Eff.for_each].
  apply bind_ext; intros ? ?.
  repeat (rewrite bind_assoc; apply bind_ext; intros ? ?).
  reflexivity.
Qed.

(** [initialize] raises what starting the components raises. *)
Lemma initialize_raises e (s : State Time History Prefs Apps External World) :
  fst (start_all init_order
         (snd (log INFO "🔧 Initializing JARVIS components..." s))) = Raise e ->
  fst (initialize s) = Raise e.
Proof.
  intros H. rewrite initialize_eq.
  unfold Eff.try_except. unfold Eff.bind at 1.
  change (log INFO "🔧 Initializing JARVIS components..." s)
    with (Ok tt, snd (log INFO "🔧 Initializing JARVIS components..." s)).
  cbn iota. unfold Eff.bind at 1.
  destruct (start_all init_order _) as [r s2]. cbn [fst] in H. subst r.
  reflexivity.
Qed.

(** The loop over the components stops at the first one that fails: at its
    constructor, or at its [initialize] once the constructor returned. *)
Lemma start_all_stops pre c post e
    (s : State Time History Prefs Apps External World) :
  (forall c' w, c' ∈ pre ->
     fst (construct c' w) = Returns tt /\ fst (initialize_component c' w) = Returns tt) ->
  ((forall w, fst (construct c w) = Raises e) ->
   fst (start_all (pre ++ c :: post) s) = Raise e /\
   calls (snd (start_all (pre ++ c :: post) s))
   = calls s ++ start_calls pre ++ [Construct c]) /\
  ((forall w, fst (construct c w) = Returns tt) ->
   (forall w, fst (initialize_component c w) = Raises e) ->
   fst (start_all (pre ++ c :: post) s) = Raise e /\
   calls (snd (start_all (pre ++ c :: post) s))
   = calls s ++ start_calls pre ++ [Construct c; Initialize c]).
Proof.
  intros Hpre. revert s; induction pre as [|p pre IH]; intros s.
  - cbn [app start_calls flat_map]. rewrite start_all_cons, start_component_eq. split.
    + intros Hf. specialize (Hf (world s)).
      destruct (construct c (world s)) as [[[]|e'] w1]; cbn in Hf |- *;
        [discriminate Hf|]. split; congruence.
    + intros Hc Hf. specialize (Hc (world s)).
      destruct (construct c (world s)) as [[[]|e'] w1]; cbn in Hc |- *;
        [|discriminate Hc]. now rewrite Hf.
  - cbn [app]. rewrite start_all_cons, start_component_eq.
    assert (Hpre' : forall c' w, c' ∈ pre ->
              fst (construct c' w) = Returns tt /\
              fst (initialize_component c' w) = Returns tt)
      by (intros; apply Hpre; now right).
    destruct (Hpre p (world s)) as [Hc _]; [left|].
    destruct (construct p (world s)) as [[[]|e'] w1]; cbn in Hc; [|discriminate Hc].
    destruct (Hpre p w1) as [_ Hi]; [left|]. rewrite Hi. cbn [of_outcome].
    match goal with |- context [start_all _ ?s1] =>
      destruct (IH Hpre' s1) as (HA & HB) end.
    cbn [calls] in HA, HB.
    split.
    + intros Hf. destruct (HA Hf) as (Hr & Hcalls). split; [exact Hr|].
      rewrite Hcalls. cbn. now rewrite <- !app_assoc.
    + intros Hc' Hf. destruct (HB Hc' Hf) as (Hr & Hcalls). split; [exact Hr|].
      rewrite Hcalls. cbn. now rewrite <- !app_assoc.
Qed.

Lemma shut_down_app (l1 l2 : list (Call Time History Prefs Apps External)) :
  shut_down (l1 ++ l2) = shut_down l1 ++ shut_down l2.
Proof.
  induction l1 as [|c l1 IH]; [reflexivity|].
  destruct c; cbn; rewrite ?IH; try reflexivity.
  now destruct (Component_eqb _ _).
Qed.

Lemma shut_down_map (cs : list Component) :
  forallb (fun c => negb (Component_eqb c plugin_manager)) cs = true ->
  shut_down (map (Shutdown (Time := Time) (History := History) (Prefs := Prefs)
                    (Apps := Apps) (External := External)) cs) = cs.
Proof.
  induction cs as [|c cs IH]; [reflexivity|].
  cbn. intros H. apply andb_true_iff in H as [Hc H].
  destruct (Component_eqb c plugin_manager); [discriminate Hc|].
  now rewrite IH.
Qed.

Lemma forallb_filter {A} (p f : A -> bool) (l : list A) :
  forallb p l = true -> forallb p (List.filter f l) = true.
Proof.
  induction l as [|a l IH]; [reflexivity|]. cbn.
  intros H. apply andb_true_iff in H as [Ha H].
  destruct (f a); cbn; [rewrite Ha|]; auto.
Qed.

(** C7, as the source has it. [initialize] starts the six components in
    the order memory, NLP, speech, automation, plugins, web, each one
    constructed and initialized before the next, and stops at the first
    failure: it raises the exception of the first constructor or
    [initialize] that fails, having called nothing after it. [shutdown]
    stops web, automation, speech, NLP and memory in that order, which is
    the reverse of the order of their initialization, skipping components
    that were never created; the steps are not guarded: when the shutdown
    of a component raises, [shutdown] raises that exception and the
    components after it are not shut down. *)
Theorem lifecycle_order (s : State Time History Prefs Apps External World) :
  (exists n, calls (snd (initialize s)) = calls s ++ take n (start_calls init_order)) /\
  ((forall c w, fst (construct c w) = Returns tt) ->
   (forall c w, fst (initialize_component c w) = Returns tt) ->
   calls (snd (initialize s)) = calls s ++ start_calls init_order) /\
  (forall pre c post e,
     init_order = pre ++ c :: post ->
     (forall c' w, c' ∈ pre ->
        fst (construct c' w) = Returns tt /\
        fst (initialize_component c' w) = Returns tt) ->
     ((forall w, fst (construct c w) = Raises e) ->
      fst (initialize s) = Raise e /\
      calls (snd (initialize s)) = calls s ++ start_calls pre ++ [Construct c]) /\
     ((forall w, fst (construct c w) = Returns tt) ->
      (forall w, fst (initialize_component c w) = Raises e) ->
      fst (initialize s) = Raise e /\
      calls (snd (initialize s))
      = calls s ++ start_calls pre ++ [Construct c; Initialize c])) /\
  shutdown_order `sublist_of` rev init_order /\
  ((forall c w, fst (shutdown_component c w) = Returns tt) ->
   fst (shutdown s) = Ok tt /\
   shut_down (calls (snd (shutdown s)))
   = shut_down (calls s) ++ List.filter (component (self s)) shutdown_order) /\
  (forall pre c post e,
     shutdown_order = pre ++ c :: post ->
     component (self s) c = true ->
     (forall c' w, c' ∈ pre -> fst (shutdown_component c' w) = Returns tt) ->
     (forall w, fst (shutdown_component c w) = Raises e) ->
     fst (shutdown s) = Raise e /\
     shut_down (calls (snd (shutdown s)))
     = shut_down (calls s) ++ List.filter (component (self s)) pre ++ [c]).
Proof.
  split; [|split; [|split; [|split; [|split]]]].
  - rewrite initialize_calls.
    destruct (start_all_prefix init_order
                (snd (log INFO "🔧 Initializing JARVIS components..." s)))
      as [n Hn].
    exists n. exact Hn.
  - intros Hc Hi. rewrite initialize_calls.
    exact (proj2 (start_all_returns init_order
                    (snd (log INFO "🔧 Initializing JARVIS components..." s))
                    Hc Hi)).
  - intros pre c post e Hsplit Hpre.
    destruct (start_all_stops pre c post e
                (snd (log INFO "🔧 Initializing JARVIS components..." s)) Hpre)
      as (HA & HB).
    rewrite <- Hsplit in HA, HB. split.
    + intros Hf. destruct (HA Hf) as (Hr & Hcalls).
      split; [now apply initialize_raises|]. now rewrite initialize_calls.
    + intros Hc Hf. destruct (HB Hc Hf) as (Hr & Hcalls).
      split; [now apply initialize_raises|]. now rewrite initialize_calls.
  - unfold shutdown_order, init_order. cbn [rev app].
    apply sublist_skip, sublist_cons.
    do 4 apply sublist_skip. apply sublist_nil.
  - intros Hok. rewrite shutdown_eq.
    unfold Eff.bind, log, Eff.modify.
    match goal with |- context [stop_all shutdown_order ?s0] =>
      destruct (stop_all_returns shutdown_order s0 Hok) as (Hr & _ & Hcalls);
      destruct (stop_all shutdown_order s0) as [r s1] end.
    cbn [fst snd with_self self calls set_is_active component] in Hr, Hcalls.
    subst r. cbn [fst snd calls]. split; [reflexivity|].
    rewrite Hcalls, shut_down_app, shut_down_map; [reflexivity|].
    now apply forallb_filter.
  - intros pre c post e Hsplit Hc Hpre Hfail. rewrite shutdown_eq, Hsplit.
    unfold Eff.bind, log, Eff.modify.
    match goal with |- context [stop_all _ ?s0] =>
      destruct (stop_all_raises pre c post e s0 Hc Hpre Hfail) as (Hr & Hcalls);
      destruct (stop_all (pre ++ c :: post) s0) as [r s1] end.
    cbn [fst snd with_self self calls set_is_active component] in Hr, Hcalls.
    subst r. cbn [fst snd calls]. split; [reflexivity|].
    rewrite Hcalls, shut_down_app, shut_down_map; [reflexivity|].
    assert (Hall : forallb (fun c => negb (Component_eqb c plugin_manager))
                     (pre ++ c :: post) = true) by now rewrite <- Hsplit.
    rewrite forallb_app in Hall. apply andb_true_iff in Hall as [Hp Hcp].
    cbn in Hcp. apply andb_true_iff in Hcp as [Hc' _].
    rewrite forallb_app. apply andb_true_iff. split.
    + now apply forallb_filter.
    + cbn. now rewrite Hc'.
Qed.

End Pipeline.
End CoreFacts.


(** ** The command core on concrete collaborators *)

Module CoreRuns.
Import JarvisCore CoreSpec CoreFacts.
Local Open Scope list_scope.

(** C2 as stated fails. Steps 1 to 3 produce the fallback response, the
    memory manager then raises in step 4, and [process_command] returns
    another response than the computed one. *)
Lemma late_failure_loses_response :
  exists r s3 e,
    steps_1_to_3 (collab := failing_store) "dance" "voice" running = (Ok r, s3) /\
    fst (_store_interaction (collab := failing_store) "dance" r "voice" s3) = Raise e /\
    fst (process_command (collab := failing_store) "dance" "voice" running) <> Ok r.
Proof.
  eexists _, _, _. split; [vm_compute; reflexivity|].
  split; [vm_compute; reflexivity|].
  vm_compute. intros H. discriminate H.
Qed.

Lemma late_failure_gives_error_response_witness :
  exists r' s',
    process_command (collab := failing_store) "dance" "voice" running = (Ok r', s') /\
    text r' = error_text /\ confidence r' = 0.0%float /\
    last (logger s')
    = Some (ERROR, "Command processing error: database is locked").
Proof.
  assert (H : exists r s3,
             steps_1_to_3 (collab := failing_store) "dance" "voice" running
             = (Ok r, s3) /\
             fst (_store_interaction (collab := failing_store) "dance" r "voice" s3)
             = Raise (OtherError "database is locked")).
  { eexists _, _. split; vm_compute; reflexivity. }
  destruct H as (r & s3 & H123 & H4).
  exact (proj2 (late_failure_gives_error_response (collab := failing_store)
                  "dance" "voice" running s3 r H123)
           (OtherError "database is locked") (or_introl H4)).
Defined.

Lemma process_command_never_raises_witness :
  exists r s',
    process_command (collab := plain) "dance" "voice" running = (Ok r, s') /\
    text r = error_text /\ confidence r = 0.0%float.
Proof.
  destruct (process_command_never_raises (collab := plain) "dance" "voice" running)
    as (_ & r & s' & Hr & Herr).
  exists r, s'. split; [exact Hr|].
  edestruct Herr as (Ht & Hc & _); [vm_compute; reflexivity|]. auto.
Defined.

(** A plain [JarvisCore()] and the command "dance", analysed as the intent
    "xyz": routing raises, and the caller gets the error response; the
    plugin manager was not asked. *)
Lemma unmapped_intent_gets_error_response_witness :
  fst (analyze (Collaborators := plain) "dance" (world running))
  = Returns (mkNlp (Some "xyz") None (Some 0.9%float)) /\
  _route_command (collab := plain) (Some "xyz") ∅
    (mkContext 0%nat "Unknown" tt (mkStatus 0.0 0.0 0.0 "connected") tt tt)
    0.9%float running
  = (Raise (AttributeError
              "'JarvisCore' object has no attribute '_handle_entertainment_command'"),
     running) /\
  (exists r s',
     process_command (collab := plain) "dance" "voice" running = (Ok r, s') /\
     text r = error_text /\ confidence r = 0.0%float /\
     text r <> fallback_text) /\
  logger (snd (process_command (collab := plain) "dance" "voice" running))
  = [(INFO, "🎯 Processing command: 'dance' from voice");
     (ERROR, "Command processing error: 'JarvisCore' object has no attribute '_handle_entertainment_command'")] /\
  calls (snd (process_command (collab := plain) "dance" "voice" running))
  = [Analyze "dance"; GetRecentInteractions 5; GetUserPreferences; GetActiveApps].
Proof.
  destruct (unmapped_intent_gets_error_response (collab := plain)
              "dance" "voice" running eq_refl) as (Hroute & Hresp).
  split; [reflexivity|]. split; [apply Hroute|]. split; [exact Hresp|].
  split; vm_compute; reflexivity.
Defined.

Lemma unmapped_xyz : unmapped (Some "xyz").
Proof.
  intros i [= <-]. unfold handler_intents.
  rewrite !not_elem_of_cons. repeat split; try discriminate. apply not_elem_of_nil.
Qed.

Lemma unmapped_intent_low_confidence_witness :
  exists r s',
    process_command (collab := supplied) "dance" "voice" running = (Ok r, s') /\
    PrimFloat.leb (confidence r) 0.1 = true /\
    text r <> "" /\
    ((text r = fallback_text /\ confidence r = 0.1%float) \/
     (text r = error_text /\ confidence r = 0.0%float)).
Proof.
  apply (unmapped_intent_low_confidence (collab := supplied) "dance" "voice" running
           (mkNlp (Some "xyz") None (Some 0.9%float)) 0%nat).
  - reflexivity.
  - exact unmapped_xyz.
  - intros e c w. reflexivity.
Defined.

(** On the instance that supplies the undefined handlers, that response is
    the fallback itself. *)
Lemma unmapped_intent_fallback_run :
  exists t s',
    process_command (collab := supplied) "dance" "voice" running
    = (Ok (mkResponse fallback_text None None 0.1%float t), s').
Proof. eexists _, _. vm_compute. reflexivity. Qed.

Lemma emit_event_invokes_all_witness :
  emit_event (collab := tracing) "voice_command" None three_handlers
  = (Ok tt,
     mkState (self three_handlers)
       [(ERROR, "Event handler error: handler failed")]
       [Invoke (external 1%nat) ∅; Invoke (external 2%nat) ∅; Invoke (external 3%nat) ∅]
       123%nat) /\
  invocations (calls (snd (emit_event (collab := tracing) "voice_command" None
                             three_handlers)))
  = [(external 1%nat, ∅); (external 2%nat, ∅); (external 3%nat, ∅)] /\
  emit_event (collab := tracing) "system_alert" None three_handlers
  = (Ok tt, three_handlers).
Proof.
  pose proof (emit_event_invokes_all (collab := tracing) "voice_command" None
                three_handlers) as (H1 & H2 & _ & _ & H5).
  pose proof (emit_event_invokes_all (collab := tracing) "system_alert" None
                three_handlers) as (_ & _ & H3 & _).
  specialize (H5 [1; 2; 3]%nat eq_refl). cbn zeta in H5.
  split; [|split; [exact H2 | apply H3; reflexivity]].
  destruct (emit_event (collab := tracing) "voice_command" None three_handlers)
    as [r s1].
  cbn [fst snd] in H1, H5. now rewrite H1, H5.
Defined.

(** The second handler raised and was logged; the third still ran. *)
Lemma emit_event_logs_failure :
  logger (snd (emit_event (collab := supplied) "voice_command" None three_handlers))
  = [(ERROR, "Event handler error: handler failed")].
Proof. vm_compute. reflexivity. Qed.

(** C7 as stated fails. When the shutdown of the web interface raises,
    [shutdown] raises and no other component is shut down. *)
Lemma shutdown_is_not_guarded :
  shutdown (collab := failing_web) running
  = (Raise (OtherError "web_interface shutdown failed"),
     mkState (mk (fun _ => true) ∅ false)
       [(INFO, "🔄 Shutting down JARVIS components...")]
       [Shutdown web_interface] 0%nat).
Proof. reflexivity. Qed.

Lemma lifecycle_order_witness :
  calls (snd (initialize (collab := supplied) LifecycleSpec.created))
  = [Construct memory_manager; Initialize memory_manager;
     Construct nlp_processor; Initialize nlp_processor;
     Construct speech_engine; Initialize speech_engine;
     Construct automation_engine; Initialize automation_engine;
     Construct plugin_manager; Initialize plugin_manager;
     Construct web_interface; Initialize web_interface] /\
  fst (initialize (collab := LifecycleSpec.failing_start speech_engine)
         LifecycleSpec.created)
  = Raise (OtherError "speech_engine is not available") /\
  calls (snd (initialize (collab := LifecycleSpec.failing_start speech_engine)
                LifecycleSpec.created))
  = [Construct memory_manager; Initialize memory_manager;
     Construct nlp_processor; Initialize nlp_processor;
     Construct speech_engine; Initialize speech_engine] /\
  shut_down (calls (snd (shutdown (collab := supplied) running)))
  = [web_interface; automation_engine; speech_engine; nlp_processor; memory_manager] /\
  fst (shutdown (collab := failing_web) running)
  = Raise (OtherError "web_interface shutdown failed") /\
  shut_down (calls (snd (shutdown (collab := failing_web) running))) = [web_interface].
Proof.
  pose proof (lifecycle_order (collab := supplied) LifecycleSpec.created)
    as (_ & Hinit & _).
  pose proof (lifecycle_order (collab := LifecycleSpec.failing_start speech_engine)
                LifecycleSpec.created) as (_ & _ & Hstop & _).
  pose proof (lifecycle_order (collab := supplied) running)
    as (_ & _ & _ & _ & Hdown & _).
  pose proof (lifecycle_order (collab := failing_web) running)
    as (_ & _ & _ & _ & _ & Hfail).
  split; [apply Hinit; intros; reflexivity|].
  destruct (Hstop [memory_manager; nlp_processor] speech_engine
              [automation_engine; plugin_manager; web_interface]
              (OtherError "speech_engine is not available") eq_refl) as (_ & Hraise).
  { intros c' w Hin. rewrite !elem_of_cons, elem_of_nil in Hin.
    destruct Hin as [->|[->|[]]]; split; reflexivity. }
  destruct Hraise as (Hr & Hcalls); [intros w; reflexivity..|].
  split; [exact Hr|]. split; [exact Hcalls|].
  split; [apply Hdown; intros; reflexivity|].
  apply (Hfail [] web_interface
           [automation_engine; speech_engine; nlp_processor; memory_manager]
           (OtherError "web_interface shutdown failed")).
  - reflexivity.
  - reflexivity.
  - intros c' w H. inversion H.
  - intros w. reflexivity.
Defined.

End CoreRuns.


(** ** Utterances, one at a time *)

Module Utterance.
Import SpeechEngine DetectorSpec UtteranceSpec.
Local Open Scope list_scope.

#[local] Arguments Queue.full : simpl never.

(** Unfolding the methods of the engine down to the state. *)
Ltac engine_unfold :=
  unfold _process_audio, _handle_command, create_task, log,
    Eff.try_except, Eff.bind, Eff.gets, Eff.modify, Eff.ret, Eff.raise,
    Eff.block, Queue.put, of_outcome in *.

(** Case analysis on whatever the goal still branches on. *)
Ltac branch_free x :=
  lazymatch x with
  | context [match _ with _ => _ end] => fail
  | _ => idtac
  end.

Ltac engine_cases :=
  repeat (cbn in *;
          match goal with
          | |- context [match ?x with _ => _ end] =>
              branch_free x; destruct x eqn:?
          end).

Section Step.
Variables Audio Callback World : Type.
Variable recognize_google : Audio -> string -> outcome string.

(** With room in the command queue, [_process_audio] returns. *)
Lemma process_audio_returns (audio : Audio) (s : State Audio Callback World) :
  Queue.full (command_queue (self s)) = false ->
  fst (_process_audio recognize_google audio s) = Ok tt.
Proof.
  intros Hfull. engine_unfold. engine_cases; cbn in *; try reflexivity; congruence.
Qed.

(** X1. [_process_audio] lets no exception out: what the recogniser, the
    scheduling of a callback or anything else raises ends in one of its
    [except] clauses; and when the command queue has room, it returns. *)
Theorem process_audio_never_raises (audio : Audio)
    (s : State Audio Callback World) :
  (forall e, fst (_process_audio recognize_google audio s) <> Raise e) /\
  (Queue.full (command_queue (self s)) = false ->
   fst (_process_audio recognize_google audio s) = Ok tt).
Proof.
  split; [|apply process_audio_returns].
  intros e. engine_unfold. engine_cases; cbn; discriminate.
Qed.

(** What [_process_audio] leaves alone, and how the queue, the log and the
    tasks can change. *)
Lemma process_audio_keeps (audio : Audio) (s : State Audio Callback World) :
  let s' := snd (_process_audio recognize_google audio s) in
  settings (self s') = settings (self s) /\
  world s' = world s /\ awaited s' = awaited s /\
  (exists l, logger s' = logger s ++ l) /\
  (exists l, tasks s' = tasks s ++ l) /\
  (pending s' = pending s \/ exists c, pending s' = pending s ++ [c]).
Proof.
  cbn zeta. unfold settings, pending. engine_unfold. engine_cases;
    cbn; repeat split;
    first [ solve [reflexivity]
          | solve [left; reflexivity]
          | solve [right; eexists; reflexivity]
          | solve [exists []; now rewrite app_nil_r]
          | solve [congruence]
          | solve [eexists; rewrite <- ?app_assoc; reflexivity] ].
Qed.

(** X2. An utterance touches only the wake flag, the command queue, the log
    and the scheduled tasks. The settings of the engine, the external world
    and the awaited callbacks stay as they are, the log and the tasks only
    grow, and the command queue keeps its commands in place and gains at
    most one; so no sequence of utterances removes or reorders a waiting
    command. *)
Theorem process_audio_frame (audio : Audio) (s : State Audio Callback World) :
  let s' := snd (_process_audio recognize_google audio s) in
  (settings (self s') = settings (self s) /\
   world s' = world s /\ awaited s' = awaited s) /\
  (exists l, logger s' = logger s ++ l) /\
  (exists l, tasks s' = tasks s ++ l) /\
  (exists l, pending s' = pending s ++ l /\ (length l <= 1)%nat).
Proof.
  destruct (process_audio_keeps audio s) as (H1 & H2 & H3 & H4 & H5 & H6).
  cbn zeta in *. repeat split; try assumption.
  destruct H6 as [H6|[c H6]]; rewrite H6.
  - exists []. rewrite app_nil_r. split; [reflexivity | cbn; lia].
  - exists [c]. split; [reflexivity | cbn; lia].
Qed.



(** X5. With an [on_wake_word] callback and no running event loop in the
    calling thread, an utterance with a wake phrase arms the engine but its
    command is lost: scheduling the callback raises before the command is
    extracted, so nothing is enqueued, whatever follows the wake phrase. *)
Theorem wake_callback_without_loop (audio : Audio) (heard : string)
    (cb : Callback) (s : State Audio Callback World) :
  recognize_google audio (language (self s)) = Returns heard ->
  _contains_wake_word (self s) (PyStr.lower heard) = true ->
  on_wake_word (self s) = Some cb ->
  loop_running s = false ->
  let s' := snd (_process_audio recognize_google audio s) in
  fst (_process_audio recognize_google audio s) = Ok tt /\
  pending s' = pending s /\
  wake_word_detected (self s') = true /\
  last (logger s') = Some (ERROR, "Audio processing error: no running event loop").
Proof.
  unfold language. intros Hrec Hwake Hcb Hloop. cbn zeta.
  unfold pending. engine_unfold. rewrite Hrec. cbn. rewrite Hwake. cbn.
  rewrite Hcb. cbn. rewrite Hloop. cbn.
  repeat split. apply last_snoc.
Qed.




(** *** The processing loop *)

(** A pass of the processing loop with audio waiting is [_process_audio]
    on the head of the audio queue, when the command queue has room. *)
Lemma loop_body_head (audio : Audio) (rest : list Audio)
    (s : State Audio Callback World) :
  Queue.items (audio_queue (self s)) = audio :: rest ->
  Queue.full (command_queue (self s)) = false ->
  _audio_processing_loop_body recognize_google s
  = _process_audio recognize_google audio
      (with_self
         (set_audio_queue (Queue.mk (Queue.maxsize (audio_queue (self s))) rest))
         s).
Proof.
  intros Hitems Hroom.
  set (s1 := with_self
               (set_audio_queue
                  (Queue.mk (Queue.maxsize (audio_queue (self s))) rest)) s).
  pose proof (process_audio_returns audio s1 Hroom) as Hret.
  unfold _audio_processing_loop_body, audio_queue_get, Queue.get_nowait,
    Eff.try_except, Eff.bind, Eff.gets, Eff.modify, Eff.ret.
  rewrite Hitems. fold s1.
  destruct (_process_audio recognize_google audio s1) as [r s2].
  cbn in Hret. now subst r.
Qed.

(** One pass of the processing loop on an engine whose command queue is
    unbounded: it returns, and takes the head off the audio queue if there
    is one. *)
Lemma loop_body_consumes (s : State Audio Callback World) :
  Queue.maxsize (command_queue (self s)) = 0%Z ->
  let s' := snd (_audio_processing_loop_body recognize_google s) in
  fst (_audio_processing_loop_body recognize_google s) = Ok tt /\
  Queue.items (audio_queue (self s')) = tail (Queue.items (audio_queue (self s))) /\
  Queue.maxsize (command_queue (self s')) = 0%Z /\
  (exists l, pending s' = pending s ++ l).
Proof.
  intros Hmax. cbn zeta.
  assert (Hroom : Queue.full (command_queue (self s)) = false)
    by (unfold Queue.full; now rewrite Hmax).
  destruct (Queue.items (audio_queue (self s))) as [|audio rest] eqn:Hitems.
  - rewrite (Detector.loop_body_idle _ _ _ recognize_google s Hitems). cbn.
    rewrite Hitems. repeat split; [assumption|]. exists []. now rewrite app_nil_r.
  - rewrite (loop_body_head audio rest s Hitems Hroom).
    match goal with |- context [_process_audio _ _ ?s0] => set (s1 := s0) end.
    pose proof (process_audio_returns audio s1 Hroom) as Hret.
    destruct (process_audio_keeps audio s1) as (Hset & _ & _ & _ & _ & Hpend).
    cbn zeta in *.
    destruct (_process_audio recognize_google audio s1) as [r s2].
    cbn [fst snd] in *. subst r.
    unfold settings in Hset. injection Hset as _ _ Hq _ _ _ _ _ Hm.
    repeat split.
    + now rewrite Hq.
    + now rewrite Hm.
    + destruct Hpend as [->|[c ->]]; [exists []; now rewrite app_nil_r | now exists [c]].
Qed.

(** X8. The processing loop never stops on an error. On an engine whose
    command queue is unbounded, [n] passes of the loop all return, consume
    the first [n] pieces of audio of the audio queue in order (all of them
    when [n] is at least its length), and only add to the waiting
    commands. *)
Theorem processing_loop_consumes (n : nat) (s : State Audio Callback World) :
  Queue.maxsize (command_queue (self s)) = 0%Z ->
  let s' := snd (_audio_processing_loop recognize_google n s) in
  fst (_audio_processing_loop recognize_google n s) = Ok tt /\
  Queue.items (audio_queue (self s')) = drop n (Queue.items (audio_queue (self s))) /\
  (exists l, pending s' = pending s ++ l).
Proof.
  revert s; induction n as [|n IH]; intros s Hmax; cbn zeta.
  - cbn. repeat split. exists []. now rewrite app_nil_r.
  - cbn [_audio_processing_loop]. unfold Eff.bind.
    destruct (loop_body_consumes s Hmax) as (Hr & Hq & Hm & [l1 Hp]).
    cbn zeta in *.
    destruct (_audio_processing_loop_body recognize_google s) as [r s1].
    cbn [fst snd] in *. subst r.
    destruct (IH s1 Hm) as (Hr' & Hq' & [l2 Hp']). cbn zeta in *.
    repeat split; [exact Hr' | |].
    + rewrite Hq', Hq. destruct (Queue.items (audio_queue (self s))); [|reflexivity].
      cbn. now rewrite drop_nil.
    + exists (l1 ++ l2). rewrite Hp', Hp. now rewrite <- app_assoc.
Qed.

End Step.

Section Listening.
Variables Audio Callback World : Type.
Variable run_callback : Callback -> Payload -> World -> outcome unit * World.

(** X9. Starting to listen. [listen_for_commands] leaves the engine
    listening whatever its callback does, and touches neither the wake flag
    nor the queues; on an engine that listens already it does nothing, so
    two calls in a row await [on_listening_start] once; and
    [stop_listening] after it leaves the engine not listening and Idle. *)
Theorem listen_for_commands_idempotent (s : State Audio Callback World) :
  let s1 := snd (listen_for_commands run_callback s) in
  is_listening (self s1) = true /\
  wake_word_detected (self s1) = wake_word_detected (self s) /\
  pending s1 = pending s /\
  listen_for_commands run_callback s1 = (Ok tt, s1) /\
  (forall cb, is_listening (self s) = false ->
     on_listening_start (self s) = Some cb ->
     awaited (snd (listen_for_commands run_callback s1)) = awaited s ++ [(cb, ∅)]) /\
  (let s2 := snd (stop_listening run_callback s1) in
   is_listening (self s2) = false /\ wake_word_detected (self s2) = false).
Proof.
  assert (Hon : forall s' : State Audio Callback World,
             is_listening (self s') = true ->
             listen_for_commands run_callback s' = (Ok tt, s')).
  { intros s' H. unfold listen_for_commands, Eff.bind, Eff.gets. now rewrite H. }
  assert (H1 : is_listening (self (snd (listen_for_commands run_callback s))) = true
               /\ wake_word_detected (self (snd (listen_for_commands run_callback s)))
                  = wake_word_detected (self s)
               /\ pending (snd (listen_for_commands run_callback s)) = pending s
               /\ (forall cb, is_listening (self s) = false ->
                     on_listening_start (self s) = Some cb ->
                     awaited (snd (listen_for_commands run_callback s))
                     = awaited s ++ [(cb, ∅)])).
  { unfold listen_for_commands, pending, Eff.bind, Eff.gets.
    destruct (is_listening (self s)) eqn:E; cbn.
    - repeat split; [exact E | discriminate].
    - destruct (on_listening_start (self s)) as [cb|]; cbn.
      + unfold await. cbn. destruct (run_callback _ _ _) as [[?|?] ?]; cbn;
          (repeat split; intros cb' _ [= <-]; reflexivity).
      + repeat split. discriminate. }
  destruct H1 as (Hl & Hw & Hp & Hcb). cbn zeta.
  split; [exact Hl|]. split; [exact Hw|]. split; [exact Hp|].
  split; [now apply Hon|]. split.
  - intros cb Hoff Hsome. rewrite (Hon _ Hl). cbn [snd]. now apply Hcb.
  - unfold stop_listening, Eff.bind, Eff.gets. rewrite Hl. cbn.
    destruct (on_listening_stop _); cbn; [|auto].
    unfold await. cbn. now destruct (run_callback _ _ _) as [[?|?] ?].
Qed.

(** X10. Draining hands every command out once. After
    [get_pending_commands] an immediate second call returns the empty list,
    and the commands handled after a drain are exactly what the next drain
    returns. *)
Theorem get_pending_commands_once (cs : list string)
    (s : State Audio Callback World) :
  Queue.maxsize (command_queue (self s)) = 0%Z ->
  let s1 := snd (get_pending_commands (S (length (pending s))) s) in
  fst (get_pending_commands (S (length (pending s))) s) = Ok (Some (pending s)) /\
  fst (get_pending_commands 1 s1) = Ok (Some []) /\
  fst (get_pending_commands (S (length cs)) (handle_all cs s1)) = Ok (Some cs).
Proof.
  intros Hmax. cbn zeta. unfold get_pending_commands.
  rewrite (Detector.get_pending_loop_drains _ _ _ _ [] s) by lia.
  cbn [fst snd].
  set (s1 := with_self
               (set_command_queue
                  (Queue.mk (Queue.maxsize (command_queue (self s))) [])) s).
  assert (Hp1 : pending s1 = []) by reflexivity.
  assert (Hm1 : Queue.maxsize (command_queue (self s1)) = 0%Z) by exact Hmax.
  split; [reflexivity|]. split.
  - rewrite (Detector.get_pending_loop_drains _ _ _ _ [] s1) by (rewrite Hp1; cbn; lia).
    now rewrite Hp1.
  - pose proof (Detector.handle_all_queue _ _ _ cs s1 Hm1) as Hq.
    assert (Hp2 : pending (handle_all cs s1) = cs)
      by (unfold pending at 1; rewrite Hq, Hp1; reflexivity).
    rewrite (Detector.get_pending_loop_drains _ _ _ _ [] (handle_all cs s1))
      by (rewrite Hp2; lia).
    now rewrite Hp2.
Qed.

End Listening.

Lemma process_audio_never_raises_witness :
  Queue.full (command_queue (self fresh)) = false /\
  fst (_process_audio recognise (Raises (OtherError "connection reset")) fresh) = Ok tt.
Proof.
  split; [reflexivity|].
  apply (process_audio_never_raises Heard nat unit recognise
           (Raises (OtherError "connection reset")) fresh).
  reflexivity.
Defined.



Lemma wake_callback_without_loop_witness :
  pending (snd (_process_audio recognise (Returns "Hey Jarvis what time is it")
                  idle_with_on_wake_word))
  = [] /\
  wake_word_detected
    (self (snd (_process_audio recognise (Returns "Hey Jarvis what time is it")
                  idle_with_on_wake_word)))
  = true.
Proof.
  pose proof (wake_callback_without_loop Heard nat unit recognise
                (Returns "Hey Jarvis what time is it") "Hey Jarvis what time is it"
                5%nat idle_with_on_wake_word eq_refl eq_refl eq_refl eq_refl)
    as (_ & H2 & H3 & _).
  split; [exact H2 | exact H3].
Defined.



Lemma processing_loop_consumes_witness :
  Queue.maxsize (command_queue (self with_audio)) = 0%Z /\
  fst (_audio_processing_loop recognise 3 with_audio) = Ok tt /\
  Queue.items (audio_queue (self (snd (_audio_processing_loop recognise 3 with_audio))))
  = [].
Proof.
  split; [reflexivity|].
  pose proof (processing_loop_consumes Heard nat unit recognise 3 with_audio eq_refl)
    as (H1 & H2 & _).
  split; [exact H1 | exact H2].
Defined.

(** On that audio the three passes arm the engine, drop the noise and
    enqueue the command. *)
Lemma processing_loop_run :
  pending (snd (_audio_processing_loop recognise 3 with_audio))
  = ["turn on the lights"] /\
  wake_word_detected (self (snd (_audio_processing_loop recognise 3 with_audio)))
  = false.
Proof. vm_compute. split; reflexivity. Qed.

Lemma listen_for_commands_idempotent_witness :
  is_listening (self with_on_listening_start) = false /\
  on_listening_start (self with_on_listening_start) = Some 9%nat /\
  awaited (snd (listen_for_commands silent
                  (snd (listen_for_commands silent with_on_listening_start))))
  = [(9%nat, ∅)].
Proof.
  split; [reflexivity|]. split; [reflexivity|].
  apply (listen_for_commands_idempotent Heard nat unit silent
           with_on_listening_start); reflexivity.
Defined.

Lemma get_pending_commands_once_witness :
  Queue.maxsize (command_queue (self fresh)) = 0%Z /\
  fst (get_pending_commands 3
         (handle_all ["lights on"; "play music"]
            (snd (get_pending_commands 1 fresh))))
  = Ok (Some ["lights on"; "play music"]).
Proof.
  split; [reflexivity|].
  apply (get_pending_commands_once Heard nat unit ["lights on"; "play music"] fresh).
  reflexivity.
Defined.

End Utterance.


(** ** Capture, voice configuration and shutdown of the speech engine *)

Module EngineIO.
Import SpeechEngine SpeechEngineIO DetectorSpec UtteranceSpec SpeechEngineIOSpec.
Local Open Scope list_scope.

Section Capture.
Variables Audio Callback World : Type.
Variable listen : World -> capture Audio * World.

(** One pass of the capture loop in front of an unbounded audio queue. *)
Lemma capture_body_spec (s : State Audio Callback World) :
  Queue.maxsize (audio_queue (self s)) = 0%Z ->
  let c := fst (listen (world s)) in
  let s' := snd (_audio_capture_loop_body listen s) in
  fst (_audio_capture_loop_body listen s) = Ok tt /\
  Queue.maxsize (audio_queue (self s')) = 0%Z /\
  Queue.items (audio_queue (self s'))
  = Queue.items (audio_queue (self s)) ++ captured [c] /\
  logger s' = logger s ++ capture_log [c] /\
  world s' = snd (listen (world s)) /\
  is_listening (self s') = is_listening (self s) /\
  wake_word_detected (self s') = wake_word_detected (self s) /\
  pending s' = pending s.
Proof.
  intros Hmax. cbn zeta. unfold _audio_capture_loop_body, pending.
  destruct (listen (world s)) as [[audio| |e] w]; cbn.
  - unfold Eff.bind, Eff.gets, Queue.put, Queue.full. cbn. rewrite Hmax. cbn.
    repeat split. now rewrite app_nil_r.
  - repeat split; [assumption | now rewrite app_nil_r | now rewrite app_nil_r].
  - repeat split; [assumption | now rewrite app_nil_r].
Qed.

(** X11. The capture loop. On an engine that is not listening the loop is
    left at its first test, before the microphone is touched. On a
    listening engine with an unbounded audio queue nothing ends the loop:
    every pass returns, a timeout leaves no trace, any other failure of the
    microphone leaves one ERROR record, and the audio queue receives
    exactly the captured audio, in the order of capture, behind what was
    waiting. *)
Theorem capture_loop_collects (n : nat) (s : State Audio Callback World) :
  (is_listening (self s) = false ->
   _audio_capture_loop listen (S n) s = (Ok (Some tt), s)) /\
  (is_listening (self s) = true ->
   Queue.maxsize (audio_queue (self s)) = 0%Z ->
   let cs := fst (listens listen n (world s)) in
   let s' := snd (_audio_capture_loop listen n s) in
   fst (_audio_capture_loop listen n s) = Ok None /\
   Queue.items (audio_queue (self s'))
   = Queue.items (audio_queue (self s)) ++ captured cs /\
   logger s' = logger s ++ capture_log cs /\
   world s' = snd (listens listen n (world s)) /\
   is_listening (self s') = true /\
   wake_word_detected (self s') = wake_word_detected (self s) /\
   pending s' = pending s).
Proof.
  split.
  - intros H. cbn [_audio_capture_loop]. unfold Eff.bind, Eff.gets. now rewrite H.
  - revert s; induction n as [|n IH]; intros s Hl Hmax; cbn zeta.
    + cbn. repeat split; [now rewrite app_nil_r | now rewrite app_nil_r | assumption].
    + assert (Hstep : _audio_capture_loop listen (S n) s =
                      match _audio_capture_loop_body listen s with
                      | (Ok _, s1) => _audio_capture_loop listen n s1
                      | (Raise e, s1) => (Raise e, s1)
                      | (Blocks, s1) => (Blocks, s1)
                      end).
      { cbn [_audio_capture_loop]. unfold Eff.bind, Eff.gets. now rewrite Hl. }
      rewrite Hstep. clear Hstep.
      destruct (capture_body_spec s Hmax)
        as (Hr & Hm & Hq & Hlog & Hw & Hl' & Hwk & Hp).
      cbn zeta in *.
      destruct (_audio_capture_loop_body listen s) as [r s1]. cbn [fst snd] in *.
      subst r. rewrite Hl in Hl'.
      destruct (IH s1 Hl' Hm) as (Hr2 & Hq2 & Hlog2 & Hw2 & Hl2 & Hwk2 & Hp2).
      cbn zeta in *. rewrite Hw in Hq2, Hlog2, Hw2.
      cbn [listens].
      destruct (listen (world s)) as [c w1]. cbn [fst snd] in *.
      destruct (listens listen n w1) as [cs w2]. cbn [fst snd] in *.
      repeat split; [exact Hr2 | | | exact Hw2 | exact Hl2 | congruence | congruence].
      * rewrite Hq2, Hq. rewrite <- app_assoc. f_equal.
        destruct c; reflexivity.
      * rewrite Hlog2, Hlog. rewrite <- app_assoc. f_equal.
        destruct c; reflexivity.
Qed.

End Capture.

Section Voice.
Variables Audio Callback World : Type.
Variable run_callback : Callback -> Payload -> World -> outcome unit * World.
Variable tts_setProperty : string -> string -> World -> outcome unit * World.
Variable tts_stop : option (World -> outcome unit * World).

(** X12. [set_voice_config] never raises, and merges the given configuration
    into the engine's whether or not the TTS engine accepts it: the keys of
    [config] take their new values, the other keys keep theirs, so a new
    "language" is what the next recognition asks for. Nothing else of the
    engine changes, and one record is logged. *)
Theorem set_voice_config_merges (config : gmap string string)
    (s : State Audio Callback World) :
  let s' := snd (set_voice_config tts_setProperty config s) in
  fst (set_voice_config tts_setProperty config s) = Ok tt /\
  (forall k v, config !! k = Some v -> voice_config (self s') !! k = Some v) /\
  (forall k, config !! k = None ->
             voice_config (self s') !! k = voice_config (self s) !! k) /\
  language (self s') = default (language (self s)) (config !! "language") /\
  (is_listening (self s') = is_listening (self s) /\
   wake_word_detected (self s') = wake_word_detected (self s) /\
   audio_queue (self s') = audio_queue (self s) /\
   command_queue (self s') = command_queue (self s)) /\
  (exists r, logger s' = logger s ++ [r]).
Proof.
  cbn zeta.
  assert (H : fst (set_voice_config tts_setProperty config s) = Ok tt /\
              self (snd (set_voice_config tts_setProperty config s))
              = set_voice_config_attr (config ∪ voice_config (self s)) (self s) /\
              exists r, logger (snd (set_voice_config tts_setProperty config s))
                        = logger s ++ [r]).
  { unfold set_voice_config, tts, Eff.try_except, Eff.bind, Eff.modify, Eff.ret,
      log, of_outcome.
    repeat (cbn;
            match goal with
            | |- context [match ?x with _ => _ end] =>
                lazymatch x with
                | context [match _ with _ => _ end] => fail
                | _ => destruct x eqn:?
                end
            end);
      cbn; repeat split; eexists; reflexivity. }
  destruct H as (Hr & Hself & Hlog). rewrite Hself. cbn.
  split; [exact Hr|]. split; [|split; [|split; [|split; [auto | exact Hlog]]]].
  - intros k v Hk. now apply lookup_union_Some_l.
  - intros k Hk. now apply lookup_union_r.
  - unfold language. cbn. rewrite lookup_union.
    destruct (config !! "language"); cbn;
      destruct (voice_config (self s) !! "language"); reflexivity.
Qed.

(** X13. [shutdown] of the speech engine leaves it not listening and keeps
    the waiting commands. It ends as its call of [stop_listening] ends: an
    exception of the [on_listening_stop] callback leaves [shutdown], while
    one of the TTS engine's [stop] is swallowed and the shutdown still
    completes. *)
Theorem engine_shutdown (s : State Audio Callback World) :
  let s' := snd (shutdown run_callback tts_stop s) in
  is_listening (self s') = false /\
  pending s' = pending s /\
  fst (shutdown run_callback tts_stop s) = fst (stop_listening run_callback s) /\
  (fst (stop_listening run_callback s) = Ok tt ->
   last (logger s') = Some (INFO, "✅ Speech Engine shutdown complete")).
Proof.
  cbn zeta. unfold shutdown, stop_listening, pending, tts, await, log,
    Eff.try_except, Eff.bind, Eff.gets, Eff.modify, Eff.ret, of_outcome.
  cbn.
  destruct (is_listening (self s)) eqn:Hl; cbn.
  - destruct (on_listening_stop (self s)) as [cb|]; cbn.
    + destruct (run_callback cb ∅ (world s)) as [[[]|e] w]; cbn.
      * destruct tts_stop as [stop|]; cbn.
        -- destruct (stop w) as [[[]|e] w']; cbn;
             (repeat split; intros _; apply last_snoc).
        -- repeat split. intros _. apply last_snoc.
      * repeat split. discriminate.
    + destruct tts_stop as [stop|]; cbn.
      * destruct (stop (world s)) as [[[]|e] w']; cbn;
          (repeat split; intros _; apply last_snoc).
      * repeat split. intros _. apply last_snoc.
  - destruct tts_stop as [stop|]; cbn.
    + destruct (stop (world s)) as [[[]|e] w']; cbn;
        (repeat split; [exact Hl | intros _; apply last_snoc]).
    + repeat split; [exact Hl | intros _; apply last_snoc].
Qed.

End Voice.

Lemma capture_loop_collects_witness :
  is_listening (self at_microphone) = true /\
  Queue.maxsize (audio_queue (self at_microphone)) = 0%Z /\
  fst (_audio_capture_loop scripted 6 at_microphone) = Ok None /\
  Queue.items (audio_queue (self (snd (_audio_capture_loop scripted 6 at_microphone))))
  = [Returns "Hey Jarvis"; Returns "lights on"] /\
  logger (snd (_audio_capture_loop scripted 6 at_microphone))
  = [(ERROR, "Audio capture error: device busy")].
Proof.
  split; [reflexivity|]. split; [reflexivity|].
  pose proof (proj2 (capture_loop_collects Heard nat (list (capture Heard)) scripted
                       6 at_microphone) eq_refl eq_refl) as (H1 & H2 & H3 & _).
  split; [exact H1|]. split; [exact H2 | exact H3].
Defined.

Lemma set_voice_config_merges_witness :
  fst (set_voice_config no_rate {[ "rate" := "200"; "language" := "fr-FR" ]} fresh)
  = Ok tt /\
  language (self (snd (set_voice_config no_rate
                         {[ "rate" := "200"; "language" := "fr-FR" ]} fresh)))
  = "fr-FR" /\
  logger (snd (set_voice_config no_rate
                 {[ "rate" := "200"; "language" := "fr-FR" ]} fresh))
  = [(ERROR, "Voice config update error: invalid rate")].
Proof.
  pose proof (set_voice_config_merges Heard nat unit no_rate
                {[ "rate" := "200"; "language" := "fr-FR" ]} fresh)
    as (H1 & _ & _ & H4 & _).
  split; [exact H1|]. split; [exact H4 | reflexivity].
Defined.

Lemma engine_shutdown_witness :
  fst (stop_listening silent listening) = Ok tt /\
  fst (shutdown silent (Some failing_stop) listening) = Ok tt /\
  is_listening (self (snd (shutdown silent (Some failing_stop) listening))) = false /\
  last (logger (snd (shutdown silent (Some failing_stop) listening)))
  = Some (INFO, "✅ Speech Engine shutdown complete").
Proof.
  split; [reflexivity|].
  pose proof (engine_shutdown Heard nat unit silent (Some failing_stop) listening)
    as (H1 & _ & H3 & H4).
  split; [exact H3|]. split; [exact H1|]. apply H4. reflexivity.
Defined.

(** When the callback of [stop_listening] raises, [shutdown] raises with
    it, and the engine is not listening all the same. *)
Lemma engine_shutdown_callback_raises :
  fst (shutdown failing_callback (Some failing_stop) listening)
  = Raise (OtherError "callback failed") /\
  is_listening (self (snd (shutdown failing_callback (Some failing_stop) listening)))
  = false.
Proof. split; reflexivity. Qed.

End EngineIO.


(** ** The dispatch pipeline: traces and responses *)

Module Dispatch.
Import JarvisCore CoreSpec DispatchSpec CoreFacts.
Local Open Scope list_scope.

Section Adds.
Context {Time History Prefs Apps External World : Type}.
Context {collab : Collaborators Time History Prefs Apps External World}.
Variable P : Call Time History Prefs Apps External -> Prop.

Local Abbreviation adds :=
  (adds (Time := Time) (History := History) (Prefs := Prefs) (Apps := Apps)
     (External := External) (World := World) P).

Lemma adds_nothing {A} (m : Eff (State Time History Prefs Apps External World) A) :
  (forall s, calls (snd (m s)) = calls s) -> adds m.
Proof. intros H s. exists []. now rewrite H, app_nil_r. Qed.

Lemma adds_ret {A} (a : A) : adds (Eff.ret a).
Proof. now apply adds_nothing. Qed.

Lemma adds_raise {A} (e : exn) : adds (Eff.raise (A := A) e).
Proof. now apply adds_nothing. Qed.

Lemma adds_gets {A} (f : State Time History Prefs Apps External World -> A) :
  adds (Eff.gets f).
Proof. now apply adds_nothing. Qed.

Lemma adds_log (lvl : level) (msg : string) : adds (log lvl msg).
Proof. now apply adds_nothing. Qed.

Lemma adds_datetime_now : adds datetime_now.
Proof.
  apply adds_nothing. intros s. unfold datetime_now. now destruct (now (world s)).
Qed.

Lemma adds_bind_returns {A B} (Q : A -> Prop)
    (m : Eff (State Time History Prefs Apps External World) A)
    (k : A -> Eff (State Time History Prefs Apps External World) B) :
  adds m -> (forall s a s', m s = (Ok a, s') -> Q a) ->
  (forall a, Q a -> adds (k a)) -> adds (Eff.bind m k).
Proof.
  intros Hm HQ Hk s. unfold Eff.bind.
  destruct (Hm s) as (l1 & H1 & F1). specialize (HQ s).
  destruct (m s) as [[a|e|] s1]; cbn [snd] in *; [|now exists l1..].
  destruct (Hk a (HQ a s1 eq_refl) s1) as (l2 & H2 & F2).
  exists (l1 ++ l2). rewrite H2, H1, <- app_assoc. split; [reflexivity|].
  now apply Forall_app.
Qed.

Lemma adds_bind {A B}
    (m : Eff (State Time History Prefs Apps External World) A)
    (k : A -> Eff (State Time History Prefs Apps External World) B) :
  adds m -> (forall a, adds (k a)) -> adds (Eff.bind m k).
Proof.
  intros Hm Hk. apply (adds_bind_returns (fun _ => True)); auto.
Qed.

Lemma adds_try {A}
    (m : Eff (State Time History Prefs Apps External World) A)
    (h : exn -> Eff (State Time History Prefs Apps External World) A) :
  adds m -> (forall e, adds (h e)) -> adds (Eff.try_except m h).
Proof.
  intros Hm Hh s. unfold Eff.try_except.
  destruct (Hm s) as (l1 & H1 & F1).
  destruct (m s) as [[a|e|] s1]; cbn [snd] in *; [now exists l1| |now exists l1].
  destruct (Hh e s1) as (l2 & H2 & F2).
  exists (l1 ++ l2). rewrite H2, H1, <- app_assoc. split; [reflexivity|].
  now apply Forall_app.
Qed.

Lemma adds_call {A} c (f : World -> outcome A * World) : P c -> adds (call c f).
Proof.
  intros Hc s. exists [c]. unfold call. destruct (f (world s)) as [r w]. cbn.
  split; [reflexivity|]. now constructor.
Qed.

Lemma adds_on_component {A} comp method c (f : World -> outcome A * World) :
  P c -> adds (on_component comp method c f).
Proof.
  intros Hc. unfold on_component. apply adds_bind; [apply adds_gets|].
  intros [|]; [now apply adds_call | apply adds_raise].
Qed.

Lemma adds_JarvisResponse_new txt act dat conf :
  adds (JarvisResponse_new txt act dat conf).
Proof.
  unfold JarvisResponse_new. apply adds_bind; [apply adds_datetime_now|].
  intros t. apply adds_ret.
Qed.

End Adds.

Create HintDb adds.
#[export] Hint Resolve adds_ret adds_raise adds_gets adds_log adds_datetime_now
  adds_JarvisResponse_new : adds.

(** One step of a proof about the calls a computation adds, following its
    shape. *)
Ltac adds_step :=
  match goal with
  | |- adds _ (Eff.bind _ _) => apply adds_bind; [|intros ?]
  | |- adds _ (Eff.try_except _ _) => apply adds_try; [|intros ?]
  | |- adds _ (on_component _ _ _ _) => apply adds_on_component; reflexivity
  | |- adds _ (call _ _) => apply adds_call; reflexivity
  | |- adds _ (if ?c then _ else _) => destruct c
  | |- adds _ (match ?o with _ => _ end) => destruct o
  | |- adds _ _ => solve [auto with adds]
  end.

Ltac adds_tac := repeat adds_step.

Section Order.
Context {Time History Prefs Apps External World : Type}.
Context {collab : Collaborators Time History Prefs Apps External World}.

(** Computations that neither store nor deliver. *)
Local Abbreviation early :=
  (adds (Time := Time) (History := History) (Prefs := Prefs) (Apps := Apps)
     (External := External) (World := World) (fun c => late_call c = false)).

Lemma early_build_context command intent entities :
  early (_build_context command intent entities).
Proof. unfold _build_context, _get_user_location, _get_system_status. adds_tac. Qed.

Lemma early_handle_automation entities context confidence :
  early (_handle_automation_command entities context confidence).
Proof. unfold _handle_automation_command. adds_tac. Qed.

Lemma early_handle_information entities context confidence :
  early (_handle_information_command entities context confidence).
Proof.
  unfold _handle_information_command, _get_weather_info, _get_news_info,
    _get_time_info, _get_general_info.
  adds_tac.
Qed.

Lemma early_handle_system entities context confidence :
  early (_handle_system_command entities context confidence).
Proof. unfold _handle_system_command. adds_tac. Qed.

Lemma early_handle_unknown entities context confidence :
  early (_handle_unknown_command entities context confidence).
Proof. unfold _handle_unknown_command. adds_tac. Qed.

Lemma early_getattr_command name : early (getattr_command name).
Proof. unfold getattr_command. adds_tac. Qed.

Lemma getattr_command_early name s h s' :
  getattr_command name s = (Ok h, s') ->
  adds_handler (fun c => late_call c = false) h.
Proof.
  unfold getattr_command. destruct (extra_command_handler name); [|discriminate].
  intros [= <- _] entities context confidence. adds_tac.
Qed.

Lemma early_route_command intent entities context confidence :
  early (_route_command intent entities context confidence).
Proof.
  unfold _route_command.
  repeat (eapply adds_bind_returns;
          [apply early_getattr_command | apply getattr_command_early | intros ? ?]).
  cbn zeta.
  apply (handler_choice (adds_handler (fun c => late_call c = false)));
    [exact early_handle_unknown|].
  repeat (apply map_Forall_insert_2; [|]);
    [exact early_handle_automation | exact early_handle_information
    | exact early_handle_system | assumption | assumption | assumption
    | apply map_Forall_empty].
Qed.

Lemma early_steps_1_to_3 command source : early (steps_1_to_3 command source).
Proof.
  unfold steps_1_to_3. adds_tac.
  - apply early_build_context.
  - apply early_route_command.
Qed.

(** What storing does: nothing but raise without a memory manager, else
    one call with the record of this interaction. *)
Lemma store_interaction_eq command (r : JarvisResponse Time) source
    (s : State Time History Prefs Apps External World) :
  let i := mkInteraction (fst (now (world s))) command (text r) source (confidence r) in
  _store_interaction command r source s =
  if component (self s) memory_manager then
    (of_outcome (fst (store_interaction i (snd (now (world s))))),
     mkState (self s) (logger s) (calls s ++ [StoreInteraction i])
       (snd (store_interaction i (snd (now (world s))))))
  else
    (Raise (AttributeError "'NoneType' object has no attribute 'store_interaction'"),
     mkState (self s) (logger s) (calls s) (snd (now (world s)))).
Proof.
  cbn zeta. unfold _store_interaction, datetime_now, on_component, Eff.bind, Eff.gets, call.
  destruct (now (world s)) as [t w]. cbn.
  destruct (component (self s) memory_manager); [|reflexivity].
  cbn [world self logger calls]. now destruct (store_interaction _ w).
Qed.

(** What delivering does to the trace: nothing when it raises for want of
    the component or when the source is neither "voice" nor "web", else the
    one call of the source. *)
Lemma deliver_response_calls (r : JarvisResponse Time) source
    (s : State Time History Prefs Apps External World) :
  logger (snd (_deliver_response r source s)) = logger s /\
  (calls (snd (_deliver_response r source s)) = calls s ++ delivered r source \/
   calls (snd (_deliver_response r source s)) = calls s /\
   exists e, fst (_deliver_response r source s) = Raise e).
Proof.
  unfold _deliver_response, delivered, on_component, Eff.bind, Eff.gets, call.
  destruct (String.eqb source "voice"); [|destruct (String.eqb source "web")]; cbn.
  - destruct (component (self s) speech_engine); cbn.
    + destruct (speak _ _); cbn; auto.
    + split; [reflexivity|]. right. eauto.
  - destruct (component (self s) web_interface); cbn.
    + destruct (send_response _ _); cbn; auto.
    + split; [reflexivity|]. right. eauto.
  - split; [reflexivity|]. left. now rewrite app_nil_r.
Qed.

Lemma deliver_response_Ok (r : JarvisResponse Time) source
    (s s' : State Time History Prefs Apps External World) :
  _deliver_response r source s = (Ok tt, s') ->
  calls s' = calls s ++ delivered r source /\ logger s' = logger s.
Proof.
  intros H. destruct (deliver_response_calls r source s) as (Hl & Hc).
  rewrite H in Hl, Hc. cbn in Hl, Hc. split; [|exact Hl].
  destruct Hc as [Hc|(_ & e & He)]; [exact Hc | discriminate He].
Qed.

(** X14. Storing and delivering come last, in this order, at most once
    each, and only for a computed response: the calls [process_command]
    makes are calls that neither store nor deliver, followed by nothing, or
    by the storing of the interaction with the response of steps 1 to 3,
    alone or followed by the delivery call of the source. When steps 1 to 3
    raise, nothing is stored and nothing is delivered. *)
Theorem store_and_deliver_come_last (command source : string)
    (s : State Time History Prefs Apps External World) :
  exists first last,
    calls (snd (process_command command source s)) = calls s ++ first ++ last /\
    Forall (fun c => late_call c = false) first /\
    (last = [] \/
     exists r s3 t d,
       steps_1_to_3 command source s = (Ok r, s3) /\
       last = StoreInteraction
                (mkInteraction t command (text r) source (confidence r)) :: d /\
       (d = [] \/ d = delivered r source)).
Proof.
  unfold process_command, Eff.try_except, process_command_try.
  unfold Eff.bind at 1.
  destruct (early_steps_1_to_3 command source s) as (first & Hfirst & Hearly).
  exists first.
  assert (Hexcept : forall e (s1 : State Time History Prefs Apps External World),
            calls (snd (process_command_except e s1)) = calls s1)
    by (intros; now rewrite process_command_except_eq).
  destruct (steps_1_to_3 command source s) as [[r|e|] s3] eqn:E123; cbn [snd] in Hfirst.
  2,3: exists []; rewrite ?Hexcept; cbn [snd]; rewrite Hfirst, app_nil_r; auto.
  unfold Eff.bind at 1. rewrite store_interaction_eq. cbn zeta.
  destruct (component (self s3) memory_manager).
  2: { exists []. rewrite Hexcept. cbn. rewrite Hfirst, app_nil_r. auto. }
  set (i := mkInteraction _ command (text r) source (confidence r)).
  destruct (store_interaction i _) as [[[]|e] w4]; cbn [fst snd of_outcome].
  2: { exists [StoreInteraction i]. rewrite Hexcept. cbn. rewrite Hfirst, <- app_assoc.
       repeat split; [assumption|]. right. exists r, s3, (fst (now (world s3))), []. auto. }
  unfold Eff.bind, Eff.ret.
  match goal with |- context [_deliver_response r source ?s4] =>
    destruct (deliver_response_calls r source s4) as (_ & Hd);
    destruct (_deliver_response r source s4) as [[[]|e|] s5] end;
    cbn [fst snd calls] in Hd |- *; rewrite ?Hexcept; cbn [snd].
  all: destruct Hd as [Hd|(Hd & e' & He')]; try discriminate He'; rewrite Hd, Hfirst.
  all: try (exists (StoreInteraction i :: delivered r source);
            rewrite <- !app_assoc; repeat split; [assumption|];
            right; exists r, s3, (fst (now (world s3))), (delivered r source); now auto).
  all: exists [StoreInteraction i]; rewrite <- !app_assoc; repeat split; [assumption|];
       right; exists r, s3, (fst (now (world s3))), []; now auto.
Qed.

(** X15. When the [try] block of [process_command] completes, the response
    returned is the one steps 1 to 3 computed, the memory manager exists,
    and after those steps exactly this was called: the storing of a record
    with the command, the text and the confidence of that response and the
    source, then the delivery call of the source: [speak] with the text for
    "voice", [send_response] with the response for "web", and nothing for
    any other source, which is not an error. Nothing is logged on the way,
    and the attributes of [self] are as before. *)
Theorem completed_command_is_stored_then_delivered (command source : string)
    (s s' : State Time History Prefs Apps External World) r :
  process_command_try command source s = (Ok r, s') ->
  process_command command source s = (Ok r, s') /\
  component (self s) memory_manager = true /\
  self s' = self s /\
  exists s3 t,
    steps_1_to_3 command source s = (Ok r, s3) /\
    calls s' = calls s3
               ++ StoreInteraction
                    (mkInteraction t command (text r) source (confidence r))
               :: delivered r source /\
    logger s' = logger s3.
Proof.
  intros Htry.
  split; [unfold process_command, Eff.try_except; now rewrite Htry|].
  pose proof (quiet_process_command_try command source s) as (_ & Hself & _).
  rewrite Htry in Hself. cbn in Hself.
  unfold process_command_try in Htry.
  apply bind_Ok in Htry as (r1 & s3 & H123 & Htry).
  apply bind_Ok in Htry as ([] & s4 & H4 & Htry).
  apply bind_Ok in Htry as ([] & s5 & H5 & Htry).
  unfold Eff.ret in Htry. injection Htry as -> ->.
  pose proof (quiet_steps_1_to_3 command source s) as (_ & Hself3 & _).
  rewrite H123 in Hself3. cbn in Hself3.
  rewrite store_interaction_eq in H4. cbn zeta in H4. rewrite Hself3 in H4.
  destruct (component (self s) memory_manager); [|discriminate H4].
  split; [reflexivity|]. split; [exact Hself|].
  injection H4 as Hr4 <-.
  apply deliver_response_Ok in H5 as (Hc5 & Hl5). cbn in Hc5, Hl5.
  exists s3, (fst (now (world s3))). split; [exact H123|]. split; [|exact Hl5].
  rewrite Hc5, <- app_assoc. reflexivity.
Qed.

End Order.

Section Handlers.
Context {Time History Prefs Apps External World : Type}.
Context {collab : Collaborators Time History Prefs Apps External World}.

(** With one of the three intents whose handler the class defines,
    [_route_command] does what that handler does, once the attribute
    lookups pass. *)
Lemma route_defined i entities context conf
    (s s' : State Time History Prefs Apps External World) r :
  i ∈ defined_intents ->
  _route_command (Some i) entities context conf s = (Ok r, s') ->
  (i = "automation" /\ _handle_automation_command entities context conf s = (Ok r, s')) \/
  (i = "information" /\ _handle_information_command entities context conf s = (Ok r, s')) \/
  (i = "system_control" /\ _handle_system_command entities context conf s = (Ok r, s')).
Proof.
  intros Hi. unfold _route_command.
  intros H. apply bind_Ok in H as (h1 & s1 & H1 & H).
  apply bind_Ok in H as (h2 & s2 & H2 & H).
  apply bind_Ok in H as (h3 & s3 & H3 & H).
  assert (Hs : s3 = s).
  { unfold getattr_command in H1, H2, H3.
    unfold Eff.raise in *.
    destruct (extra_command_handler "_handle_entertainment_command"); [|discriminate].
    destruct (extra_command_handler "_handle_productivity_command"); [|discriminate].
    destruct (extra_command_handler "_handle_personal_command"); [|discriminate].
    unfold Eff.ret in *. congruence. }
  subst s3. cbn zeta in H. unfold defined_intents in Hi.
  rewrite !elem_of_cons in Hi.
  destruct Hi as [->|[->|[->|Hi]]]; [| | |now apply elem_of_nil in Hi];
    cbn in H; auto.
Qed.

Lemma response_new_Ok txt act dat conf
    (s s' : State Time History Prefs Apps External World) r :
  JarvisResponse_new txt act dat conf s = (Ok r, s') ->
  text r = txt /\ action r = act /\ data r = dat /\ confidence r = conf.
Proof.
  unfold JarvisResponse_new, datetime_now, Eff.bind, Eff.ret.
  destruct (now (world s)) as [t w]. intros [= <- _]. auto.
Qed.

(** What a defined handler answers, when it answers. *)
Lemma defined_handler_answer i entities context conf
    (s s' : State Time History Prefs Apps External World) r :
  (i = "automation" /\
   _handle_automation_command entities context conf s = (Ok r, s')) \/
  (i = "information" /\
   _handle_information_command entities context conf s = (Ok r, s')) \/
  (i = "system_control" /\
   _handle_system_command entities context conf s = (Ok r, s')) ->
  action r = Some i /\ confidence r = conf /\
  exists d, data r = Some d /\ text r = default (default_text i) (d !! text_key i).
Proof.
  intros [[-> H]|[[-> H]|[-> H]]];
    [unfold _handle_automation_command in H
    |unfold _handle_information_command in H
    |unfold _handle_system_command in H];
    apply bind_Ok in H as (d & s1 & _ & H);
    apply response_new_Ok in H as (Ht & Ha & Hd & Hc);
    (split; [now rewrite Ha|]); (split; [exact Hc|]); exists d; now rewrite Hd, Ht.
Qed.

Lemma response_new_calls txt act dat conf
    (s s' : State Time History Prefs Apps External World) r :
  JarvisResponse_new txt act dat conf s = (Ok r, s') -> calls s' = calls s.
Proof.
  unfold JarvisResponse_new, datetime_now, Eff.bind, Eff.ret.
  destruct (now (world s)) as [t w]. now intros [= _ <-].
Qed.

(** A call to a component that returned: what it returned, and the trace. *)
Lemma on_component_Ok {A} comp method c (f : World -> outcome A * World)
    (s s' : State Time History Prefs Apps External World) a :
  on_component comp method c f s = (Ok a, s') ->
  fst (f (world s)) = Returns a /\ calls s' = calls s ++ [c].
Proof.
  unfold on_component, Eff.bind, Eff.gets, Eff.raise, call.
  destruct (component (self s) comp); [|discriminate].
  destruct (f (world s)) as [[a'|e] w1]; cbn; [|discriminate].
  now intros [= -> <-].
Qed.

(** Steps 1 to 3, when they return: the context is built in the state the
    analysis left, and the response is the one routing gives. *)
Lemma steps_1_to_3_route command source
    (s s3 : State Time History Prefs Apps External World) nlp w r :
  analyze command (world s) = (Returns nlp, w) ->
  steps_1_to_3 command source s = (Ok r, s3) ->
  exists context s2,
    _build_context command (nlp_intent nlp) (default ∅ (nlp_entities nlp))
      (mkState (self s)
         (logger s ++ [(INFO, "🎯 Processing command: '" ++ command ++ "' from "
                              ++ source)%string])
         (calls s ++ [Analyze command]) w)
    = (Ok context, s2) /\
    _route_command (nlp_intent nlp) (default ∅ (nlp_entities nlp)) context
      (default 0.0%float (nlp_confidence nlp)) s2 = (Ok r, s3).
Proof.
  intros Ha. unfold steps_1_to_3.
  intros H. apply bind_Ok in H as ([] & s1 & H1 & H).
  apply bind_Ok in H as (nlp' & s2 & H2 & H).
  apply bind_Ok in H as (context & s2' & H3 & H).
  unfold log, Eff.modify in H1. injection H1 as <-.
  unfold on_component, Eff.bind, Eff.gets, call in H2. cbn in H2.
  destruct (component (self s) nlp_processor); [|discriminate].
  cbn in H2. rewrite Ha in H2. cbn in H2. injection H2 as <- <-.
  eauto.
Qed.

(** X16. A command whose analysed intent is "automation", "information" or
    "system_control" is answered by the handler of that intent: the
    response carries that intent as its action, the confidence of the
    analysis (0.0 when the analysis gives none), the handler's result as
    data, and as text the entry of that result under "message" ("text" for
    information), or the fixed text of the intent when the result has no
    such entry. The handler's result is what the automation engine returned
    when asked, in the state the building of the context left, to execute
    the action and target of the entities ([execute_automation], with the
    context, for "automation"; [execute_system_command] for
    "system_control"), and that call is the one call the handler adds; for
    "information" the response is the one [_handle_information_command]
    returns. The only other answer is the error response. *)
Theorem defined_intent_answer (command source : string)
    (s : State Time History Prefs Apps External World) nlp w i :
  analyze command (world s) = (Returns nlp, w) ->
  nlp_intent nlp = Some i ->
  i ∈ defined_intents ->
  exists r s',
    process_command command source s = (Ok r, s') /\
    ((action r = Some i /\
      confidence r = default 0.0%float (nlp_confidence nlp) /\
      (exists d, data r = Some d /\
                 text r = default (default_text i) (d !! text_key i)) /\
      exists context s2 s3,
        _build_context command (Some i) (default ∅ (nlp_entities nlp))
          (mkState (self s)
             (logger s ++ [(INFO, "🎯 Processing command: '" ++ command ++ "' from "
                                  ++ source)%string])
             (calls s ++ [Analyze command]) w)
        = (Ok context, s2) /\
        steps_1_to_3 command source s = (Ok r, s3) /\
        (i = "automation" ->
         exists d,
           fst (execute_automation (default ∅ (nlp_entities nlp) !! "action")
                  (default ∅ (nlp_entities nlp) !! "target") context (world s2))
           = Returns d /\
           data r = Some d /\
           calls s3
           = calls s2 ++ [ExecuteAutomation (default ∅ (nlp_entities nlp) !! "action")
                            (default ∅ (nlp_entities nlp) !! "target") context]) /\
        (i = "system_control" ->
         exists d,
           fst (execute_system_command (default ∅ (nlp_entities nlp) !! "action")
                  (default ∅ (nlp_entities nlp) !! "target") (world s2))
           = Returns d /\
           data r = Some d /\
           calls s3
           = calls s2 ++ [ExecuteSystemCommand
                            (default ∅ (nlp_entities nlp) !! "action")
                            (default ∅ (nlp_entities nlp) !! "target")]) /\
        (i = "information" ->
         _handle_information_command (default ∅ (nlp_entities nlp)) context
           (default 0.0%float (nlp_confidence nlp)) s2 = (Ok r, s3))) \/
     (text r = error_text /\ confidence r = 0.0%float)).
Proof.
  intros Ha Hint Hi.
  destruct (process_command_returns command source s) as (r & s' & Hr & Herr).
  exists r, s'. split; [exact Hr|].
  destruct (process_command_try command source s) as [[r0|e|] s0] eqn:E.
  - left. unfold process_command, Eff.try_except in Hr. rewrite E in Hr.
    injection Hr as -> ->.
    unfold process_command_try in E.
    apply bind_Ok in E as (r1 & s3 & H123 & E).
    apply bind_Ok in E as ([] & s4 & _ & E).
    apply bind_Ok in E as ([] & s5 & _ & E).
    injection E as -> _.
    destruct (steps_1_to_3_route _ _ _ _ _ _ _ Ha H123)
      as (context & s2 & Hctx & Hroute).
    rewrite Hint in Hctx, Hroute.
    apply (route_defined _ _ _ _ _ _ _ Hi) in Hroute.
    destruct (defined_handler_answer _ _ _ _ _ _ _ Hroute) as (Hact & Hconf & Hd).
    split; [exact Hact|]. split; [exact Hconf|]. split; [exact Hd|].
    exists context, s2, s3. split; [exact Hctx|]. split; [exact H123|].
    destruct Hroute as [[-> H]|[[-> H]|[-> H]]].
    + split; [|split; discriminate].
      intros _. unfold _handle_automation_command in H.
      apply bind_Ok in H as (d & s1 & Hcall & H).
      apply on_component_Ok in Hcall as (Hres & Hcalls).
      pose proof (response_new_calls _ _ _ _ _ _ _ H) as Hc3.
      apply response_new_Ok in H as (_ & _ & Hdata & _).
      exists d. split; [exact Hres|]. split; [exact Hdata|]. congruence.
    + split; [discriminate|]. split; [discriminate|]. intros _. exact H.
    + split; [discriminate|]. split; [|discriminate].
      intros _. unfold _handle_system_command in H.
      apply bind_Ok in H as (d & s1 & Hcall & H).
      apply on_component_Ok in Hcall as (Hres & Hcalls).
      pose proof (response_new_calls _ _ _ _ _ _ _ H) as Hc3.
      apply response_new_Ok in H as (_ & _ & Hdata & _).
      exists d. split; [exact Hres|]. split; [exact Hdata|]. congruence.
  - right. destruct (Herr e eq_refl) as (? & ? & _). auto.
  - destruct (quiet_process_command_try command source s) as (Hb & _).
    rewrite E in Hb. now contradiction Hb.
Qed.

Lemma append_nonempty (a : ascii) (s t : string) : (String a s ++ t)%string <> "".
Proof. change (String a (s ++ t)%string <> ""). discriminate. Qed.

(** X17. Information requests need no component: for all entities and in
    every state, [_handle_information_command] returns, having made no call
    and logged nothing, with the attributes of [self] untouched. The
    response has the action "information", the confidence passed in, a
    non-empty text, and as data the dictionary holding just that text. A
    "time" query reads the clock and ignores the subject; a "weather" query
    without subject (or with an empty one) is about the location of the
    context; a missing or other query type gives the general text, in which
    a missing subject reads "None". *)
Theorem information_needs_no_component (entities : Dict)
    (context : Context Time History Prefs Apps) (conf : float)
    (s : State Time History Prefs Apps External World) :
  exists r s',
    _handle_information_command entities context conf s = (Ok r, s') /\
    self s' = self s /\ logger s' = logger s /\ calls s' = calls s /\
    action r = Some "information" /\ confidence r = conf /\
    text r <> "" /\ data r = Some {[ "text" := text r ]} /\
    (entities !! "query_type" = Some "time" ->
     text r = ("The current time is " ++ strftime_I_M_p (fst (now (world s))))%string) /\
    (entities !! "query_type" = Some "weather" ->
     text r = ("Weather information for "
               ++ py_or (entities !! "subject") (user_location context)
               ++ " is not available right now.")%string) /\
    (entities !! "query_type" = Some "news" ->
     text r = ("Latest news about " ++ fmt (entities !! "subject")
               ++ " is not available right now.")%string) /\
    (entities !! "query_type" ∉ [Some "weather"; Some "news"; Some "time"] ->
     text r = ("I don't have specific information about "
               ++ fmt (entities !! "subject") ++ " right now.")%string).
Proof.
  unfold _handle_information_command, _get_weather_info, _get_news_info,
    _get_time_info, _get_general_info, JarvisResponse_new, datetime_now,
    Eff.bind, Eff.ret.
  assert (Hq : forall lit, is_str (entities !! "query_type") lit = true <->
                           entities !! "query_type" = Some lit).
  { intros lit. unfold is_str. destruct (entities !! "query_type") as [q|].
    - rewrite String.eqb_eq. split; congruence.
    - split; discriminate. }
  destruct (is_str (entities !! "query_type") "weather") eqn:Ew;
    [|destruct (is_str (entities !! "query_type") "news") eqn:En;
      [|destruct (is_str (entities !! "query_type") "time") eqn:Et]].
  - apply Hq in Ew. rewrite Ew. cbn.
    destruct (now (world s)) as [t w]. eexists _, _. split; [reflexivity|]. cbn.
    rewrite lookup_singleton_eq. cbn.
    repeat split; try discriminate; try apply append_nonempty.
    intros H. exfalso. apply H. left.
  - apply Hq in En. rewrite En. cbn.
    destruct (now (world s)) as [t w]. eexists _, _. split; [reflexivity|]. cbn.
    rewrite lookup_singleton_eq. cbn.
    repeat split; try discriminate; try apply append_nonempty.
    intros H. exfalso. apply H. right. left.
  - apply Hq in Et. rewrite Et. cbn.
    destruct (now (world s)) as [t w]. cbn. destruct (now w) as [t' w'].
    eexists _, _. split; [reflexivity|]. cbn.
    rewrite lookup_singleton_eq. cbn.
    repeat split; try discriminate; try apply append_nonempty.
    intros H. exfalso. apply H. right. right. left.
  - assert (Hnot : forall lit, is_str (entities !! "query_type") lit = false ->
                               entities !! "query_type" <> Some lit).
    { intros lit Hf Heq. apply Hq in Heq. congruence. }
    apply Hnot in Ew, En, Et. cbn.
    destruct (now (world s)) as [t w]. eexists _, _. split; [reflexivity|]. cbn.
    rewrite lookup_singleton_eq. cbn.
    repeat split; try congruence; try apply append_nonempty.
Qed.

End Handlers.
End Dispatch.


(** ** The event bus and the handlers of the core *)

Module Bus.
Import JarvisCore CoreSpec CoreFacts.
Local Open Scope list_scope.

Section Events.
Context {Time History Prefs Apps External World : Type}.
Context {collab : Collaborators Time History Prefs Apps External World}.

Lemma register_event_handler_other event_type h other
    (s : State Time History Prefs Apps External World) :
  other <> event_type ->
  event_handlers (self (snd (register_event_handler event_type h s))) !! other
  = event_handlers (self s) !! other.
Proof.
  intros Hne. unfold register_event_handler, Eff.modify. cbn.
  rewrite lookup_insert_ne by congruence.
  destruct (decide (is_Some (event_handlers (self s) !! event_type)));
    [reflexivity|].
  now rewrite lookup_insert_ne by congruence.
Qed.

Lemma register_event_handler_rest event_type h
    (s : State Time History Prefs Apps External World) :
  component (self (snd (register_event_handler event_type h s))) = component (self s) /\
  is_active (self (snd (register_event_handler event_type h s))) = is_active (self s) /\
  logger (snd (register_event_handler event_type h s)) = logger s /\
  calls (snd (register_event_handler event_type h s)) = calls s /\
  world (snd (register_event_handler event_type h s)) = world s.
Proof. cbn. auto. Qed.

(** What [emit_event] invokes, in terms of the registry. *)
Lemma emit_event_invocations event_type data
    (s : State Time History Prefs Apps External World) :
  invocations (calls (snd (emit_event event_type data s)))
  = invocations (calls s)
    ++ map (fun h => (h, default ∅ data)) (registered s event_type).
Proof.
  unfold emit_event, registered, Eff.bind, Eff.gets.
  destruct (event_handlers (self s) !! event_type) as [hs|]; cbn.
  - now destruct (emit_loop_spec hs (default ∅ data) s) as (_ & _ & ?).
  - now rewrite app_nil_r.
Qed.

(** X18. [register_event_handler] touches the list of its own event type
    only, which grows by one: the handlers of every other type, the
    components, [is_active], the log and the calls made stay as they are,
    and an event of another type invokes after the registration what it
    invoked before. *)
Theorem register_event_handler_only_its_type (event_type : string)
    (h : Handler External) (s : State Time History Prefs Apps External World) :
  let s' := snd (register_event_handler event_type h s) in
  length (registered s' event_type) = S (length (registered s event_type)) /\
  (forall other, other <> event_type ->
     event_handlers (self s') !! other = event_handlers (self s) !! other) /\
  component (self s') = component (self s) /\
  is_active (self s') = is_active (self s) /\
  logger s' = logger s /\ calls s' = calls s /\ world s' = world s /\
  (forall other data, other <> event_type ->
     invocations (calls (snd (emit_event other data s')))
     = invocations (calls s)
       ++ map (fun h => (h, default ∅ data)) (registered s other)).
Proof.
  cbn zeta. split.
  { rewrite (proj2 (register_event_handler_spec event_type h s)), length_app.
    cbn. lia. }
  split; [intros; now apply register_event_handler_other|].
  destruct (register_event_handler_rest event_type h s) as (?&?&?&Hc&?).
  repeat (split; [assumption|]).
  intros other data Hne. rewrite emit_event_invocations.
  rewrite Hc. unfold registered at 1.
  now rewrite register_event_handler_other.
Qed.

Lemma is_empty_spec (c : string) : PyStr.is_empty c = true <-> c = "".
Proof. destruct c; cbn; split; congruence. Qed.

(** X19. The handlers of the events "voice_command" and "web_command"
    never raise. With a payload that has no "command" entry, or an empty
    one, they do nothing beyond being invoked; otherwise they do what
    [process_command] does with that command and the source "voice" or
    "web", and discard the response. *)
Theorem command_event_handlers_never_raise (h : Handler External)
    (source : string) (data : Payload)
    (s : State Time History Prefs Apps External World) :
  (h = _handle_voice_command /\ source = "voice") \/
  (h = _handle_web_command /\ source = "web") ->
  let command := default "" (data !! "command") in
  let s1 := mkState (self s) (logger s) (calls s ++ [Invoke h data]) (world s) in
  fst (invoke h data s) = Ok tt /\
  (command = "" -> snd (invoke h data s) = s1) /\
  (command <> "" ->
   snd (invoke h data s) = snd (process_command command source s1)).
Proof.
  intros Hh. cbn zeta.
  assert (E : invoke h data s =
    (if PyStr.is_empty (default "" (data !! "command")) then Eff.ret tt
     else process_command (default "" (data !! "command")) source ;; Eff.ret tt)
      (mkState (self s) (logger s) (calls s ++ [Invoke h data]) (world s))).
  { destruct Hh as [[-> ->]|[-> ->]]; reflexivity. }
  rewrite E. clear E Hh.
  destruct (PyStr.is_empty (default "" (data !! "command"))) eqn:Hemp.
  - apply is_empty_spec in Hemp. cbn. repeat split. congruence.
  - assert (Hne : default "" (data !! "command") <> "").
    { intros Heq. apply is_empty_spec in Heq. congruence. }
    unfold Eff.bind, Eff.ret.
    match goal with |- context [process_command ?c ?src ?s1] =>
      destruct (process_command_returns c src s1) as (r & s' & Hr & _) end.
    rewrite Hr. cbn. repeat split. intros Heq. contradiction.
Qed.

(** X20. The handler of "wake_word_detected" logs the detection and plays
    the acknowledgment sound; when the event is emitted on a core whose
    speech engine was never created, the missing engine does not stop the
    event: [emit_event] returns, the handler was invoked, and the
    [AttributeError] is in the log. *)
Theorem wake_word_event_without_engine (data : option Payload)
    (s : State Time History Prefs Apps External World) :
  registered s "wake_word_detected" = [_handle_wake_word] ->
  component (self s) speech_engine = false ->
  emit_event "wake_word_detected" data s
  = (Ok tt,
     mkState (self s)
       (logger s ++
        [(INFO, "👂 Wake word detected");
         (ERROR, "Event handler error: 'NoneType' object has no attribute 'play_acknowledgment_sound'")])
       (calls s ++ [Invoke _handle_wake_word (default ∅ data)])
       (world s)).
Proof.
  intros Hreg Hc. unfold emit_event, Eff.bind at 1, Eff.gets.
  unfold registered in Hreg.
  destruct (event_handlers (self s) !! "wake_word_detected") as [hs|] eqn:E;
    cbn in Hreg; [|discriminate Hreg].
  subst hs. cbn [Eff.for_each].
  unfold Eff.bind, Eff.try_except, invoke, Eff.modify, log, on_component, Eff.gets,
    Eff.raise, Eff.ret, Eff.bind.
  cbn. rewrite Hc. cbn. now rewrite <- app_assoc.
Qed.

End Events.
End Bus.


(** ** Lifecycle of the core: what [initialize] and [shutdown] leave behind *)

Module Lifecycle.
Import JarvisCore CoreSpec CoreFacts Bus.
Local Open Scope list_scope.

Section StartStop.
Context {Time History Prefs Apps External World : Type}.
Context {collab : Collaborators Time History Prefs Apps External World}.

Local Abbreviation quiet :=
  (quiet (Time := Time) (History := History) (Prefs := Prefs) (Apps := Apps)
     (External := External) (World := World)).

(** Starting components changes, of the attributes of [self], only the
    components started; nothing is logged. *)
Lemma start_all_state cs (s : State Time History Prefs Apps External World) :
  let s' := snd (start_all cs s) in
  event_handlers (self s') = event_handlers (self s) /\
  is_active (self s') = is_active (self s) /\
  logger s' = logger s /\
  (forall c, c ∉ cs -> component (self s') c = component (self s) c).
Proof.
  cbn zeta. revert s; induction cs as [|c cs IH]; intros s.
  - cbn. auto.
  - rewrite start_all_cons, start_component_eq.
    destruct (construct c (world s)) as [[[]|e] w1].
    + destruct (initialize_component c w1) as [[[]|e] w2]; cbn [fst snd of_outcome].
      * match goal with |- context [start_all cs ?s1] =>
          destruct (IH s1) as (He & Ha & Hl & Hc) end.
        cbn in He, Ha, Hl. repeat split; try assumption.
        intros c' Hc'. rewrite not_elem_of_cons in Hc'. destruct Hc' as [Hne Hc'].
        rewrite (Hc c' Hc'). cbn.
        destruct (Component_eqb c c') eqn:E; [|reflexivity].
        destruct c, c'; try discriminate E; congruence.
      * cbn. repeat split. intros c' Hc'. rewrite not_elem_of_cons in Hc'.
        destruct (Component_eqb c c') eqn:E; [|reflexivity].
        destruct c, c', Hc'; try discriminate E; congruence.
    + cbn. auto.
Qed.

Lemma Component_eqb_refl c : Component_eqb c c = true.
Proof. now destruct c. Qed.

(** A component once set stays set while others are started. *)
Lemma start_all_keeps cs c (s : State Time History Prefs Apps External World) :
  component (self s) c = true -> component (self (snd (start_all cs s))) c = true.
Proof.
  revert s; induction cs as [|c0 cs IH]; intros s Hc; [exact Hc|].
  rewrite start_all_cons, start_component_eq.
  destruct (construct c0 (world s)) as [[[]|e] w1]; [|exact Hc].
  destruct (initialize_component c0 w1) as [[[]|e] w2]; cbn [fst snd of_outcome].
  - apply IH. cbn. now destruct (Component_eqb c0 c).
  - cbn. now destruct (Component_eqb c0 c).
Qed.

(** When every constructor and [initialize] returns, all components of the
    list are set. *)
Lemma start_all_sets cs (s : State Time History Prefs Apps External World) :
  (forall c w, fst (construct c w) = Returns tt) ->
  (forall c w, fst (initialize_component c w) = Returns tt) ->
  forall c, c ∈ cs -> component (self (snd (start_all cs s))) c = true.
Proof.
  intros Hc Hi. revert s; induction cs as [|c0 cs IH]; intros s c Hin.
  - now apply elem_of_nil in Hin.
  - rewrite start_all_cons, start_component_eq.
    pose proof (Hc c0 (world s)) as Hc'.
    destruct (construct c0 (world s)) as [[[]|e] w1]; [|discriminate Hc'].
    rewrite Hi. cbn [of_outcome].
    apply elem_of_cons in Hin as [->|Hin].
    + apply start_all_keeps. cbn. now rewrite Component_eqb_refl.
    + now apply IH.
Qed.

Lemma Component_eqb_neq c c' : c <> c' -> Component_eqb c c' = false.
Proof. destruct c, c'; intros H; try reflexivity; now contradiction H. Qed.

(** The first component that fails ends the loop with its exception; the
    components before it are set, and no other but itself is touched. *)
Lemma start_all_raises pre c post e
    (s : State Time History Prefs Apps External World) :
  (forall c' w, c' ∈ pre ->
     fst (construct c' w) = Returns tt /\ fst (initialize_component c' w) = Returns tt) ->
  (forall w, fst (construct c w) = Raises e) \/
  ((forall w, fst (construct c w) = Returns tt) /\
   (forall w, fst (initialize_component c w) = Raises e)) ->
  fst (start_all (pre ++ c :: post) s) = Raise e /\
  (forall c', c' ∈ pre ->
     component (self (snd (start_all (pre ++ c :: post) s))) c' = true) /\
  (forall c', c' ∉ pre -> c' <> c ->
     component (self (snd (start_all (pre ++ c :: post) s))) c'
     = component (self s) c').
Proof.
  intros Hpre Hfail. revert s; induction pre as [|p pre IH]; intros s.
  - cbn [app]. rewrite start_all_cons, start_component_eq.
    destruct Hfail as [Hf|[Hc Hf]].
    + specialize (Hf (world s)). destruct (construct c (world s)) as [[[]|e'] w1];
        cbn in Hf |- *; [discriminate|].
      split; [congruence|]. split; [intros c' Hin; now apply elem_of_nil in Hin|].
      reflexivity.
    + specialize (Hc (world s)). destruct (construct c (world s)) as [[[]|e'] w1];
        cbn in Hc |- *; [|discriminate]. rewrite Hf. cbn.
      split; [reflexivity|]. split; [intros c' Hin; now apply elem_of_nil in Hin|].
      intros c' _ Hne. now rewrite Component_eqb_neq by congruence.
  - cbn [app]. rewrite start_all_cons, start_component_eq.
    assert (Hpre' : forall c' w, c' ∈ pre ->
              fst (construct c' w) = Returns tt /\
              fst (initialize_component c' w) = Returns tt)
      by (intros; apply Hpre; now right).
    destruct (Hpre p (world s)) as [Hc _]; [left|].
    destruct (construct p (world s)) as [[[]|e'] w1]; cbn in Hc; [|discriminate].
    destruct (Hpre p w1) as [_ Hi]; [left|]. rewrite Hi. cbn [of_outcome].
    match goal with |- context [start_all _ ?s1] =>
      destruct (IH Hpre' s1) as (Hr & Hset & Hrest) end.
    split; [exact Hr|]. split.
    + intros c' Hin. apply elem_of_cons in Hin as [->|Hin].
      * apply start_all_keeps. cbn. now rewrite Component_eqb_refl.
      * now apply Hset.
    + intros c' Hnin Hne. rewrite not_elem_of_cons in Hnin.
      destruct Hnin as [Hp Hnin]. rewrite (Hrest c' Hnin Hne). cbn.
      now rewrite Component_eqb_neq by congruence.
Qed.

Lemma bind_register {B} event_type h
    (k : unit -> Eff (State Time History Prefs Apps External World) B)
    (s : State Time History Prefs Apps External World) :
  Eff.bind (register_event_handler event_type h) k s
  = k tt (snd (register_event_handler event_type h s)).
Proof. reflexivity. Qed.

Lemma register_returns event_type h
    (s : State Time History Prefs Apps External World) :
  register_event_handler event_type h s
  = (Ok tt, snd (register_event_handler event_type h s)).
Proof. reflexivity. Qed.

Lemma registered_set_is_active
    (s : State Time History Prefs Apps External World) b l c w t :
  registered
    (mkState (Time := Time) (History := History) (Prefs := Prefs) (Apps := Apps)
       (World := World) (set_is_active b (self s)) l c w) t
  = registered s t.
Proof. reflexivity. Qed.

(** [_setup_event_handlers] on an instance that supplies both missing
    handlers. *)
Lemma setup_event_handlers_supplied a b
    (s : State Time History Prefs Apps External World) :
  extra_event_handler "_handle_system_alert" = Some a ->
  extra_event_handler "_handle_automation" = Some b ->
  _setup_event_handlers s =
  (Ok tt,
   snd (register_event_handler "web_command" _handle_web_command
     (snd (register_event_handler "automation_trigger" (external b)
       (snd (register_event_handler "system_alert" (external a)
         (snd (register_event_handler "wake_word_detected" _handle_wake_word
           (snd (register_event_handler "voice_command" _handle_voice_command
                   s)))))))))).
Proof.
  intros Ha Hb. unfold _setup_event_handlers, getattr_event. rewrite Ha, Hb.
  rewrite !bind_register. unfold Eff.bind at 1, Eff.ret at 1.
  rewrite !bind_register. unfold Eff.bind at 1, Eff.ret at 1.
  rewrite !bind_register. apply register_returns.
Qed.

(** The same on an instance without [_handle_system_alert]. *)
Lemma setup_event_handlers_plain
    (s : State Time History Prefs Apps External World) :
  extra_event_handler "_handle_system_alert" = None ->
  _setup_event_handlers s =
  (Raise (AttributeError "'JarvisCore' object has no attribute '_handle_system_alert'"),
   snd (register_event_handler "wake_word_detected" _handle_wake_word
          (snd (register_event_handler "voice_command" _handle_voice_command s)))).
Proof.
  intros Ha. unfold _setup_event_handlers, getattr_event. rewrite Ha.
  now rewrite !bind_register.
Qed.

(** The handlers of an event type after a registration. *)
Lemma registered_after event_type h t
    (s : State Time History Prefs Apps External World) :
  registered (snd (register_event_handler event_type h s)) t
  = if decide (t = event_type) then registered s t ++ [h] else registered s t.
Proof.
  destruct (decide (t = event_type)) as [->|Hne].
  - apply register_event_handler_spec.
  - unfold registered. now rewrite register_event_handler_other.
Qed.

(** [initialize], by the outcome of starting the components and of the
    registrations. *)
Lemma initialize_run (s : State Time History Prefs Apps External World) :
  let s1 := mkState (self s)
              (logger s ++ [(INFO, "🔧 Initializing JARVIS components...")])
              (calls s) (world s) in
  let failed e (s' : State Time History Prefs Apps External World) :=
    (Raise (A := unit) e,
     mkState (self s')
       (logger s' ++ [(ERROR, "❌ Component initialization failed: " ++ exn_str e)%string])
       (calls s') (world s')) in
  initialize s =
  match start_all init_order s1 with
  | (Ok _, s2) =>
      match _setup_event_handlers s2 with
      | (Ok _, s3) =>
          (Ok tt,
           mkState (set_is_active true (self s3))
             (logger s3 ++ [(INFO, "✅ All JARVIS components initialized")])
             (calls s3) (world s3))
      | (Raise e, s3) => failed e s3
      | (Blocks, s3) => (Blocks, s3)
      end
  | (Raise e, s2) => failed e s2
  | (Blocks, s2) => (Blocks, s2)
  end.
Proof.
  cbn zeta. rewrite initialize_eq.
  unfold Eff.try_except, Eff.bind, log, Eff.modify, Eff.raise.
  destruct (start_all init_order _) as [[[]|e|] s2]; [|reflexivity..].
  destruct (_setup_event_handlers s2) as [[[]|e|] s3]; reflexivity.
Qed.

(** X21. When every component is constructed and initialized without
    error and the instance supplies [_handle_system_alert] and
    [_handle_automation], [initialize] returns with all six components
    set, [is_active] true and one more handler on each of the five event
    types, after the ones registered before; nothing is replaced, so a
    second [initialize] registers every handler a second time. *)
Theorem initialize_activates (s : State Time History Prefs Apps External World) a b :
  (forall c w, fst (construct c w) = Returns tt) ->
  (forall c w, fst (initialize_component c w) = Returns tt) ->
  extra_event_handler "_handle_system_alert" = Some a ->
  extra_event_handler "_handle_automation" = Some b ->
  let s' := snd (initialize s) in
  fst (initialize s) = Ok tt /\
  is_active (self s') = true /\
  (forall c, component (self s') c = true) /\
  registered s' "voice_command" = registered s "voice_command" ++ [_handle_voice_command] /\
  registered s' "wake_word_detected"
  = registered s "wake_word_detected" ++ [_handle_wake_word] /\
  registered s' "system_alert" = registered s "system_alert" ++ [external a] /\
  registered s' "automation_trigger" = registered s "automation_trigger" ++ [external b] /\
  registered s' "web_command" = registered s "web_command" ++ [_handle_web_command] /\
  logger s' = logger s ++ [(INFO, "🔧 Initializing JARVIS components...");
                           (INFO, "✅ All JARVIS components initialized")].
Proof.
  intros Hc Hi Ha Hb. cbn zeta. rewrite initialize_run. cbn zeta.
  match goal with |- context [start_all init_order ?s0] => set (s1 := s0) end.
  destruct (start_all_returns init_order s1 Hc Hi) as (Hr & _).
  pose proof (start_all_sets init_order s1 Hc Hi) as Hset.
  destruct (start_all_state init_order s1) as (Hev & Hact & Hlog & _).
  destruct (start_all init_order s1) as [r2 s2]. cbn [fst snd] in *. subst r2.
  rewrite (setup_event_handlers_supplied a b) by assumption.
  match goal with |- context [set_is_active true (self ?s0)] => set (s5 := s0) end.
  cbn [fst snd].
  assert (Hreg : forall t, registered s2 t = registered s t)
    by (intros t; unfold registered; now rewrite Hev).
  rewrite !registered_set_is_active.
  split; [reflexivity|]. split; [reflexivity|].
  split.
  { intros c. cbn [self set_is_active component]. unfold s5.
    rewrite !(proj1 (register_event_handler_rest _ _ _)).
    apply Hset. unfold init_order. rewrite !elem_of_cons. destruct c; auto 10. }
  repeat match goal with |- _ /\ _ => split end.
  6: { cbn [logger]. unfold s5.
       rewrite !(proj1 (proj2 (proj2 (register_event_handler_rest _ _ _)))).
       rewrite Hlog. unfold s1. cbn [logger]. now rewrite <- app_assoc. }
  all: unfold s5; rewrite !registered_after;
       repeat first [rewrite decide_True by reflexivity
                    |rewrite decide_False by discriminate];
       now rewrite Hreg.
Qed.

(** X22. On an instance without [_handle_system_alert], which is every
    plain [JarvisCore()], [initialize] raises [AttributeError] although
    every component was constructed and initialized: all six components
    are set and all twelve calls were made, the handlers of the first two
    event types are registered and those of the other three are not,
    [is_active] is as before, and the failure is logged. *)
Theorem initialize_without_system_alert_handler
    (s : State Time History Prefs Apps External World) :
  (forall c w, fst (construct c w) = Returns tt) ->
  (forall c w, fst (initialize_component c w) = Returns tt) ->
  extra_event_handler "_handle_system_alert" = None ->
  let s' := snd (initialize s) in
  let e := AttributeError "'JarvisCore' object has no attribute '_handle_system_alert'" in
  fst (initialize s) = Raise e /\
  is_active (self s') = is_active (self s) /\
  (forall c, component (self s') c = true) /\
  calls s' = calls s ++ start_calls init_order /\
  registered s' "voice_command" = registered s "voice_command" ++ [_handle_voice_command] /\
  registered s' "wake_word_detected"
  = registered s "wake_word_detected" ++ [_handle_wake_word] /\
  (forall t, t ∈ ["system_alert"; "automation_trigger"; "web_command"] ->
     registered s' t = registered s t) /\
  logger s' = logger s ++ [(INFO, "🔧 Initializing JARVIS components...");
                           (ERROR, "❌ Component initialization failed: " ++ exn_str e)%string].
Proof.
  intros Hc Hi Ha. cbn zeta. rewrite initialize_run. cbn zeta.
  match goal with |- context [start_all init_order ?s0] => set (s1 := s0) end.
  destruct (start_all_returns init_order s1 Hc Hi) as (Hr & Hcalls).
  pose proof (start_all_sets init_order s1 Hc Hi) as Hset.
  destruct (start_all_state init_order s1) as (Hev & Hact & Hlog & _).
  destruct (start_all init_order s1) as [r2 s2]. cbn [fst snd] in *. subst r2.
  rewrite setup_event_handlers_plain by assumption.
  match goal with |- context [mkState (self ?s0)] => set (s5 := s0) end.
  cbn [fst snd].
  assert (Hreg : forall t, registered s2 t = registered s t)
    by (intros t; unfold registered; now rewrite Hev).
  assert (Hreg5 : forall l c w t,
            registered (mkState (Time := Time) (History := History) (Prefs := Prefs)
                          (Apps := Apps) (World := World) (self s5) l c w) t
            = registered s5 t) by reflexivity.
  rewrite !Hreg5.
  split; [reflexivity|]. cbn [self logger calls].
  split.
  { unfold s5. rewrite !(proj1 (proj2 (register_event_handler_rest _ _ _))).
    exact Hact. }
  split.
  { intros c. unfold s5. rewrite !(proj1 (register_event_handler_rest _ _ _)).
    apply Hset. unfold init_order. rewrite !elem_of_cons. destruct c; auto 10. }
  split.
  { unfold s5.
    rewrite !(proj1 (proj2 (proj2 (proj2 (register_event_handler_rest _ _ _))))).
    exact Hcalls. }
  repeat match goal with |- _ /\ _ => split end.
  4: { unfold s5.
       rewrite !(proj1 (proj2 (proj2 (register_event_handler_rest _ _ _)))).
       rewrite Hlog. unfold s1. cbn [logger]. now rewrite <- app_assoc. }
  3: { intros t Ht. rewrite !elem_of_cons in Ht.
       destruct Ht as [->|[->|[->|Ht]]]; [| | |now apply elem_of_nil in Ht].
       all: rewrite Hreg5; unfold s5; rewrite !registered_after;
            repeat first [rewrite decide_True by reflexivity
                         |rewrite decide_False by discriminate];
            now rewrite Hreg. }
  all: unfold s5; rewrite !registered_after;
       repeat first [rewrite decide_True by reflexivity
                    |rewrite decide_False by discriminate];
       now rewrite Hreg.
Qed.

(** X23. When a component fails to start, [initialize] logs the failure
    and raises the same exception again, with nothing rolled back: the
    components started before it stay set, those after it stay as they
    were, no event handler is registered and [is_active] keeps its
    value. *)
Theorem initialize_failure_is_reraised (pre post : list Component) (c : Component)
    (e : exn) (s : State Time History Prefs Apps External World) :
  init_order = pre ++ c :: post ->
  (forall c' w, c' ∈ pre ->
     fst (construct c' w) = Returns tt /\ fst (initialize_component c' w) = Returns tt) ->
  (forall w, fst (construct c w) = Raises e) \/
  ((forall w, fst (construct c w) = Returns tt) /\
   (forall w, fst (initialize_component c w) = Raises e)) ->
  let s' := snd (initialize s) in
  fst (initialize s) = Raise e /\
  last (logger s')
  = Some (ERROR, "❌ Component initialization failed: " ++ exn_str e)%string /\
  is_active (self s') = is_active (self s) /\
  event_handlers (self s') = event_handlers (self s) /\
  (forall c', c' ∈ pre -> component (self s') c' = true) /\
  (forall c', c' ∈ post -> component (self s') c' = component (self s) c').
Proof.
  intros Hsplit Hpre Hfail. cbn zeta. rewrite initialize_run. cbn zeta.
  match goal with |- context [start_all init_order ?s0] => set (s1 := s0) end.
  destruct (start_all_state init_order s1) as (Hev & Hact & _ & _).
  rewrite Hsplit in *.
  destruct (start_all_raises pre c post e s1 Hpre Hfail) as (Hr & Hset & Hrest).
  destruct (start_all (pre ++ c :: post) s1) as [r2 s2]. cbn [fst snd] in *. subst r2.
  cbn [fst snd self logger].
  split; [reflexivity|]. split; [apply last_snoc|].
  split; [exact Hact|]. split; [exact Hev|]. split; [exact Hset|].
  intros c' Hin.
  assert (Hnodup : NoDup (pre ++ c :: post)).
  { rewrite <- Hsplit. unfold init_order.
    repeat (apply NoDup_cons; split;
            [rewrite ?elem_of_cons, elem_of_nil; intuition discriminate|]).
    apply NoDup_nil_2. }
  apply NoDup_app in Hnodup as (_ & Hdis & Hpost).
  apply NoDup_cons in Hpost as (Hc & _).
  apply Hrest.
  - intros Hin'. apply (Hdis c' Hin'). now right.
  - intros ->. contradiction.
Qed.

Lemma quiet_stop_all cs : quiet (stop_all cs).
Proof.
  induction cs as [|c cs IH]; [apply quiet_ret|].
  unfold stop_all. cbn [Eff.for_each].
  apply quiet_bind; [unfold stop_component; quiet_tac | intros _; exact IH].
Qed.

(** [shutdown] when every component shuts down without raising. *)
Lemma shutdown_returns (s : State Time History Prefs Apps External World) :
  (forall c w, fst (shutdown_component c w) = Returns tt) ->
  fst (shutdown s) = Ok tt /\
  calls (snd (shutdown s))
  = calls s ++ map Shutdown (List.filter (component (self s)) shutdown_order).
Proof.
  intros Hok. rewrite shutdown_eq.
  unfold Eff.bind, log, Eff.modify.
  match goal with |- context [stop_all shutdown_order ?s0] =>
    destruct (stop_all_returns shutdown_order s0 Hok) as (Hr & _ & Hcalls);
    destruct (stop_all shutdown_order s0) as [r s1] end.
  cbn [fst snd with_self self calls set_is_active component] in Hr, Hcalls.
  subst r. cbn [fst snd calls]. auto.
Qed.

(** What [shutdown] does to the attributes of [self]. *)
Lemma shutdown_self (s : State Time History Prefs Apps External World) :
  self (snd (shutdown s)) = set_is_active false (self s).
Proof.
  rewrite shutdown_eq. unfold Eff.bind, log, Eff.modify.
  match goal with |- context [stop_all shutdown_order ?s0] =>
    destruct (quiet_stop_all shutdown_order s0) as (_ & Hs & _);
    destruct (stop_all shutdown_order s0) as [[[]|e|] s1] end;
    exact Hs.
Qed.

(** X24. [shutdown] clears [is_active] whatever happens later, also when
    the shutdown of a component raises, and forgets nothing: the
    components stay set and the registered handlers stay registered. So
    without components it makes no call and only logs, and it is not
    idempotent: a second [shutdown] shuts every component down again. *)
Theorem shutdown_keeps_components (s : State Time History Prefs Apps External World) :
  let s' := snd (shutdown s) in
  is_active (self s') = false /\
  component (self s') = component (self s) /\
  event_handlers (self s') = event_handlers (self s) /\
  ((forall c, c ∈ shutdown_order -> component (self s) c = false) ->
   shutdown s
   = (Ok tt,
      mkState (set_is_active false (self s))
        (logger s ++ [(INFO, "🔄 Shutting down JARVIS components...");
                      (INFO, "✅ JARVIS shutdown complete")])
        (calls s) (world s))) /\
  ((forall c w, fst (shutdown_component c w) = Returns tt) ->
   let stopped := map Shutdown (List.filter (component (self s)) shutdown_order) in
   fst (shutdown s') = Ok tt /\
   calls (snd (shutdown s')) = calls s ++ stopped ++ stopped).
Proof.
  cbn zeta. rewrite shutdown_self. cbn [set_is_active is_active component event_handlers].
  repeat match goal with |- _ /\ _ => split; [reflexivity|] end.
  split.
  - intros Hnone. rewrite shutdown_eq. unfold shutdown_order, stop_all.
    cbn [Eff.for_each]. unfold Eff.bind, log, Eff.modify.
    rewrite !stop_component_absent
      by (cbn; apply Hnone; unfold shutdown_order; rewrite !elem_of_cons; auto 10).
    cbn. now rewrite <- app_assoc.
  - intros Hok.
    destruct (shutdown_returns (snd (shutdown s)) Hok) as (Hr & Hcalls).
    split; [exact Hr|]. rewrite Hcalls, shutdown_self.
    rewrite (proj2 (shutdown_returns s Hok)). cbn [set_is_active component].
    now rewrite <- app_assoc.
Qed.

(** Starting components returns or raises. *)
Lemma start_all_not_blocks cs (s : State Time History Prefs Apps External World) :
  fst (start_all cs s) <> Blocks.
Proof.
  revert s; induction cs as [|c cs IH]; intros s; [discriminate|].
  rewrite start_all_cons, start_component_eq.
  destruct (construct c (world s)) as [[[]|e] w1]; [|discriminate].
  destruct (initialize_component c w1) as [[[]|e] w2]; cbn [fst snd of_outcome];
    [apply IH | discriminate].
Qed.

(** [initialize] returns or raises, and returns only with [is_active]
    set. *)
Lemma initialize_outcome (s : State Time History Prefs Apps External World) :
  (fst (initialize s) = Ok tt /\ is_active (self (snd (initialize s))) = true) \/
  (exists e, fst (initialize s) = Raise e).
Proof.
  rewrite initialize_run. cbn zeta.
  match goal with |- context [start_all init_order ?s0] =>
    pose proof (start_all_not_blocks init_order s0) as Hb;
    destruct (start_all init_order s0) as [[[]|e|] s2] end;
    cbn [fst] in Hb; [|right; now exists e|now contradiction Hb].
  assert (Hsetup : fst (_setup_event_handlers s2) <> Blocks).
  { unfold _setup_event_handlers, getattr_event.
    rewrite !bind_register. unfold Eff.bind at 1.
    destruct (extra_event_handler "_handle_system_alert"); [|discriminate].
    unfold Eff.ret at 1. rewrite !bind_register. unfold Eff.bind at 1.
    destruct (extra_event_handler "_handle_automation"); [|discriminate].
    unfold Eff.ret at 1. rewrite !bind_register. rewrite register_returns.
    discriminate. }
  destruct (_setup_event_handlers s2) as [[[]|e|] s3]; cbn [fst] in Hsetup;
    [left; now split | right; now exists e | now contradiction Hsetup].
Qed.

(** On an instance without [_handle_system_alert], [initialize] never
    returns. *)
Lemma initialize_plain_raises (s : State Time History Prefs Apps External World) :
  extra_event_handler "_handle_system_alert" = None ->
  exists e, fst (initialize s) = Raise e.
Proof.
  intros Ha. rewrite initialize_run. cbn zeta.
  match goal with |- context [start_all init_order ?s0] =>
    pose proof (start_all_not_blocks init_order s0) as Hb;
    destruct (start_all init_order s0) as [[[]|e|] s2] end;
    cbn [fst] in Hb; [|now exists e|now contradiction Hb].
  rewrite setup_event_handlers_plain by assumption. eexists. reflexivity.
Qed.

End StartStop.
End Lifecycle.


(** ** The health check of the core *)

Module HealthFacts.
Import JarvisCore CoreSpec CoreFacts JarvisCoreHealth HealthSpec.
Local Open Scope list_scope.

Section Checks.
Context {Time History Prefs Apps External World : Type}.
Variable Health : Type.
Variable truth : Health -> bool.
Variable repr : Health -> string.
Variable component_health_check : Component -> World -> outcome Health * World.

Local Abbreviation health_check :=
  (health_check (Time := Time) (History := History) (Prefs := Prefs) (Apps := Apps)
     (External := External) truth repr component_health_check).

(** The check of one component. *)
Lemma component_health_eq c (s : State Time History Prefs Apps External World) :
  component_health component_health_check c s =
  if component (self s) c then
    (of_outcome (fst (component_health_check c (world s))),
     mkState (self s) (logger s) (calls s ++ [HealthCheck c])
       (snd (component_health_check c (world s))))
  else
    (Raise (AttributeError "'NoneType' object has no attribute 'health_check'"), s).
Proof.
  unfold component_health, on_component, Eff.bind, Eff.gets, call.
  destruct (component (self s) c); [|reflexivity].
  now destruct (component_health_check c (world s)).
Qed.

(** The health check returns or raises. *)
Lemma health_check_not_blocks (s : State Time History Prefs Apps External World) :
  fst (health_check s) <> Blocks.
Proof.
  assert (Hq : quiet (Time := Time) (History := History) (Prefs := Prefs)
                 (Apps := Apps) (External := External) (World := World) health_check).
  { unfold JarvisCoreHealth.health_check, component_health. quiet_tac. }
  apply Hq.
Qed.

(** X25. With the five components it asks in place and answering,
    [health_check] returns the status: the entry of the core is
    [is_active], the components are asked in the order speech, NLP,
    automation, memory, web (the plugin manager is never asked), the
    attributes of [self] are untouched, and the log grows by exactly one
    warning when some entry is false and by nothing otherwise. A core that
    is not active, as after [shutdown], is reported with a warning at
    every check. *)
Theorem health_check_reports (s : State Time History Prefs Apps External World) :
  (forall c, c ∈ checked -> component (self s) c = true) ->
  (forall c w, c ∈ checked -> exists h, fst (component_health_check c w) = Returns h) ->
  exists h s',
    health_check s = (Ok h, s') /\
    h_jarvis_core h = is_active (self s) /\
    self s' = self s /\
    calls s' = calls s ++ map HealthCheck checked /\
    logger s'
    = logger s ++
      (if all_values truth h then []
       else [(WARNING, "Health check issues detected: " ++ HealthStatus_repr repr h)%string]) /\
    (is_active (self s) = false -> all_values truth h = false).
Proof.
  intros Hpresent Hanswer.
  assert (Hstep : forall c (s0 : State Time History Prefs Apps External World),
            c ∈ checked -> self s0 = self s ->
            exists h, component_health component_health_check c s0
                      = (Ok h, mkState (self s0) (logger s0) (calls s0 ++ [HealthCheck c])
                                 (snd (component_health_check c (world s0))))).
  { intros c s0 Hc Hs. rewrite component_health_eq, Hs, (Hpresent c Hc).
    destruct (Hanswer c (world s0) Hc) as [h Hh]. exists h. now rewrite Hh. }
  assert (Hin : forall c, c ∈ checked <->
                          c = speech_engine \/ c = nlp_processor \/ c = automation_engine
                          \/ c = memory_manager \/ c = web_interface).
  { intros c. unfold checked. rewrite !elem_of_cons, elem_of_nil. tauto. }
  unfold JarvisCoreHealth.health_check. unfold Eff.bind at 1, Eff.gets at 1.
  unfold Eff.bind at 1.
  destruct (Hstep speech_engine s) as [h1 E]; [apply Hin; auto|reflexivity|].
  rewrite E. clear E. cbv beta iota. unfold Eff.bind at 1.
  match goal with |- context [component_health _ nlp_processor ?s0] =>
    destruct (Hstep nlp_processor s0) as [h2 E]; [apply Hin; auto|reflexivity|] end.
  rewrite E. clear E. cbv beta iota. unfold Eff.bind at 1.
  match goal with |- context [component_health _ automation_engine ?s0] =>
    destruct (Hstep automation_engine s0) as [h3 E]; [apply Hin; auto|reflexivity|] end.
  rewrite E. clear E. cbv beta iota. unfold Eff.bind at 1.
  match goal with |- context [component_health _ memory_manager ?s0] =>
    destruct (Hstep memory_manager s0) as [h4 E]; [apply Hin; auto 10|reflexivity|] end.
  rewrite E. clear E. cbv beta iota. unfold Eff.bind at 1.
  match goal with |- context [component_health _ web_interface ?s0] =>
    destruct (Hstep web_interface s0) as [h5 E]; [apply Hin; auto 10|reflexivity|] end.
  rewrite E. clear E. cbv beta iota.
  cbn zeta. cbn [self logger calls world].
  set (h := mkHealth (is_active (self s)) h1 h2 h3 h4 h5).
  exists h. unfold Eff.bind, Eff.ret, log, Eff.modify.
  destruct (all_values truth h) eqn:Hall; cbn [negb];
    eexists; (split; [reflexivity|]); cbn [self logger calls];
    rewrite <- ?app_assoc, ?app_nil_r; repeat split.
  - intros Hoff. unfold all_values, h in Hall. cbn in Hall. rewrite Hoff in Hall.
    discriminate Hall.
Qed.

(** X26. [health_check] needs all five components: on a core whose speech
    engine was never created, as before [initialize], it raises
    [AttributeError] at once, with nothing asked and the state unchanged;
    and when any of the five is missing it raises, having logged nothing.
    The exception is not caught, nor is one raised by the check of a
    component. *)
Theorem health_check_needs_every_component
    (s : State Time History Prefs Apps External World) :
  (component (self s) speech_engine = false ->
   health_check s
   = (Raise (AttributeError "'NoneType' object has no attribute 'health_check'"), s)) /\
  (forall c, c ∈ checked -> component (self s) c = false ->
     exists e, fst (health_check s) = Raise e /\
               logger (snd (health_check s)) = logger s) /\
  (forall c e, c ∈ checked ->
     (forall w, fst (component_health_check c w) = Raises e) ->
     exists e', fst (health_check s) = Raise e' /\
                logger (snd (health_check s)) = logger s).
Proof.
  split.
  { intros Hc. unfold JarvisCoreHealth.health_check, Eff.bind, Eff.gets.
    now rewrite component_health_eq, Hc. }
  assert (Hin : forall c, c ∈ checked ->
                          c = speech_engine \/ c = nlp_processor \/ c = automation_engine
                          \/ c = memory_manager \/ c = web_interface).
  { intros c. unfold checked. rewrite !elem_of_cons, elem_of_nil. tauto. }
  assert (Hmain :
    (exists e s', health_check s = (Raise e, s') /\ logger s' = logger s)
    \/ ((forall c, c ∈ checked -> component (self s) c = true) /\
        (forall c, c ∈ checked -> exists w h, fst (component_health_check c w) = Returns h))).
  { unfold JarvisCoreHealth.health_check. unfold Eff.bind at 1, Eff.gets at 1.
    unfold Eff.bind at 1. rewrite component_health_eq.
    destruct (component (self s) speech_engine) eqn:C1; [|left; eexists _, _; split; reflexivity].
    destruct (component_health_check speech_engine (world s)) as [[h1|e1] w1] eqn:H1;
      cbn [fst snd of_outcome]; [|left; eexists _, _; split; reflexivity].
    unfold Eff.bind at 1. rewrite component_health_eq. cbn [self world logger calls].
    destruct (component (self s) nlp_processor) eqn:C2; [|left; eexists _, _; split; reflexivity].
    destruct (component_health_check nlp_processor w1) as [[h2|e2] w2] eqn:H2;
      cbn [fst snd of_outcome]; [|left; eexists _, _; split; reflexivity].
    unfold Eff.bind at 1. rewrite component_health_eq. cbn [self world logger calls].
    destruct (component (self s) automation_engine) eqn:C3; [|left; eexists _, _; split; reflexivity].
    destruct (component_health_check automation_engine w2) as [[h3|e3] w3] eqn:H3;
      cbn [fst snd of_outcome]; [|left; eexists _, _; split; reflexivity].
    unfold Eff.bind at 1. rewrite component_health_eq. cbn [self world logger calls].
    destruct (component (self s) memory_manager) eqn:C4; [|left; eexists _, _; split; reflexivity].
    destruct (component_health_check memory_manager w3) as [[h4|e4] w4] eqn:H4;
      cbn [fst snd of_outcome]; [|left; eexists _, _; split; reflexivity].
    unfold Eff.bind at 1. rewrite component_health_eq. cbn [self world logger calls].
    destruct (component (self s) web_interface) eqn:C5; [|left; eexists _, _; split; reflexivity].
    destruct (component_health_check web_interface w4) as [[h5|e5] w5] eqn:H5;
      cbn [fst snd of_outcome]; [|left; eexists _, _; split; reflexivity].
    right. split.
    - intros c Hc. destruct (Hin c Hc) as [-> | [-> | [-> | [-> | ->]]]]; assumption.
    - intros c Hc. destruct (Hin c Hc) as [-> | [-> | [-> | [-> | ->]]]];
        [exists (world s), h1; now rewrite H1 | exists w1, h2; now rewrite H2
        |exists w2, h3; now rewrite H3 | exists w3, h4; now rewrite H4
        |exists w4, h5; now rewrite H5]. }
  split.
  - intros c Hc Hmiss.
    destruct Hmain as [(e & s' & -> & Hl)|[Hall _]]; [now exists e|].
    rewrite (Hall c Hc) in Hmiss. discriminate Hmiss.
  - intros c e Hc Hfail.
    destruct Hmain as [(e' & s' & -> & Hl)|[_ Hall]]; [now exists e'|].
    destruct (Hall c Hc) as (w & h & Hh). rewrite Hfail in Hh. discriminate Hh.
Qed.

End Checks.
End HealthFacts.


(** ** The application: start-up and the health loop *)

Module Application.
Import CoreSpec CoreFacts Lifecycle JarvisCoreHealth HealthFacts JarvisApplication.
Local Open Scope list_scope.

Section Startup.
Context {Time History Prefs Apps External World : Type}.
Context {collab : JarvisCore.Collaborators Time History Prefs Apps External World}.
Variable Health : Type.
Variable truth : Health -> bool.
Variable repr : Health -> string.
Variable component_health_check :
  JarvisCore.Component -> World -> outcome Health * World.
Variable signal_signal : Signal -> World -> outcome unit * World.

(** Installing the signal handlers returns or raises, and leaves the
    application and the attributes of the core alone. *)
Lemma setup_signal_handlers_spec (s : State Time History Prefs Apps External World) :
  let r := _setup_signal_handlers signal_signal s in
  (fst r = Ok tt \/ exists e, fst r = Raise e) /\
  self (snd r) = self s /\ logger (snd r) = logger s /\
  JarvisCore.self (core (snd r)) = JarvisCore.self (core s).
Proof.
  cbn zeta. unfold _setup_signal_handlers, on_world, Eff.bind.
  destruct (signal_signal SIGINT _) as [[[]|e] w1]; cbn; [|eauto 6].
  destruct (signal_signal SIGTERM w1) as [[[]|e] w2]; cbn; eauto 6.
Qed.

(** X27. [JarvisApplication.initialize] never raises: it returns [True]
    or [False], with [jarvis_core] holding a core and [running] as before.
    [True] is returned with the core active and the success logged;
    [False] with the exception logged as an error. With the class as it
    stands, that is on a core without [_handle_system_alert], the result
    is always [False], whatever the components and the signal module
    do. *)
Theorem application_initialize_reports
    (s : State Time History Prefs Apps External World) :
  exists b s',
    initialize signal_signal s = (Ok b, s') /\
    jarvis_core (self s') = true /\
    running (self s') = running (self s) /\
    (b = true ->
     JarvisCore.is_active (JarvisCore.self (core s')) = true /\
     last (logger s') = Some (INFO, "✅ JARVIS initialized successfully")) /\
    (b = false ->
     exists e, last (logger s')
               = Some (ERROR, "❌ Failed to initialize JARVIS: " ++ exn_str e)%string) /\
    (JarvisCore.extra_event_handler "_handle_system_alert" = None -> b = false).
Proof.
  unfold initialize, Eff.try_except.
  unfold Eff.bind at 1, log at 1, Eff.modify at 1.
  unfold Eff.bind at 1, new_core at 1, Eff.modify at 1. cbn [self logger core slept].
  unfold Eff.bind at 1, on_core at 1. cbn [self jarvis_core core].
  match goal with |- context [JarvisCore.initialize ?c0] =>
    destruct (initialize_outcome c0) as [[Hok Hact]|[e He]];
    pose proof (initialize_plain_raises c0) as Hplain;
    destruct (JarvisCore.initialize c0) as [r c1] end; cbn [fst snd] in *.
  - subst r. unfold Eff.bind at 1.
    match goal with |- context [_setup_signal_handlers signal_signal ?s0] =>
      destruct (setup_signal_handlers_spec s0) as (Hr & Hself & Hlog & Hcore);
      destruct (_setup_signal_handlers signal_signal s0) as [r2 s2] end.
    cbn [fst snd self logger core with_core] in *.
    destruct Hr as [->|[e ->]].
    + unfold Eff.bind, log, Eff.modify, Eff.ret. eexists _, _.
      split; [reflexivity|]. cbn [self logger core]. rewrite Hself, Hcore.
      split; [reflexivity|]. split; [reflexivity|].
      split; [intros _; split; [exact Hact | apply last_snoc]|].
      split; [discriminate|].
      intros Hnone. destruct (Hplain Hnone) as [e He]. discriminate He.
    + unfold Eff.bind, log, Eff.modify, Eff.ret. eexists _, _.
      split; [reflexivity|]. cbn [self logger core]. rewrite Hself.
      split; [reflexivity|]. split; [reflexivity|].
      split; [discriminate|]. split; [|reflexivity].
      intros _. exists e. apply last_snoc.
  - rewrite He. unfold Eff.bind, log, Eff.modify, Eff.ret. eexists _, _.
    split; [reflexivity|]. cbn [self logger core with_core jarvis_core running].
    split; [reflexivity|]. split; [reflexivity|].
    split; [discriminate|]. split; [|reflexivity].
    intros _. exists e. apply last_snoc.
Qed.

(** One pass of the health loop returns, having either paused for 30
    seconds or logged one warning. *)
Lemma health_check_loop_body_spec
    (s : State Time History Prefs Apps External World) :
  let r := _health_check_loop_body truth repr component_health_check s in
  fst r = Ok tt /\ self (snd r) = self s /\
  ((logger (snd r) = logger s /\ slept (snd r) = slept s ++ [30%nat] /\
    exists h, fst (on_core "health_check"
                     (health_check truth repr component_health_check) s) = Ok h) \/
   (slept (snd r) = slept s /\
    exists e, fst (on_core "health_check"
                     (health_check truth repr component_health_check) s) = Raise e /\
              logger (snd r)
              = logger s ++ [(WARNING, "⚠️ Health check failed: " ++ exn_str e)%string])).
Proof.
  cbn zeta. unfold _health_check_loop_body, Eff.try_except, Eff.bind.
  unfold on_core.
  destruct (jarvis_core (self s)).
  - pose proof (health_check_not_blocks Health truth repr component_health_check (core s))
      as Hb.
    destruct (health_check truth repr component_health_check (core s))
      as [[h|e|] c1]; cbn [fst] in Hb; [| |now contradiction Hb]; cbn.
    + repeat split. left. eauto.
    + repeat split. right. eauto.
  - cbn. repeat split. right. eauto.
Qed.

(** X28. While [running] is true the health loop goes on: every pass
    returns, the exceptions of the health check never leave the loop, and
    each of [n] passes either pauses for 30 seconds or, when the check
    raised, logs one warning and goes to the next check without pausing.
    In an application that holds no core every pass is of the second
    kind. With [running] false the loop ends at once. *)
Theorem health_check_loop_passes (n : nat)
    (s : State Time History Prefs Apps External World) :
  (running (self s) = false ->
   _health_check_loop truth repr component_health_check (S n) s = (Ok (Some tt), s)) /\
  (running (self s) = true ->
   exists s' warnings pauses,
     _health_check_loop truth repr component_health_check n s = (Ok None, s') /\
     self s' = self s /\
     logger s' = logger s ++ warnings /\
     Forall (fun r => fst r = WARNING) warnings /\
     slept s' = slept s ++ repeat 30%nat pauses /\
     length warnings + pauses = n /\
     (jarvis_core (self s) = false ->
      pauses = 0%nat /\
      warnings = repeat (WARNING, "⚠️ Health check failed: 'NoneType' object has no attribute 'health_check'") n)).
Proof.
  split.
  { intros Hoff. cbn [_health_check_loop]. unfold Eff.bind, Eff.gets. now rewrite Hoff. }
  revert s; induction n as [|n IH]; intros s Hon.
  - exists s, [], 0%nat. cbn. rewrite !app_nil_r. repeat split. constructor.
  - cbn [_health_check_loop]. unfold Eff.bind at 1, Eff.gets at 1. rewrite Hon.
    unfold Eff.bind at 1.
    destruct (health_check_loop_body_spec s) as (Hr & Hself & Hcases).
    cbn zeta in Hr, Hself, Hcases.
    destruct (_health_check_loop_body truth repr component_health_check s) as [r s1].
    cbn [fst snd] in *. subst r.
    destruct (IH s1) as (s' & warnings & pauses & Hloop & Hself' & Hlog & Hw & Hsl & Hn & Hnone);
      [now rewrite Hself|].
    rewrite Hloop.
    destruct Hcases as [(Hl1 & Hs1 & h & Hh)|(Hs1 & e & He & Hl1)].
    + exists s', warnings, (S pauses). split; [reflexivity|].
      split; [congruence|]. split; [congruence|]. split; [exact Hw|].
      split; [rewrite Hsl, Hs1, <- app_assoc; reflexivity|].
      split; [lia|].
      intros Hcore. exfalso. unfold on_core in Hh. rewrite Hcore in Hh. discriminate Hh.
    + exists s', ((WARNING, "⚠️ Health check failed: " ++ exn_str e)%string :: warnings), pauses.
      split; [reflexivity|]. split; [congruence|].
      split; [rewrite Hlog, Hl1, <- app_assoc; reflexivity|].
      split; [now constructor|]. split; [congruence|]. split; [cbn; lia|].
      intros Hcore. destruct Hnone as [Hp Hws]; [now rewrite Hself|].
      split; [exact Hp|]. unfold on_core in He. rewrite Hcore in He. cbn in He.
      injection He as <-. cbn. now rewrite Hws.
Qed.

End Startup.
End Application.


(** ** The pipeline and the bus on concrete instances *)

Module DispatchRuns.
Import JarvisCore CoreSpec DispatchSpec LifecycleSpec Dispatch Bus.
Local Open Scope list_scope.

Lemma completed_command_is_stored_then_delivered_witness :
  exists r s',
    process_command (collab := supplied) "dance" "web" running = (Ok r, s') /\
    exists s3 t,
      steps_1_to_3 (collab := supplied) "dance" "web" running = (Ok r, s3) /\
      calls s' = calls s3 ++ [StoreInteraction (mkInteraction t "dance" (text r) "web"
                                                  (confidence r));
                              SendResponse r].
Proof.
  assert (H : exists r s',
             process_command_try (collab := supplied) "dance" "web" running = (Ok r, s'))
    by (eexists _, _; vm_compute; reflexivity).
  destruct H as (r & s' & Htry).
  destruct (completed_command_is_stored_then_delivered (collab := supplied)
              "dance" "web" running s' r Htry)
    as (Hr & _ & _ & s3 & t & H123 & Hcalls & _).
  exists r, s'. split; [exact Hr|]. exists s3, t. split; [exact H123|exact Hcalls].
Defined.

(** A command from a source that is neither "voice" nor "web" is stored
    and delivered nowhere. *)
Lemma other_source_is_only_stored :
  calls (snd (process_command (collab := supplied) "dance" "cron" running))
  = [Analyze "dance"; GetRecentInteractions 5; GetUserPreferences; GetActiveApps;
     TryPlugins ∅ (mkContext 0%nat "Unknown" tt (mkStatus 0.0 0.0 0.0 "connected") tt tt);
     StoreInteraction (mkInteraction 2%nat "dance" fallback_text "cron" 0.1%float)].
Proof. vm_compute. reflexivity. Qed.

Lemma defined_intent_answer_witness :
  exists r s',
    process_command
      (collab := analysing (Some "automation") (Some {[ "action" := "on" ]}))
      "lights on" "voice" running = (Ok r, s') /\
    ((action r = Some "automation" /\
      confidence r = 0.0%float /\
      data r = Some {[ "message" := "Lights on" ]} /\
      text r = "Lights on" /\
      exists context (s2 s3 : State nat unit unit unit nat nat),
        steps_1_to_3
          (collab := analysing (Some "automation") (Some {[ "action" := "on" ]}))
          "lights on" "voice" running = (Ok r, s3) /\
        calls s3 = calls s2 ++ [ExecuteAutomation (Some "on") None context]) \/
     (text r = error_text /\ confidence r = 0.0%float)).
Proof.
  destruct (defined_intent_answer
              (collab := analysing (Some "automation") (Some {[ "action" := "on" ]}))
              "lights on" "voice" running
              (mkNlp (Some "automation") (Some {[ "action" := "on" ]}) None) 0%nat
              "automation")
    as (r & s' & Hr & Hcases).
  - reflexivity.
  - reflexivity.
  - unfold defined_intents. left.
  - exists r, s'. split; [exact Hr|].
    destruct Hcases as [(Ha & Hc & (d0 & Hd0 & Ht) & context & s2 & s3 & _ & H123 & Hauto & _)
                       |Herr]; [left|right; exact Herr].
    destruct (Hauto eq_refl) as (d & Hres & Hd & Hcalls).
    cbn in Hres. injection Hres as <-.
    rewrite Hd in Hd0. injection Hd0 as <-.
    split; [exact Ha|]. split; [exact Hc|]. split; [exact Hd|].
    split; [exact Ht|]. exists context, s2, s3. split; [exact H123|exact Hcalls].
Defined.

(** There the answer is the message of the automation engine. *)
Lemma defined_intent_answer_run :
  exists t s',
    process_command
      (collab := analysing (Some "automation") (Some {[ "action" := "on" ]}))
      "lights on" "voice" running
    = (Ok (mkResponse "Lights on" (Some "automation")
             (Some {[ "message" := "Lights on" ]}) 0.0%float t), s').
Proof. eexists _, _. vm_compute. reflexivity. Qed.

Lemma command_event_handlers_never_raise_witness :
  fst (invoke (collab := supplied) _handle_web_command {[ "command" := "dance" ]} running)
  = Ok tt /\
  snd (invoke (collab := supplied) _handle_web_command {[ "command" := "dance" ]} running)
  = snd (process_command (collab := supplied) "dance" "web"
           (mkState (self running) (logger running)
              (calls running ++ [Invoke _handle_web_command {[ "command" := "dance" ]}])
              (world running))) /\
  snd (invoke (collab := supplied) _handle_voice_command ∅ running)
  = mkState (self running) (logger running)
      (calls running ++ [Invoke _handle_voice_command ∅]) (world running).
Proof.
  destruct (command_event_handlers_never_raise (collab := supplied)
              _handle_web_command "web" {[ "command" := "dance" ]} running)
    as (Hr & _ & Hrun); [right; split; reflexivity|].
  destruct (command_event_handlers_never_raise (collab := supplied)
              _handle_voice_command "voice" ∅ running)
    as (_ & Hnone & _); [left; split; reflexivity|].
  split; [exact Hr|]. split.
  - apply Hrun. vm_compute. discriminate.
  - apply Hnone. reflexivity.
Defined.

Lemma wake_word_event_without_engine_witness :
  emit_event (collab := supplied) "wake_word_detected" None without_speech_engine
  = (Ok tt,
     mkState (self without_speech_engine)
       [(INFO, "👂 Wake word detected");
        (ERROR, "Event handler error: 'NoneType' object has no attribute 'play_acknowledgment_sound'")]
       [Invoke _handle_wake_word ∅] 0%nat).
Proof.
  apply (wake_word_event_without_engine (collab := supplied) None without_speech_engine);
    reflexivity.
Defined.

End DispatchRuns.


(** ** The lifecycle on concrete instances *)

Module LifecycleRuns.
Import JarvisCore CoreSpec LifecycleSpec Lifecycle.
Local Open Scope list_scope.

Lemma initialize_activates_witness :
  fst (initialize (collab := supplied) created) = Ok tt /\
  is_active (self (snd (initialize (collab := supplied) created))) = true /\
  registered (snd (initialize (collab := supplied) created)) "voice_command"
  = [_handle_voice_command] /\
  registered (snd (initialize (collab := supplied) created)) "system_alert"
  = [external 0%nat].
Proof.
  destruct (initialize_activates (collab := supplied) created 0%nat 0%nat)
    as (Hr & Hact & _ & Hv & _ & Hs & _); try reflexivity.
  repeat split; assumption.
Defined.

(** A second [initialize] registers every handler again. *)
Lemma initialize_twice_registers_twice :
  registered (snd (initialize (collab := supplied)
                     (snd (initialize (collab := supplied) created)))) "voice_command"
  = [_handle_voice_command; _handle_voice_command].
Proof. vm_compute. reflexivity. Qed.

Lemma initialize_without_system_alert_handler_witness :
  fst (initialize (collab := plain) created)
  = Raise (AttributeError "'JarvisCore' object has no attribute '_handle_system_alert'") /\
  is_active (self (snd (initialize (collab := plain) created))) = false /\
  (forall c, component (self (snd (initialize (collab := plain) created))) c = true) /\
  registered (snd (initialize (collab := plain) created)) "web_command" = [].
Proof.
  destruct (initialize_without_system_alert_handler (collab := plain) created)
    as (Hr & Hact & Hc & _ & _ & _ & Hrest & _); try reflexivity.
  split; [exact Hr|]. split; [exact Hact|]. split; [exact Hc|].
  rewrite Hrest; [reflexivity|]. rewrite !elem_of_cons. auto.
Defined.

Lemma initialize_failure_is_reraised_witness :
  let s' := snd (initialize (collab := failing_start speech_engine) created) in
  fst (initialize (collab := failing_start speech_engine) created)
  = Raise (OtherError "speech_engine is not available") /\
  last (logger s')
  = Some (ERROR, "❌ Component initialization failed: speech_engine is not available") /\
  is_active (self s') = false /\
  component (self s') memory_manager = true /\
  component (self s') web_interface = false.
Proof.
  cbn zeta.
  destruct (initialize_failure_is_reraised (collab := failing_start speech_engine)
              [memory_manager; nlp_processor]
              [automation_engine; plugin_manager; web_interface]
              speech_engine (OtherError "speech_engine is not available") created)
    as (Hr & Hlog & Hact & _ & Hpre & Hpost).
  - reflexivity.
  - intros c' w Hin. rewrite !elem_of_cons, elem_of_nil in Hin.
    destruct Hin as [->|[->|[]]]; split; reflexivity.
  - right. split; intros w; reflexivity.
  - split; [exact Hr|]. split; [exact Hlog|]. split; [exact Hact|]. split.
    + apply Hpre. left.
    + rewrite Hpost; [reflexivity|]. rewrite !elem_of_cons. auto.
Defined.

(** There the speech engine itself stays set, created but not
    initialized. *)
Lemma initialize_failure_keeps_broken_component :
  component (self (snd (initialize (collab := failing_start speech_engine) created)))
    speech_engine = true.
Proof. reflexivity. Qed.

Lemma shutdown_keeps_components_witness :
  shutdown (collab := supplied) created
  = (Ok tt,
     mkState (set_is_active false (self created))
       [(INFO, "🔄 Shutting down JARVIS components...");
        (INFO, "✅ JARVIS shutdown complete")] [] 0%nat) /\
  calls (snd (shutdown (collab := supplied) (snd (shutdown (collab := supplied) running))))
  = [Shutdown web_interface; Shutdown automation_engine; Shutdown speech_engine;
     Shutdown nlp_processor; Shutdown memory_manager;
     Shutdown web_interface; Shutdown automation_engine; Shutdown speech_engine;
     Shutdown nlp_processor; Shutdown memory_manager].
Proof.
  destruct (shutdown_keeps_components (collab := supplied) created)
    as (_ & _ & _ & Hnone & _).
  destruct (shutdown_keeps_components (collab := supplied) running)
    as (_ & _ & _ & _ & Htwice).
  split.
  - apply Hnone. reflexivity.
  - apply Htwice. reflexivity.
Defined.

End LifecycleRuns.


(** ** The health check and the application on concrete instances *)

Module HealthRuns.
Import JarvisCore CoreSpec LifecycleSpec JarvisCoreHealth HealthSpec HealthFacts.
Import Application.
Local Open Scope list_scope.

Lemma health_check_reports_witness :
  exists h s',
    health_check (fun b : bool => b) bool_repr (all_but web_interface) running = (Ok h, s') /\
    h_jarvis_core h = true /\
    calls s' = map HealthCheck checked /\
    logger s'
    = [(WARNING, "Health check issues detected: {'jarvis_core': True, 'speech_engine': True, 'nlp_processor': True, 'automation_engine': True, 'memory_manager': True, 'web_interface': False}")].
Proof.
  destruct (health_check_reports (Time := nat) (History := unit) (Prefs := unit)
              (Apps := unit) (External := nat) bool (fun b => b) bool_repr
              (all_but web_interface) running)
    as (h & s' & Hr & Hcore & _ & Hcalls & Hlog & _).
  - intros c _. reflexivity.
  - intros c w _. eexists. reflexivity.
  - exists h, s'. split; [exact Hr|]. split; [exact Hcore|]. split; [exact Hcalls|].
    rewrite Hlog. vm_compute in Hr. injection Hr as <- _. reflexivity.
Defined.

Lemma health_check_needs_every_component_witness :
  health_check (fun b : bool => b) bool_repr (all_but plugin_manager) created
  = (Raise (AttributeError "'NoneType' object has no attribute 'health_check'"), created).
Proof.
  apply (health_check_needs_every_component (Time := nat) (History := unit)
           (Prefs := unit) (Apps := unit) (External := nat) bool (fun b => b) bool_repr
           (all_but plugin_manager) created).
  reflexivity.
Defined.

Lemma application_initialize_reports_witness :
  exists s',
    JarvisApplication.initialize (collab := plain) installs fresh_application
    = (Ok false, s') /\
    last (JarvisApplication.logger s')
    = Some (ERROR, "❌ Failed to initialize JARVIS: 'JarvisCore' object has no attribute '_handle_system_alert'").
Proof.
  destruct (application_initialize_reports (collab := plain) installs fresh_application)
    as (b & s' & Hr & _ & _ & _ & _ & Hplain).
  rewrite (Hplain eq_refl) in Hr. exists s'. split; [exact Hr|].
  vm_compute in Hr. injection Hr as <-. reflexivity.
Defined.

(** On an instance that supplies the two missing handlers, the application
    starts. *)
Lemma application_initialize_supplied :
  fst (JarvisApplication.initialize (collab := supplied) installs fresh_application)
  = Ok true.
Proof. vm_compute. reflexivity. Qed.

Lemma health_check_loop_passes_witness :
  exists s',
    JarvisApplication._health_check_loop (fun b : bool => b) bool_repr (all_but plugin_manager) 3
      running_application = (Ok None, s') /\
    JarvisApplication.slept s' = [] /\
    JarvisApplication.logger s'
    = repeat (WARNING, "⚠️ Health check failed: 'NoneType' object has no attribute 'health_check'") 3.
Proof.
  destruct (health_check_loop_passes bool (fun b => b) bool_repr
              (all_but plugin_manager) 3 running_application)
    as (_ & Hon).
  destruct Hon as (s' & warnings & pauses & Hr & _ & Hlog & _ & Hsl & _ & Hnone);
    [reflexivity|].
  destruct Hnone as (-> & ->); [reflexivity|].
  exists s'. split; [exact Hr|]. split; [exact Hsl|exact Hlog].
Defined.

End HealthRuns.
